(** * Remote-settings lambdas: signature validation, changes check, refresh

    A shallow embedding of [aws_lambda.py]: the three entry points
    [validate_signature], [validate_changes_collection] and
    [refresh_signature], written in a small state-and-exception monad over
    an explicit program state.  The Kinto client, the canonical serializer,
    the hasher, the ECDSA verifier, the temporary-file factory and the
    date formatter are libraries outside the repository: they are the
    methods of the [Collaborators] class, and every call to one of them is
    appended, with its result, to the [trace] the state carries. *)

From Stdlib Require Import ZArith Lia Ascii.
From stdpp Require Import base strings list gmap pretty.

Set Warnings "-clear-no-such-hyp".
Open Scope Z_scope.

(** ** Python values *)

(** JSON-shaped Python values, as the Kinto client returns them. *)
#[local] Unset Elimination Schemes.
Inductive pyval : Type :=
| PNone
| PBool (b : bool)
| PInt (z : Z)
| PStr (s : string)
| PList (l : list pyval)
| PDict (d : list (string * pyval)).
#[local] Set Elimination Schemes.

(** An exception object: its class, what [str(e)] renders, and whether the
    class derives from [Exception] (so that [except Exception] catches it;
    [KeyboardInterrupt] and [SystemExit] do not). *)
Record exn : Type := Exn {
  exn_class : string;
  exn_str : string;
  exn_is_Exception : bool
}.

Inductive Result (A : Type) : Type :=
| Ok (a : A)
| Raise (e : exn).
Arguments Ok {A} a.
Arguments Raise {A} e.

Definition result_map {A B} (g : A -> B) (r : Result A) : Result B :=
  match r with
  | Ok a => Ok (g a)
  | Raise e => Raise e
  end.

Definition nl : string := String (Ascii.ascii_of_nat 10) "".

Definition KeyError (key : string) : exn :=
  Exn "KeyError" ("'" +:+ key +:+ "'") true.
Definition TypeError (msg : string) : exn := Exn "TypeError" msg true.
Definition AttributeError (msg : string) : exn := Exn "AttributeError" msg true.
Definition ValueError (msg : string) : exn := Exn "ValueError" msg true.
Definition FileNotFoundError (path : string) : exn :=
  Exn "FileNotFoundError"
      ("[Errno 2] No such file or directory: '" +:+ path +:+ "'") true.
Definition UnboundLocalError (var : string) : exn :=
  Exn "UnboundLocalError"
      ("local variable '" +:+ var +:+ "' referenced before assignment") true.

(** [class ValidationError(Exception): pass] *)
Definition ValidationError (msg : string) : exn :=
  Exn "ValidationError" msg true.

Definition type_name (v : pyval) : string :=
  match v with
  | PNone => "NoneType"
  | PBool _ => "bool"
  | PInt _ => "int"
  | PStr _ => "str"
  | PList _ => "list"
  | PDict _ => "dict"
  end.

Fixpoint assoc (key : string) (d : list (string * pyval)) : option pyval :=
  match d with
  | [] => None
  | (k, v) :: d' => if String.eqb k key then Some v else assoc key d'
  end.

(** [v[key]] for a string key: a dictionary is looked up, anything else
    cannot be indexed by a string. *)
Definition getitem (v : pyval) (key : string) : Result pyval :=
  match v with
  | PDict d =>
      match assoc key d with
      | Some x => Ok x
      | None => Raise (KeyError key)
      end
  | PList _ => Raise (TypeError "list indices must be integers or slices, not str")
  | PStr _ => Raise (TypeError "string indices must be integers")
  | _ => Raise (TypeError ("'" +:+ type_name v +:+ "' object is not subscriptable"))
  end.

(** [v == s] for a string literal [s]. *)
Definition eq_str (v : pyval) (s : string) : bool :=
  match v with
  | PStr t => String.eqb t s
  | _ => false
  end.

(** ** Configuration *)

Record collection_ref : Type := CollectionRef {
  bucket : string;
  collection : string
}.

(** The lambda's [event]: a field is [None] when the key is absent. *)
Record event : Type := Event {
  ev_server : option string;
  ev_collections : option (list collection_ref);
  ev_bucket : option string;
  ev_collection : option string
}.

Definition DEFAULT_COLLECTIONS : list collection_ref :=
  [ CollectionRef "blocklists" "certificates";
    CollectionRef "blocklists" "addons";
    CollectionRef "blocklists" "plugins";
    CollectionRef "blocklists" "gfx";
    CollectionRef "pinning" "pins" ].

(** [kinto_http.Client(server_url=..., bucket=..., collection=..., auth=...)] *)
Record Client : Type := MkClient {
  server_url : string;
  client_bucket : string;
  client_collection : string;
  auth : option (list string)
}.

(** ** Calls to the collaborators *)

Inductive Call : Type :=
| GetCollection (c : Client)
| GetRecords (c : Client) (sort : option string)
| GetRecordsTimestamp (c : Client) (target : option (pyval * pyval))
| PatchCollection (c : Client) (data : pyval)
| CanonicalJson (records : list pyval) (timestamp : pyval)
| ComputeHash (serialized : string)
| NamedTemporaryFile
| Verify (public_key_file : string) (serialized : string) (signature : pyval).

(** The libraries the lambdas call.  [W] is the state of everything outside
    the process: the remote server, the clock, the name generator. *)
Class Collaborators (W : Type) : Type := {
  (** [client.get_endpoint(name)] *)
  get_endpoint : Client -> string -> string;
  (** [client.get_collection()] *)
  kinto_get_collection : Client -> W -> Result pyval * W;
  (** [client.get_records(_sort=...)] *)
  kinto_get_records : Client -> option string -> W -> Result (list pyval) * W;
  (** [client.get_records_timestamp(bucket=..., collection=...)] *)
  kinto_get_records_timestamp :
    Client -> option (pyval * pyval) -> W -> Result pyval * W;
  (** [client.patch_collection(data=...)] *)
  kinto_patch_collection : Client -> pyval -> W -> Result pyval * W;
  (** [kinto_signer.serializer.canonical_json] *)
  canonical_json : list pyval -> pyval -> Result string;
  (** [kinto_signer.hasher.compute_hash] *)
  compute_hash : string -> Result string;
  (** the name [tempfile.NamedTemporaryFile(delete=False)] picks *)
  tempfile_name : W -> Result string * W;
  (** [ECDSASigner(public_key=path).verify(serialized, signature)], given
      what the key file holds *)
  ecdsa_verify : option string -> string -> pyval -> Result unit;
  (** [os.getenv] *)
  getenv : string -> W -> option string;
  (** [str] of a list or a dictionary *)
  str_container : pyval -> string;
  (** [int] of a string *)
  int_of_string : string -> Result Z;
  (** [datetime.utcfromtimestamp(seconds).strftime(format)] *)
  utc_strftime : Z -> string -> Result string
}.

(** ** Program state *)

Record State (W : Type) : Type := MkState {
  world : W;
  (** files of the temporary directory, with their contents *)
  fs : gmap string string;
  (** what [print] wrote, one entry per call *)
  stdout : list string;
  (** collaborator calls, oldest first *)
  trace : list (Call * Result pyval);
  (** locals of [validate_signature] that outlive an iteration *)
  exception : option exn;
  messages : list string;
  (** the name of the file object bound to [f], if [f] is bound *)
  f : option string;
  (** local of [validate_changes_collection] *)
  everything_ok : bool
}.
Arguments MkState {W}.
Arguments world {W}.
Arguments fs {W}.
Arguments stdout {W}.
Arguments trace {W}.
Arguments exception {W}.
Arguments messages {W}.
Arguments f {W}.
Arguments everything_ok {W}.

(** A statement: from a state to a result, or a raised exception, and the
    state reached. *)
Definition M (W A : Type) : Type := State W -> Result A * State W.

Section Program.
Context {W : Type} {collab : Collaborators W}.

#[local] Abbreviation St := (State W).

Definition set_world (w : W) (st : St) : St :=
  MkState w (fs st) (stdout st) (trace st) (exception st) (messages st)
          (f st) (everything_ok st).
Definition set_fs (m : gmap string string) (st : St) : St :=
  MkState (world st) m (stdout st) (trace st) (exception st) (messages st)
          (f st) (everything_ok st).
Definition set_stdout (o : list string) (st : St) : St :=
  MkState (world st) (fs st) o (trace st) (exception st) (messages st)
          (f st) (everything_ok st).
Definition set_trace (t : list (Call * Result pyval)) (st : St) : St :=
  MkState (world st) (fs st) (stdout st) t (exception st) (messages st)
          (f st) (everything_ok st).
Definition set_exception (e : option exn) (st : St) : St :=
  MkState (world st) (fs st) (stdout st) (trace st) e (messages st)
          (f st) (everything_ok st).
Definition set_messages (l : list string) (st : St) : St :=
  MkState (world st) (fs st) (stdout st) (trace st) (exception st) l
          (f st) (everything_ok st).
Definition set_f (n : option string) (st : St) : St :=
  MkState (world st) (fs st) (stdout st) (trace st) (exception st)
          (messages st) n (everything_ok st).
Definition set_everything_ok (b : bool) (st : St) : St :=
  MkState (world st) (fs st) (stdout st) (trace st) (exception st)
          (messages st) (f st) b.

(** ** The monad: state, and exceptions that keep the state *)

Definition ret {A} (a : A) : M W A := fun st => (Ok a, st).
Definition raise {A} (e : exn) : M W A := fun st => (Raise e, st).
Definition bind {A B} (m : M W A) (k : A -> M W B) : M W B :=
  fun st =>
    match m st with
    | (Ok a, st') => k a st'
    | (Raise e, st') => (Raise e, st')
    end.
Definition lift {A} (r : Result A) : M W A := fun st => (r, st).
Definition modify (g : St -> St) : M W unit := fun st => (Ok tt, g st).
Definition gets {A} (g : St -> A) : M W A := fun st => (Ok (g st), st).

#[global] Instance M_ret : MRet (M W) := @ret.
#[global] Instance M_bind : MBind (M W) := fun A B k m => bind m k.

(** The trace is no variable of the program: it records, for the
    statements below, what the program asked of its collaborators and what
    they answered. *)
Definition log (c : Call) (r : Result pyval) (st : St) : St :=
  set_trace (trace st ++ [(c, r)]) st.

(** A call that may read or change the world. *)
Definition call_world {A} (c : Call) (to_py : A -> pyval)
    (op : W -> Result A * W) : M W A :=
  fun st =>
    match op (world st) with
    | (r, w) => (r, log c (result_map to_py r) (set_world w st))
    end.

(** A call to a pure library function. *)
Definition call_pure {A} (c : Call) (to_py : A -> pyval) (r : Result A) : M W A :=
  fun st => (r, log c (result_map to_py r) st).

Fixpoint for_each {A} (l : list A) (body : A -> M W unit) : M W unit :=
  match l with
  | [] => ret tt
  | x :: l' => body x;; for_each l' body
  end.

(** [try: body / except Exception as e: handler e / finally: final].
    An exception of [final] replaces whatever was pending. *)
Definition try_except_finally {A} (body : M W A) (handler : exn -> M W A)
    (final : M W unit) : M W A :=
  fun st =>
    let '(r, st1) :=
      match body st with
      | (Ok a, st1) => (Ok a, st1)
      | (Raise e, st1) =>
          if exn_is_Exception e then handler e st1 else (Raise e, st1)
      end in
    match final st1 with
    | (Ok _, st2) => (r, st2)
    | (Raise e', st2) => (Raise e', st2)
    end.

(** ** Builtins *)

(** [str(v)], which is also what ['{}'.format(v)] renders. *)
Definition str (v : pyval) : string :=
  match v with
  | PNone => "None"
  | PBool true => "True"
  | PBool false => "False"
  | PInt z => pretty z
  | PStr s => s
  | _ => str_container v
  end.

(** [int(v)] *)
Definition int (v : pyval) : Result Z :=
  match v with
  | PInt z => Ok z
  | PBool b => Ok (if b then 1 else 0)
  | PStr s => int_of_string s
  | _ => Raise (TypeError
           ("int() argument must be a string, a bytes-like object or a number, not '"
            +:+ type_name v +:+ "'"))
  end.

(** [v.encode('utf-8')]: only strings have the method. *)
Definition encode (v : pyval) : Result string :=
  match v with
  | PStr s => Ok s
  | _ => Raise (AttributeError
           ("'" +:+ type_name v +:+ "' object has no attribute 'encode'"))
  end.

(** [print(args..., end=end_)]: the arguments joined by a space, then [end_] *)
Definition print (args : list string) (end_ : string) : M W unit :=
  modify (fun st => set_stdout (stdout st ++ [String.concat " " args +:+ end_]) st).

(** [event['server']] *)
Definition event_server (ev : event) : Result string :=
  match ev_server ev with
  | Some s => Ok s
  | None => Raise (KeyError "server")
  end.

Fixpoint partition (sep : Ascii.ascii) (s : string) : option (string * string) :=
  match s with
  | "" => None
  | String a s' =>
      if Ascii.eqb a sep then Some ("", s')
      else match partition sep s' with
           | Some (before, after) => Some (String a before, after)
           | None => None
           end
  end.

(** [s.split(sep, maxsplit)] for a one-character separator. *)
Fixpoint str_split (sep : Ascii.ascii) (maxsplit : nat) (s : string) : list string :=
  match maxsplit with
  | O => [s]
  | S n =>
      match partition sep s with
      | Some (before, after) => before :: str_split sep n after
      | None => [s]
      end
  end.

(** ** The Kinto client and the file system *)

Definition get_collection (client : Client) : M W pyval :=
  call_world (GetCollection client) id (kinto_get_collection client).

Definition get_records (client : Client) (_sort : option string) : M W (list pyval) :=
  call_world (GetRecords client _sort) PList (kinto_get_records client _sort).

Definition get_records_timestamp (client : Client)
    (target : option (pyval * pyval)) : M W pyval :=
  call_world (GetRecordsTimestamp client target) id
             (kinto_get_records_timestamp client target).

Definition patch_collection (client : Client) (data : pyval) : M W pyval :=
  call_world (PatchCollection client data) id (kinto_patch_collection client data).

(** [tempfile.NamedTemporaryFile(delete=False)]: an empty file under a
    name the library picks; the result is the file's name. *)
Definition named_temporary_file : M W string :=
  name ← call_world NamedTemporaryFile PStr tempfile_name;
  modify (fun st => set_fs (<[name := ""]> (fs st)) st);;
  ret name.

(** [f.write(data)] *)
Definition file_write (name data : string) : M W unit :=
  modify (fun st =>
    set_fs (<[name := default "" (fs st !! name) +:+ data]> (fs st)) st).

(** [f.close()] *)
Definition file_close (name : string) : M W unit := ret tt.

(** [os.unlink(path)] *)
Definition unlink (path : string) : M W unit :=
  fun st =>
    match fs st !! path with
    | Some _ => (Ok tt, set_fs (delete path (fs st)) st)
    | None => (Raise (FileNotFoundError path), st)
    end.

(** [ECDSASigner(public_key=path).verify(serialized, signature)]: the key
    is read from the file when the signature is verified. *)
Definition signer_verify (path serialized : string) (signature : pyval) : M W unit :=
  fun st =>
    call_pure (Verify path serialized signature) (fun _ => PNone)
              (ecdsa_verify (fs st !! path) serialized signature) st.

(** ** [validate_signature] *)

Definition make_client (server_url : string) (ref : collection_ref)
    (auth : option (list string)) : Client :=
  MkClient server_url (bucket ref) (collection ref) auth.

(** What an iteration has fetched and computed when it reaches the [try]
    statement. *)
Record fetched : Type := Fetched {
  dest_col : pyval;
  records : list pyval;
  timestamp : pyval;
  serialized : string;
  computed_hash : string;
  signature : pyval
}.

(** Lines 50-71: the client, the [Looking at] message, and steps 1 to 5. *)
Definition validate_fetch (server_url : string) (collection : collection_ref)
    : M W fetched :=
  let client := make_client server_url collection None in
  let message := "Looking at " +:+ get_endpoint client "collection" +:+ ": " in
  print [message] "";;
  modify (fun st => set_messages (messages st ++ [message]) st);;
  (* 1. Grab collection information *)
  dest_col ← get_collection client;
  (* 2. Grab records *)
  records ← get_records client (Some "-last_modified");
  timestamp ← get_records_timestamp client None;
  (* 3. Serialize *)
  serialized ← call_pure (CanonicalJson records timestamp) PStr
                         (canonical_json records timestamp);
  (* 4. Compute hash *)
  computed_hash ← call_pure (ComputeHash serialized) PStr
                            (compute_hash serialized);
  (* 5. Grab the signature *)
  data ← lift (getitem dest_col "data");
  signature ← lift (getitem data "signature");
  ret (Fetched dest_col records timestamp serialized computed_hash signature).

(** Lines 75-84: the body of the [try]. *)
Definition verify_try (x : fetched) : M W unit :=
  name ← named_temporary_file;
  modify (set_f (Some name));;
  public_key ← lift (getitem (signature x) "public_key");
  data ← lift (encode public_key);
  file_write name data;;
  file_close name;;
  (* 7. Verify the signature matches the hash *)
  signer_verify name (serialized x) (signature x);;
  let message := "Signature OK" in
  print [message] nl;;
  modify (fun st => set_messages (messages st ++ [message]) st).

(** The four lines of a fail entry (lines 87-90). *)
Definition failure_message (x : fetched) : list string :=
  [ "Signature KO.";
    " - Computed hash: `" +:+ computed_hash x +:+ "`";
    " - Collection timestamp: `" +:+ str (timestamp x) +:+ "`";
    " - Serialized content: `" +:+ serialized x +:+ "`" ].

(** Lines 85-92: [except Exception as e]. *)
Definition verify_except (x : fetched) (e : exn) : M W unit :=
  modify (set_exception (Some e));;
  let message := failure_message x in
  print [String.concat nl message] nl;;
  modify (fun st => set_messages (messages st ++ message) st).

(** Lines 93-94: [finally: os.unlink(f.name)]. *)
Definition verify_finally : M W unit :=
  f ← gets f;
  match f with
  | Some name => unlink name
  | None => raise (UnboundLocalError "f")
  end.

(** Lines 74-94. *)
Definition validate_verify (x : fetched) : M W unit :=
  try_except_finally (verify_try x) (verify_except x) verify_finally.

(** One iteration of the loop (lines 50-94). *)
Definition validate_collection (server_url : string)
    (collection : collection_ref) : M W unit :=
  x ← validate_fetch server_url collection;
  validate_verify x.

(** Lines 96-98. *)
Definition validate_report : M W unit :=
  exception ← gets exception;
  messages ← gets messages;
  match exception with
  | Some e =>
      raise (ValidationError
               (exn_str e +:+ ":" +:+ nl +:+ String.concat nl messages))
  | None => ret tt
  end.

(** [validate_signature(event, context)]; [context] is not used.  The
    locals start fresh: [f] is unbound on entry. *)
Definition validate_signature (ev : event) : M W unit :=
  modify (set_f None);;
  server_url ← lift (event_server ev);
  let collections := default DEFAULT_COLLECTIONS (ev_collections ev) in
  modify (set_exception None);;
  modify (set_messages []);;
  for_each collections (validate_collection server_url);;
  validate_report.

(** ** [validate_changes_collection] *)

(** One iteration of the loop (lines 115-123). *)
Definition validate_entry (client : Client) (collection : pyval) : M W unit :=
  bid ← lift (getitem collection "bucket");
  cid ← lift (getitem collection "collection");
  last_modified ← lift (getitem collection "last_modified");
  etag ← get_records_timestamp client (Some (bid, cid));
  if String.eqb (str etag) (str last_modified) then
    print ["Etag OK for " +:+ str bid +:+ "/" +:+ str cid +:+ " : " +:+ str etag] nl
  else
    modify (set_everything_ok false);;
    print ["Etag NOT OK for " +:+ str bid +:+ "/" +:+ str cid +:+ " : "
           +:+ str last_modified +:+ " != " +:+ str etag] nl.

Definition validate_changes_collection (ev : event) : M W unit :=
  (* 1. Grab the changes collection *)
  server_url ← lift (event_server ev);
  let bucket := default "monitor" (ev_bucket ev) in
  let collection := default "changes" (ev_collection ev) in
  let client := MkClient server_url bucket collection None in
  print ["Looking at " +:+ get_endpoint client "collection" +:+ ": "] nl;;
  collections ← get_records client None;
  (* 2. For each collection there, validate the ETag *)
  modify (set_everything_ok true);;
  for_each collections (validate_entry client);;
  everything_ok ← gets everything_ok;
  if negb everything_ok then
    raise (ValueError "One of the collection did not validate.")
  else ret tt.

(** ** [refresh_signature] *)

(** [timestamp_to_date]: [/] is the floor division of integers, which is
    also the second [utcfromtimestamp] and [strftime] render for a
    fractional argument. *)
Definition timestamp_to_date (timestamp_milliseconds : pyval) : Result string :=
  match int timestamp_milliseconds with
  | Ok ms =>
      let timestamp_seconds := ms `div` 1000 in
      utc_strftime timestamp_seconds "%Y-%m-%d %H:%M:%S UTC"
  | Raise e => Raise e
  end.

(** One iteration of the loop (lines 140-160). *)
Definition refresh_collection (server_url : string) (auth : list string)
    (collection : collection_ref) : M W unit :=
  let client := make_client server_url collection (Some auth) in
  print ["Looking at " +:+ get_endpoint client "collection" +:+ ":"] " ";;
  (* 1. Grab collection information *)
  response ← get_collection client;
  collection_metadata ← lift (getitem response "data");
  last_modified ← lift (getitem collection_metadata "last_modified");
  (* 2. If status is signed *)
  status ← lift (getitem collection_metadata "status");
  last_modified ←
    (if eq_str status "signed" then
       (* 2.1. Trigger a signature *)
       print ["Trigger new signature: "] "";;
       new_metadata ← patch_collection client (PDict [("status", PStr "to-sign")]);
       new_data ← lift (getitem new_metadata "data");
       lift (getitem new_data "last_modified")
     else ret last_modified);
  (* 3. Display the status of the collection *)
  status ← lift (getitem collection_metadata "status");
  date ← lift (timestamp_to_date last_modified);
  print [str status; "at"; date; "("; str last_modified; ")"] nl.

Definition refresh_signature (ev : event) : M W unit :=
  server_url ← lift (event_server ev);
  let collections := default DEFAULT_COLLECTIONS (ev_collections ev) in
  credentials ← gets (fun st => getenv "REFRESH_SIGNATURE_AUTH" (world st));
  auth ← match credentials with
         | Some s => ret (str_split ":"%char 1 s)
         | None => raise (AttributeError
                            "'NoneType' object has no attribute 'split'")
         end;
  for_each collections (refresh_collection server_url auth).

End Program.

(** ** Vocabulary of the statements *)

(** [s] occurs in [t]. *)
Definition substring (s t : string) : Prop :=
  exists before after, t = before +:+ s +:+ after.

(** The events [evs] occur in [tr], one after the other. *)
Definition occurs {A} (evs tr : list A) : Prop :=
  exists before after, tr = before ++ evs ++ after.

Fixpoint has_char (a : Ascii.ascii) (s : string) : bool :=
  match s with
  | "" => false
  | String b s' => Ascii.eqb b a || has_char a s'
  end.

(** The value under [key], for a dictionary that has the key. *)
Definition field (v : pyval) (key : string) : pyval :=
  match getitem v key with
  | Ok x => x
  | Raise _ => PNone
  end.

(** A registry entry carries the three keys the check reads. *)
Definition well_formed_entry (entry : pyval) : Prop :=
  forall key, key ∈ ["bucket"; "collection"; "last_modified"] ->
    exists v, getitem entry key = Ok v.

Section Vocabulary.
Context {W : Type} {collab : Collaborators W}.

(** The call that fetches the live timestamp of a registry entry, with
    the timestamp it returned. *)
Definition entry_check (client : Client) (entry etag : pyval)
    : Call * Result pyval :=
  (GetRecordsTimestamp client (Some (field entry "bucket", field entry "collection")),
   Ok etag).

(** The two renderings the check compares. *)
Definition renderings_differ (p : pyval * pyval) : Prop :=
  str p.2 <> str (field p.1 "last_modified").

(** The line that reports a collection's status and timestamp. *)
Definition status_line (status : pyval) (date : string) (last_modified : pyval)
    : string :=
  str status +:+ " at " +:+ date +:+ " ( " +:+ str last_modified +:+ " )" +:+ nl.

(** The state in which the loop of [validate_signature] starts. *)
Definition validate_start (st : State W) : State W :=
  set_messages [] (set_exception None (set_f None st)).

Definition looking_at (server_url : string) (c : collection_ref) : string :=
  "Looking at " +:+ get_endpoint (make_client server_url c None) "collection" +:+ ": ".

(** The loop over [c :: cs] ends in the iteration of [c] with the
    exception [e]: the calls it has made are [tr], no fail entry has been
    recorded (the messages have gained the [Looking at] line of [c] and
    nothing else, and the pending exception is what it was), and the
    collections of [cs] have not been reached. *)
Definition ends_unrecorded (server_url : string) (c : collection_ref)
    (cs : list collection_ref) (st : State W) (e : exn)
    (tr : list (Call * Result pyval)) : Prop :=
  exists st',
    for_each (c :: cs) (validate_collection server_url) st = (Raise e, st') /\
    messages st' = messages st ++ [looking_at server_url c] /\
    exception st' = exception st /\
    trace st' = trace st ++ tr.

(** The calls an iteration makes before the [try] when all of them succeed. *)
Definition fetch_trace (client : Client) (x : fetched) : list (Call * Result pyval) :=
  [ (GetCollection client, Ok (dest_col x));
    (GetRecords client (Some "-last_modified"), Ok (PList (records x)));
    (GetRecordsTimestamp client None, Ok (timestamp x));
    (CanonicalJson (records x) (timestamp x), Ok (PStr (serialized x)));
    (ComputeHash (serialized x), Ok (PStr (computed_hash x))) ].

(** Steps 1 to 5 succeed for the collection, whenever they run. *)
Definition fetches (server_url : string) (c : collection_ref) : Prop :=
  forall st : State W, exists x st1, validate_fetch server_url c st = (Ok x, st1).

(** A temporary file can always be created. *)
Definition stages : Prop :=
  forall w : W, exists name w', tempfile_name w = (Ok name, w').

(** What the verifier raises derives from [Exception]. *)
Definition verifier_raises_Exception : Prop :=
  forall key serialized signature e,
    ecdsa_verify key serialized signature = Raise e -> exn_is_Exception e = true.

(** The collection's signature verifies, whenever it is checked. *)
Definition verifies (server_url : string) (c : collection_ref) : Prop :=
  forall (st : State W) x st1,
    validate_fetch server_url c st = (Ok x, st1) ->
    exists st2, verify_try x st1 = (Ok tt, st2).

(** The collection's verification raises [e], whenever it is checked. *)
Definition rejects (server_url : string) (c : collection_ref) (e : exn) : Prop :=
  forall (st : State W) x st1,
    validate_fetch server_url c st = (Ok x, st1) ->
    exists st2, verify_try x st1 = (Raise e, st2).

End Vocabulary.

(** ** A small server to run the lambdas against

    Five collections of a bucket: [certificates] and [plugins] carry a
    signature the verifier accepts, [addons] and [gfx] one it rejects,
    and the records of [pins] cannot be listed.  Every collection holds
    [size] records.  The world is the number of temporary files named so
    far. *)
Module Toy.

Definition endpoint (c : Client) (name : string) : string :=
  "/buckets/" +:+ client_bucket c +:+ "/collections/" +:+ client_collection c.

Definition status_of (cid : string) : string :=
  if String.eqb cid "certificates" then "signed" else "to-sign".

Definition signature_of (cid : string) : string :=
  if String.eqb cid "addons" then "forged-addons"
  else if String.eqb cid "gfx" then "forged-gfx"
  else "genuine".

Definition data (cid : string) : pyval :=
  PDict [("id", PStr cid);
         ("last_modified", PInt 500);
         ("status", PStr (status_of cid));
         ("signature",
          PDict [("signature", PStr (signature_of cid));
                 ("public_key", PStr "PUBLIC KEY")])].

Definition metadata (cid : string) : pyval := PDict [("data", data cid)].

Definition ServerError : exn := Exn "KintoException" "503 - Service Unavailable" true.
Definition BadSignatureError (sig : string) : exn :=
  Exn "BadSignatureError" ("Signature verification failed: " +:+ sig) true.

(** The registry [monitor/changes] is stale for [addons]; the registry
    [monitor/changes-preview] agrees with the live timestamps. *)
Definition registry (cid : string) : list pyval :=
  if String.eqb cid "changes" then
    [ PDict [("bucket", PStr "blocklists"); ("collection", PStr "certificates");
             ("last_modified", PInt 100)];
      PDict [("bucket", PStr "blocklists"); ("collection", PStr "addons");
             ("last_modified", PInt 100)] ]
  else
    [ PDict [("bucket", PStr "blocklists"); ("collection", PStr "certificates");
             ("last_modified", PInt 100)];
      PDict [("bucket", PStr "blocklists"); ("collection", PStr "addons");
             ("last_modified", PInt 101)] ].

Definition list_records (size : nat) (c : Client) : Result (list pyval) :=
  if String.eqb (client_collection c) "pins" then Raise ServerError
  else if String.eqb (client_bucket c) "monitor" then Ok (registry (client_collection c))
  else Ok (replicate size (PDict [("id", PStr "r"); ("last_modified", PInt 42)])).

Definition live_timestamp (c : Client) (target : option (pyval * pyval)) : pyval :=
  match target with
  | Some (_, PStr "addons") => PStr "101"
  | Some _ => PStr "100"
  | None => PStr (pretty (1000 + Z.of_nat (String.length (client_collection c))))
  end.

(** One byte per record, then the timestamp. *)
Definition serialize (records : list pyval) (timestamp : pyval) : string :=
  match timestamp with
  | PStr t => String.string_of_list_ascii (replicate (length records) "r"%char) +:+ "@" +:+ t
  | _ => "@"
  end.

Definition check_signature (key : option string) (serialized : string)
    (signature : pyval) : Result unit :=
  match getitem signature "signature" with
  | Ok (PStr "genuine") => Ok tt
  | Ok (PStr sig) => Raise (BadSignatureError sig)
  | _ => Raise (BadSignatureError "")
  end.

Definition environment (name : string) : option string :=
  if String.eqb name "REFRESH_SIGNATURE_AUTH" then Some "user:sec:ret" else None.

Definition collaborators (size : nat) : Collaborators nat := {|
  get_endpoint := endpoint;
  kinto_get_collection c w := (Ok (metadata (client_collection c)), w);
  kinto_get_records c _ w := (list_records size c, w);
  kinto_get_records_timestamp c target w := (Ok (live_timestamp c target), w);
  kinto_patch_collection c data w :=
    (Ok (PDict [("data", PDict [("id", PStr (client_collection c));
                                ("last_modified", PInt 600);
                                ("status", PStr "to-sign")])]), w);
  canonical_json records timestamp := Ok (serialize records timestamp);
  compute_hash serialized := Ok ("sha384:" +:+ serialized);
  tempfile_name w := (Ok ("/tmp/tmp" +:+ pretty w), S w);
  ecdsa_verify := check_signature;
  getenv name _ := environment name;
  str_container _ := "[...]";
  int_of_string _ := Raise (ValueError "invalid literal for int() with base 10");
  utc_strftime seconds _ := Ok (pretty seconds +:+ " s after the epoch")
|}.

(** The server with two records per collection. *)
Definition server : Collaborators nat := collaborators 2.

Definition url : string := "https://kinto.example".

Definition blocklist (cid : string) : collection_ref := CollectionRef "blocklists" cid.

Definition start : State nat :=
  MkState 0%nat ∅ [] [] None [] None true.

(** What the iteration of [addons] has fetched when it reaches the [try]. *)
Definition fetched_addons : fetched :=
  Fetched (metadata "addons")
          (replicate 2 (PDict [("id", PStr "r"); ("last_modified", PInt 42)]))
          (PStr "1006") "rr@1006" "sha384:rr@1006"
          (PDict [("signature", PStr "forged-addons");
                  ("public_key", PStr "PUBLIC KEY")]).

Definition on (cids : list string) : event :=
  Event (Some url) (Some (blocklist <$> cids)) None None.

End Toy.

(** ** More vocabulary *)

(** The one call that changes the remote server. *)
Definition is_write (c : Call) : bool :=
  match c with
  | PatchCollection _ _ => true
  | _ => false
  end.

(** The clients whose metadata a trace fetched, in order. *)
Definition queried (tr : list (Call * Result pyval)) : list Client :=
  omap (fun ev => match ev.1 with GetCollection c => Some c | _ => None end) tr.

(** ** [schema_updater] *)

(** [ref['collection']] *)
Definition collection_of (ref : collection_ref) : string := collection ref.

Definition SCHEMA_COLLECTIONS : list collection_ref :=
  [ CollectionRef "staging" "certificates";
    CollectionRef "staging" "addons";
    CollectionRef "staging" "plugins";
    CollectionRef "staging" "gfx" ].

(** What a library function that is handed [client.patch_collection] can
    do: return or raise, or call the function with some [data] and go on
    from its result.  It sees the world, not the locals of its caller. *)
Inductive Library (W : Type) : Type :=
| Return (r : Result unit) (w : W)
| Patch (w : W) (data : pyval) (k : Result pyval -> W -> Library W).
Arguments Return {W} r w.
Arguments Patch {W} w data k.

Class SchemaLibrary (W : Type) : Type := {
  (** [json.load(f)] for [f = codecs.open(path, 'r', encoding='utf-8')] *)
  json_load_file : string -> W -> Result pyval * W;
  (** [amo2kinto.kinto.update_schema_if_mandatory(response, config, patch)] *)
  update_schema_if_mandatory : pyval -> pyval -> W -> Library W
}.

Section Schema.
Context {W : Type} {collab : Collaborators W} {lib : SchemaLibrary W}.

(** The library function at work, with [client.patch_collection] as its
    third argument. *)
Fixpoint run_library (client : Client) (l : Library W) : M W unit :=
  match l with
  | Return r w => fun st => (r, set_world w st)
  | Patch w data k =>
      fun st =>
        match patch_collection client data (set_world w st) with
        | (r, st') => run_library client (k r (world st')) st'
        end
  end.

(** One iteration of the loop (lines 191-205). *)
Definition schema_collection (server_url : string) (auth : list string)
    (schemas : pyval) (collection : collection_ref) : M W unit :=
  let client := make_client server_url collection (Some auth) in
  print ["Checking at " +:+ get_endpoint client "collection" +:+ ": "] "";;
  (* 1. Grab collection information *)
  dest_col ← get_collection client;
  (* 2. Collection schema *)
  let collection_type := collection_of collection in
  entry ← lift (getitem schemas collection_type);
  config ← lift (getitem entry "config");
  (fun st => run_library client
               (update_schema_if_mandatory dest_col config (world st)) st);;
  print ["OK"] nl.

Definition schema_updater (ev : event) : M W unit :=
  server_url ← lift (event_server ev);
  credentials ← gets (fun st => getenv "AUTH" (world st));
  auth ← match credentials with
         | Some s => ret (str_split ":" 1 s)
         | None => raise (AttributeError
                            "'NoneType' object has no attribute 'split'")
         end;
  let collections := default SCHEMA_COLLECTIONS (ev_collections ev) in
  (* Open the file *)
  document ← (fun st => match json_load_file "schemas.json" (world st) with
                        | (r, w) => (r, set_world w st)
                        end);
  schemas ← lift (getitem document "collections");
  (* Check all collections *)
  for_each collections (schema_collection server_url auth schemas).

End Schema.

(** ** The publication lambdas: [blockpages_generator], [sync_to_s3],
    [invalidate_cache] *)

(** Calls to the page generator, the file system, S3 and CloudFront. *)
Inductive Op : Type :=
| Mkdtemp
| GeneratorMain (args : list pyval)
| IsDir (path : string)
| S3Resource (region_name : pyval)
| CreateBucket (bucket location : pyval)
| ListDir (path : string)
| OpenFile (path : string)
| PutObject (bucket : pyval) (key body content_type : string)
| Clock
| CloudfrontClient
| Uuid4
| CreateInvalidation (distribution_id batch : pyval).

(** The world of these lambdas: what is outside the process, and the
    calls made so far, oldest first, each with its result. *)
Record Outside (W : Type) : Type := MkOutside {
  outside : W;
  ops : list (Op * Result pyval)
}.
Arguments MkOutside {W}.
Arguments outside {W}.
Arguments ops {W}.

Class Publishing (W : Type) : Type := {
  (** [tempfile.mkdtemp()] *)
  mkdtemp : W -> Result string * W;
  (** [amo2kinto.generator.main(args)] *)
  generator_main : list pyval -> W -> Result unit * W;
  (** [os.path.isdir(path)] *)
  isdir : string -> W -> bool;
  (** [boto3.resource('s3', region_name=...)] *)
  boto3_resource : pyval -> W -> Result unit * W;
  (** [s3.create_bucket(Bucket=..., CreateBucketConfiguration=
      {'LocationConstraint': ...})] *)
  create_bucket : pyval -> pyval -> W -> Result unit * W;
  (** [isinstance(e, botocore.exceptions.ClientError)] *)
  is_ClientError : exn -> bool;
  (** [os.listdir(path)] *)
  listdir : string -> W -> Result (list string) * W;
  (** [os.path.join(a, b)] *)
  path_join : string -> string -> string;
  (** [open(path, 'rb')]; the result stands for the file object *)
  open_rb : string -> W -> Result string * W;
  (** [s3.Object(bucket, key).put(Body=..., ContentType=...)] *)
  put_object : pyval -> string -> string -> string -> W -> Result unit * W;
  (** [key.lower()] *)
  lower : string -> string;
  (** [repr] of a string, which is what [%r] renders *)
  repr : string -> string;
  (** [int(time.mktime(time.gmtime()))] *)
  clock : W -> Z * W;
  (** [boto3.client('cloudfront')] *)
  boto3_cloudfront : W -> Result unit * W;
  (** [str(uuid.uuid4())] *)
  uuid4 : W -> string * W;
  (** [client.create_invalidation(DistributionId=..., InvalidationBatch=...)] *)
  create_invalidation : pyval -> pyval -> W -> Result unit * W
}.

Definition BLOCKPAGES_ARGS : list string :=
  ["server"; "bucket"; "addons-collection"; "plugins-collection"].

Definition AWS_REGION : string := "eu-central-1".
Definition BUCKET_NAME : string := "amo-blocked-pages".

(** [v.items()] *)
Definition items (v : pyval) : Result (list (string * pyval)) :=
  match v with
  | PDict d => Ok d
  | _ => Raise (AttributeError
           ("'" +:+ type_name v +:+ "' object has no attribute 'items'"))
  end.

Section Publication.
Context {W : Type} {collab : Collaborators W} {pub : Publishing W}.

#[local] Abbreviation P := (M (Outside W)).

(** A call, recorded with its result. *)
Definition op {A} (o : Op) (to_py : A -> pyval) (call : W -> Result A * W) : P A :=
  fun st =>
    match call (outside (world st)) with
    | (r, w) =>
        (r, set_world (MkOutside w (ops (world st) ++ [(o, result_map to_py r)])) st)
    end.

(** [try: body / except <class>: handler], for the exceptions [catches]
    accepts. *)
Definition try_except {A} (body : P A) (catches : exn -> bool) (handler : exn -> P A)
    : P A :=
  fun st =>
    match body st with
    | (Ok a, st1) => (Ok a, st1)
    | (Raise e, st1) => if catches e then handler e st1 else (Raise e, st1)
    end.

(** One turn of the loop of [sync_to_s3] (lines 260-264). *)
Definition upload (target_dir : string) (aws_region bucket_name : pyval)
    (filename : string) : P unit :=
  print ["Uploading " +:+ filename +:+ " to Amazon S3 bucket " +:+ str bucket_name] nl;;
  body ← op (OpenFile (path_join target_dir filename)) PStr
            (open_rb (path_join target_dir filename));
  op (PutObject bucket_name filename body "text/html") (fun _ => PNone)
     (put_object bucket_name filename body "text/html");;
  print ["File uploaded to https://s3." +:+ str aws_region +:+ ".amazonaws.com/"
         +:+ str bucket_name +:+ "/" +:+ filename] nl.

(** The loop of [sync_to_s3] (lines 259-264). *)
Definition upload_files (target_dir : string) (aws_region bucket_name : pyval)
    : P unit :=
  filenames ← op (ListDir target_dir) (fun l => PList (PStr <$> l)) (listdir target_dir);
  for_each filenames (upload target_dir aws_region bucket_name).

Definition sync_to_s3 (target_dir : string) (aws_region bucket_name : pyval) : P unit :=
  found ← op (IsDir target_dir) PBool (fun w => (Ok (isdir target_dir w), w));
  if negb found then
    raise (ValueError ("target_dir " +:+ repr target_dir +:+ " not found."))
  else
    op (S3Resource aws_region) (fun _ => PNone) (boto3_resource aws_region);;
    try_except
      (op (CreateBucket bucket_name aws_region) (fun _ => PNone)
          (create_bucket bucket_name aws_region))
      is_ClientError
      (fun _ => ret tt);;
    upload_files target_dir aws_region bucket_name.

(** One turn of the loop over [event.items()] (lines 225-230), on the pair
    of [args] and [kwargs]. *)
Definition blockpages_item (acc : list pyval * gmap string pyval)
    (item : string * pyval) : list pyval * gmap string pyval :=
  let '(args, kwargs) := acc in
  let '(key, value) := item in
  if bool_decide (key ∈ BLOCKPAGES_ARGS) then
    (args ++ [PStr ("--" +:+ key); value], kwargs)
  else if bool_decide (lower key ∈ ["aws_region"; "bucket_name"]) then
    (args, <[lower key := value]> kwargs)
  else (args, kwargs).

(** [sync_to_s3(target_dir, **kwargs)]: a keyword the function does not
    have is a [TypeError]. *)
Definition sync_to_s3_kwargs (target_dir : string) (kwargs : gmap string pyval)
    : P unit :=
  if bool_decide (dom kwargs ⊆ ({["aws_region"; "bucket_name"]} : gset string)) then
    sync_to_s3 target_dir
      (default (PStr AWS_REGION) (kwargs !! "aws_region"))
      (default (PStr BUCKET_NAME) (kwargs !! "bucket_name"))
  else
    raise (TypeError "sync_to_s3() got an unexpected keyword argument").

Definition blockpages_generator (ev : pyval) : P unit :=
  pairs ← lift (items ev);
  let '(args, kwargs) := foldl blockpages_item ([], ∅) pairs in
  (* In lambda we can only write in the temporary filesystem. *)
  target_dir ← op Mkdtemp PStr mkdtemp;
  let args := args ++ [PStr "--target-dir"; PStr target_dir] in
  print ["Blocked pages generator args"; str (PList args)] nl;;
  op (GeneratorMain args) (fun _ => PNone) (generator_main args);;
  print ["Send results to s3"; str (PList args)] nl;;
  sync_to_s3_kwargs target_dir kwargs.

Definition invalidate_cache (ev : pyval) : P unit :=
  distribution_id ← lift (getitem ev "distribution_id");
  timestamp ← op Clock PInt (fun w => let '(t, w') := clock w in (Ok t, w'));
  (* Create a boto client *)
  op CloudfrontClient (fun _ => PNone) boto3_cloudfront;;
  reference ← op Uuid4 PStr (fun w => let '(u, w') := uuid4 w in (Ok u, w'));
  let batch :=
    PDict [("Paths", PDict [("Quantity", PInt 1); ("Items", PList [PStr "/v1/*"])]);
           ("CallerReference", PStr (pretty timestamp +:+ "-" +:+ reference))] in
  op (CreateInvalidation distribution_id batch) (fun _ => PNone)
     (create_invalidation distribution_id batch).

End Publication.

Section PublicationVocabulary.
Context {W : Type} {collab : Collaborators W} {pub : Publishing W}.

(** The options of the generator that an event holds, in its order. *)
Definition generator_options (pairs : list (string * pyval)) : list pyval :=
  pairs ≫= fun item =>
    if bool_decide (item.1 ∈ BLOCKPAGES_ARGS) then [PStr ("--" +:+ item.1); item.2]
    else [].

(** The value an event gives for a keyword of [sync_to_s3]: that of the
    last key which is no option of the generator and which [name] is the
    lower case of. *)
Definition keyword (name : string) (pairs : list (string * pyval)) : option pyval :=
  last (omap (fun item =>
                if bool_decide (item.1 ∈ BLOCKPAGES_ARGS) then None
                else if bool_decide (lower item.1 = name) then Some item.2
                else None) pairs).

(** The two calls that upload a file, and the two lines printed for it. *)
Definition upload_ops (target_dir : string) (bucket_name : pyval)
    (filename body : string) : list (Op * Result pyval) :=
  [ (OpenFile (path_join target_dir filename), Ok (PStr body));
    (PutObject bucket_name filename body "text/html", Ok PNone) ].

Definition upload_lines (aws_region bucket_name : pyval) (filename : string)
    : list string :=
  [ "Uploading " +:+ filename +:+ " to Amazon S3 bucket " +:+ str bucket_name +:+ nl;
    "File uploaded to https://s3." +:+ str aws_region +:+ ".amazonaws.com/"
      +:+ str bucket_name +:+ "/" +:+ filename +:+ nl ].

(** A call that [sync_to_s3] may make for a directory that lists
    [files]. *)
Definition sync_op (target_dir : string) (aws_region bucket_name : pyval)
    (files : list string) (o : Op) : Prop :=
  match o with
  | IsDir path | ListDir path => path = target_dir
  | S3Resource region_name => region_name = aws_region
  | CreateBucket bucket location => bucket = bucket_name /\ location = aws_region
  | OpenFile path => exists filename, filename ∈ files /\ path = path_join target_dir filename
  | PutObject bucket key _ content_type =>
      bucket = bucket_name /\ key ∈ files /\ content_type = "text/html"
  | _ => False
  end.

(** The batch of [invalidate_cache]. *)
Definition invalidation_batch (timestamp : Z) (reference : string) : pyval :=
  PDict [("Paths", PDict [("Quantity", PInt 1); ("Items", PList [PStr "/v1/*"])]);
         ("CallerReference", PStr (pretty timestamp +:+ "-" +:+ reference))].

End PublicationVocabulary.

(** [key] is the first of the three keys that the registry entry lacks,
    with the exception its lookup raises. *)
Definition entry_error (entry : pyval) : option exn :=
  match getitem entry "bucket" with
  | Raise e => Some e
  | Ok _ =>
      match getitem entry "collection" with
      | Raise e => Some e
      | Ok _ =>
          match getitem entry "last_modified" with
          | Raise e => Some e
          | Ok _ => None
          end
      end
  end.

Section MoreVocabulary.
Context {W : Type} {collab : Collaborators W}.

(** The live timestamp of the collection that [entry] names can be read,
    whenever it is asked for. *)
Definition timestamp_readable (client : Client) (entry : pyval) : Prop :=
  forall w : W, exists etag w',
    kinto_get_records_timestamp client
      (Some (field entry "bucket", field entry "collection")) w = (Ok etag, w').

(** The check of [entry] ends with [e], and [failed] holds the call that
    raised: none when the entry lacks one of its keys, and otherwise the
    reading of the live timestamp, which raises [e] whenever it is asked
    for. *)
Definition entry_stops (client : Client) (entry : pyval) (e : exn)
    (failed : list (Call * Result pyval)) : Prop :=
  let target := Some (field entry "bucket", field entry "collection") in
  entry_error entry = Some e /\ failed = [] \/
  well_formed_entry entry /\
  failed = [(GetRecordsTimestamp client target, Raise e)] /\
  forall w : W, exists w', kinto_get_records_timestamp client target w = (Raise e, w').

(** [f] is unbound, or bound to a file that no longer exists. *)
Definition key_file_gone (st : State W) : Prop :=
  match f st with
  | Some name => fs st !! name = None
  | None => True
  end.

(** What [refresh_signature] makes of the response to its patch: the date
    of its [last_modified]. *)
Definition patch_report (new : pyval) : Result string :=
  match getitem new "data" with
  | Ok new_data =>
      match getitem new_data "last_modified" with
      | Ok last_modified => timestamp_to_date last_modified
      | Raise e => Raise e
      end
  | Raise e => Raise e
  end.

(** The configuration [schema_updater] reads for a collection:
    [schemas[collection]['config']]. *)
Definition collection_config (schemas : pyval) (c : collection_ref) : Result pyval :=
  match getitem schemas (collection_of c) with
  | Ok entry => getitem entry "config"
  | Raise e => Raise e
  end.

End MoreVocabulary.

(** ** Variants of the small server, and a small depot *)
Module Depot.

(** The small server, except that a temporary file can be created only
    while fewer than [quota] exist, and that a patch is answered with
    [response]. *)
Definition faulty (quota : nat) (response : pyval) : Collaborators nat := {|
  get_endpoint := Toy.endpoint;
  kinto_get_collection c w := (Ok (Toy.metadata (client_collection c)), w);
  kinto_get_records c _ w := (Toy.list_records 2 c, w);
  kinto_get_records_timestamp c target w := (Ok (Toy.live_timestamp c target), w);
  kinto_patch_collection c data w := (Ok response, w);
  canonical_json records timestamp := Ok (Toy.serialize records timestamp);
  compute_hash serialized := Ok ("sha384:" +:+ serialized);
  tempfile_name w :=
    if (w <? quota)%nat then (Ok ("/tmp/tmp" +:+ pretty w), S w)
    else (Raise (Exn "OSError" "[Errno 28] No space left on device" true), w);
  ecdsa_verify := Toy.check_signature;
  getenv name _ := if String.eqb name "AUTH" then Some "admin:s3cr3t"
                   else Toy.environment name;
  str_container v := match v with PList l => "[" +:+ pretty (length l) +:+ " items]"
                             | _ => "{...}" end;
  int_of_string _ := Raise (ValueError "invalid literal for int() with base 10");
  utc_strftime seconds _ := Ok (pretty seconds +:+ " s after the epoch")
|}.

(** A response to a patch whose [last_modified] is not a number. *)
Definition odd_response : pyval :=
  PDict [("data", PDict [("status", PStr "to-sign"); ("last_modified", PNone)])].

(** A registry whose second entry has lost its [last_modified], and one
    whose second entry names a collection that cannot be reached. *)
Definition damaged_registry : list pyval :=
  [ PDict [("bucket", PStr "blocklists"); ("collection", PStr "certificates");
           ("last_modified", PInt 100)];
    PDict [("bucket", PStr "blocklists"); ("collection", PStr "addons")];
    PDict [("bucket", PStr "blocklists"); ("collection", PStr "gfx");
           ("last_modified", PInt 100)] ].

Definition unreachable_registry : list pyval :=
  [ PDict [("bucket", PStr "blocklists"); ("collection", PStr "certificates");
           ("last_modified", PInt 100)];
    PDict [("bucket", PStr "blocklists"); ("collection", PStr "gfx");
           ("last_modified", PInt 100)];
    PDict [("bucket", PStr "blocklists"); ("collection", PStr "addons");
           ("last_modified", PInt 100)] ].

(** The small server with those registries, the first under [changes]
    and the second under any other name; the timestamp of [gfx] cannot be
    read. *)
Definition damaged : Collaborators nat := {|
  get_endpoint := Toy.endpoint;
  kinto_get_collection c w := (Ok (Toy.metadata (client_collection c)), w);
  kinto_get_records c _ w :=
    (Ok (if String.eqb (client_collection c) "changes" then damaged_registry
         else unreachable_registry), w);
  kinto_get_records_timestamp c target w :=
    match target with
    | Some (_, cid) =>
        if eq_str cid "gfx" then (Raise Toy.ServerError, w)
        else (Ok (Toy.live_timestamp c target), w)
    | None => (Ok (Toy.live_timestamp c target), w)
    end;
  kinto_patch_collection c data w := (Ok odd_response, w);
  canonical_json records timestamp := Ok (Toy.serialize records timestamp);
  compute_hash serialized := Ok ("sha384:" +:+ serialized);
  tempfile_name w := (Ok ("/tmp/tmp" +:+ pretty w), S w);
  ecdsa_verify := Toy.check_signature;
  getenv name _ := Toy.environment name;
  str_container _ := "[...]";
  int_of_string _ := Raise (ValueError "invalid literal for int() with base 10");
  utc_strftime seconds _ := Ok (pretty seconds +:+ " s after the epoch")
|}.

(** [schemas.json]: a configuration for [certificates] and for [addons]. *)
Definition configurations : pyval :=
  PDict [("certificates", PDict [("config", PDict [("schema", PStr "certificates-v2")])]);
         ("addons", PDict [("config", PDict [("schema", PStr "addons-v2")])])].

Definition schemas_json : pyval := PDict [("collections", configurations)].

(** The library patches a collection that has no schema yet. *)
Definition schema_library : SchemaLibrary nat := {|
  json_load_file path w :=
    if String.eqb path "schemas.json" then (Ok schemas_json, w)
    else (Raise (Exn "IOError" "[Errno 2] No such file or directory" true), w);
  update_schema_if_mandatory response config w :=
    match getitem (field response "data") "schema" with
    | Ok _ => Return (Ok tt) w
    | Raise _ => Patch w config (fun r w' => Return (result_map (fun _ => tt) r) w')
    end
|}.

Definition staging (cid : string) : collection_ref := CollectionRef "staging" cid.

Definition to_lower (a : ascii) : ascii :=
  let n := nat_of_ascii a in
  if ((65 <=? n) && (n <=? 90))%nat then ascii_of_nat (n + 32) else a.

Fixpoint lowercase (s : string) : string :=
  match s with
  | "" => ""
  | String a s' => String (to_lower a) (lowercase s')
  end.

Definition BucketAlreadyOwnedByYou : exn :=
  Exn "ClientError" "An error occurred (BucketAlreadyOwnedByYou)" true.
Definition EndpointConnectionError : exn :=
  Exn "EndpointConnectionError" "Could not connect to the endpoint URL" true.
Definition GeneratorError : exn := Exn "KintoException" "503 - Service Unavailable" true.

(** The directory ["/tmp/pages"] holds two pages; the bucket
    ["amo-blocked-pages"] exists already, the region ["mars-1"] cannot be
    reached, and the bucket ["read-only"] takes no object. *)
Definition publishing : Publishing nat := {|
  mkdtemp w := (Ok "/tmp/pages", w);
  generator_main args w :=
    match args with
    | option :: value :: _ =>
        if eq_str option "--server" && eq_str value "down"
        then (Raise GeneratorError, w) else (Ok tt, w)
    | _ => (Ok tt, w)
    end;
  isdir path w := String.eqb path "/tmp/pages";
  boto3_resource region w := (Ok tt, w);
  create_bucket bucket location w :=
    if eq_str location "mars-1" then (Raise EndpointConnectionError, w)
    else if eq_str bucket "amo-blocked-pages" then (Raise BucketAlreadyOwnedByYou, w)
    else (Ok tt, w);
  is_ClientError e := String.eqb (exn_class e) "ClientError";
  listdir path w := (Ok ["addons.html"; "plugins.html"], w);
  path_join a b := a +:+ "/" +:+ b;
  open_rb path w := (Ok path, w);
  put_object bucket key body content_type w :=
    if eq_str bucket "read-only"
    then (Raise (Exn "ClientError" "An error occurred (AccessDenied)" true), w)
    else (Ok tt, S w);
  lower := lowercase;
  repr s := "'" +:+ s +:+ "'";
  clock w := (1500000000, w);
  boto3_cloudfront w := (Ok tt, w);
  uuid4 w := ("uuid-" +:+ pretty w, w);
  create_invalidation distribution batch w := (Ok tt, S w)
|}.

Definition start : State (Outside nat) :=
  MkState (MkOutside 0%nat []) ∅ [] [] None [] None true.

End Depot.

(** * Properties *)

Section Theory.
Context {W : Type} {collab : Collaborators W}.

#[local] Abbreviation St := (State W).

Ltac unfold_monad :=
  unfold mbind, M_bind, mret, M_ret, bind, ret, raise, lift, modify, gets in *.

(** Closes a goal about a run that has been reduced to its end state. *)
Ltac finish :=
  intros [= <- <-]; simpl; rewrite <- ?(assoc_L (++)); simpl;
  repeat split; intros; simplify_eq/=; eauto.

(** Closes a goal about the calls a run has appended to the trace. *)
Ltac trace_done :=
  intros [= <- <-]; simpl; rewrite <- ?(assoc_L (++)); simpl;
  eexists; (split; [done|]); set_solver.

(** ** Results of a run *)

Lemma run_returns {A} (m : M W A) (st : St) (a : A) :
  (m st).1 = Ok a -> exists st', m st = (Ok a, st').
Proof. destruct (m st) as [r st']. simpl. intros ->. by exists st'. Qed.

Lemma run_raises {A} (m : M W A) (st : St) (e : exn) :
  (m st).1 = Raise e -> exists st', m st = (Raise e, st').
Proof. destruct (m st) as [r st']. simpl. intros ->. by exists st'. Qed.

Lemma run_result {A} (m : M W A) (st : St) (r : Result A) :
  (m st).1 = r -> m st = (r, (m st).2).
Proof. destruct (m st) as [r' st']. simpl. by intros ->. Qed.

Lemma run_succeeds {A} (m : M W A) (st : St) :
  (exists a, (m st).1 = Ok a) -> exists a st', m st = (Ok a, st').
Proof. intros [a Ha]. exists a. by apply run_returns. Qed.

(** ** The loop *)

Lemma for_each_cons_ok {A} (body : A -> M W unit) x l (st st' : St) :
  body x st = (Ok tt, st') ->
  for_each (x :: l) body st = for_each l body st'.
Proof. intros Hx. simpl. unfold_monad. by rewrite Hx. Qed.

Lemma for_each_cons_raise {A} (body : A -> M W unit) x l e (st st' : St) :
  body x st = (Raise e, st') ->
  for_each (x :: l) body st = (Raise e, st').
Proof. intros Hx. simpl. unfold_monad. by rewrite Hx. Qed.

Lemma for_each_app {A} (body : A -> M W unit) l1 l2 (st : St) :
  for_each (l1 ++ l2) body st =
  match for_each l1 body st with
  | (Ok _, st') => for_each l2 body st'
  | (Raise e, st') => (Raise e, st')
  end.
Proof.
  revert st. induction l1 as [|x l1 IH]; intros st; [done|].
  simpl. unfold_monad. destruct (body x st) as [[[]|e] st1]; [apply IH|done].
Qed.

(** ** The key file *)

Lemma verify_finally_spec (st : St) :
  verify_finally st =
  match f st with
  | Some name =>
      match fs st !! name with
      | Some _ => (Ok tt, set_fs (delete name (fs st)) st)
      | None => (Raise (FileNotFoundError name), st)
      end
  | None => (Raise (UnboundLocalError "f"), st)
  end.
Proof. unfold verify_finally, unlink. unfold_monad. by destruct (f st). Qed.

Lemma verify_except_spec (x : fetched) (e : exn) (st : St) :
  verify_except x e st =
  (Ok tt,
   set_messages (messages st ++ failure_message x)
     (set_stdout (stdout st ++ [String.concat " " [String.concat nl (failure_message x)] +:+ nl])
        (set_exception (Some e) st))).
Proof. reflexivity. Qed.

(** What the body of the [try] leaves behind, whatever its result. *)
Lemma verify_try_inv (x : fetched) (st st1 : St) (r : Result unit) :
  verify_try x st = (r, st1) ->
  exception st1 = exception st /\
  messages st1 = messages st ++ match r with Ok _ => ["Signature OK"] | Raise _ => [] end /\
  (exists tr, trace st1 = trace st ++ tr) /\
  match tempfile_name (world st) with
  | (Ok name, w) =>
      f st1 = Some name /\ exists data, fs st1 = <[name := data]> (fs st)
  | (Raise e, w) => f st1 = f st /\ fs st1 = fs st /\ r = Raise e
  end.
Proof.
  unfold verify_try, named_temporary_file, call_world, file_write, file_close,
    signer_verify, call_pure, print.
  unfold_monad.
  destruct (tempfile_name (world st)) as [[name|e] w]; simpl;
    repeat case_match; intros [= <- <-]; simpl;
    rewrite ?app_nil_r, <- ?(assoc_L (++));
    repeat split; eauto; eexists; apply insert_insert_eq.
Qed.

(** The outcome of the whole [try] statement once the key file has been
    created: the handler runs on an [Exception], and the file is removed
    in every case. *)
Lemma validate_verify_staged (x : fetched) (st st1 : St) name w r :
  tempfile_name (world st) = (Ok name, w) ->
  verify_try x st = (r, st1) ->
  validate_verify x st =
  match r with
  | Ok _ => (Ok tt, set_fs (delete name (fs st1)) st1)
  | Raise e =>
      if exn_is_Exception e
      then (Ok tt, set_fs (delete name (fs st1)) (verify_except x e st1).2)
      else (Raise e, set_fs (delete name (fs st1)) st1)
  end.
Proof.
  intros Hname Htry.
  destruct (verify_try_inv _ _ _ _ Htry) as (_ & _ & _ & Hf).
  rewrite Hname in Hf. destruct Hf as (Hf & data & Hfs).
  unfold validate_verify, try_except_finally. rewrite Htry.
  destruct r as [[]|e]; [|destruct (exn_is_Exception e)];
    rewrite ?verify_except_spec, verify_finally_spec; simpl;
    rewrite Hf, Hfs, lookup_insert_eq; done.
Qed.

(** When no file could be created, [f] still names whatever an earlier
    iteration bound it to, and the [finally] clause acts on that. *)
Lemma validate_verify_fs (x : fetched) (st : St) :
  dom (fs (validate_verify x st).2) ⊆ dom (fs st).
Proof.
  destruct (verify_try x st) as [r st1] eqn:Htry.
  destruct (tempfile_name (world st)) as [[name|e0] w] eqn:Hname.
  - rewrite (validate_verify_staged _ _ _ _ _ _ Hname Htry).
    destruct (verify_try_inv _ _ _ _ Htry) as (_ & _ & _ & Hf).
    rewrite Hname in Hf. destruct Hf as (_ & data & Hfs).
    destruct r as [[]|e]; [|destruct (exn_is_Exception e)]; simpl;
      rewrite Hfs, delete_insert_eq; apply subseteq_dom, delete_subseteq.
  - destruct (verify_try_inv _ _ _ _ Htry) as (_ & _ & _ & Hf).
    rewrite Hname in Hf. destruct Hf as (Hf & Hfs & ->).
    unfold validate_verify, try_except_finally. rewrite Htry.
    destruct (exn_is_Exception e0);
      rewrite ?verify_except_spec, verify_finally_spec; simpl;
      rewrite Hf, Hfs;
      (destruct (f st) as [n|]; [destruct (fs st !! n)|]); simpl;
      rewrite ?Hfs; try done; apply subseteq_dom, delete_subseteq.
Qed.

(** ** Steps 1 to 5 *)

Lemma validate_fetch_inv s c (st st1 : St) (r : Result fetched) :
  validate_fetch s c st = (r, st1) ->
  fs st1 = fs st /\ f st1 = f st /\ exception st1 = exception st /\
  messages st1 = messages st ++ [looking_at s c] /\
  (exists r0 tr, trace st1 = trace st ++ (GetCollection (make_client s c None), r0) :: tr) /\
  (forall x, r = Ok x ->
     trace st1 = trace st ++ fetch_trace (make_client s c None) x /\
     canonical_json (records x) (timestamp x) = Ok (serialized x) /\
     compute_hash (serialized x) = Ok (computed_hash x)).
Proof.
  unfold validate_fetch, get_collection, get_records, get_records_timestamp,
    call_world, call_pure, print, looking_at, fetch_trace.
  unfold_monad. simpl.
  destruct (kinto_get_collection _ _) as [[v|e1] w1]; simpl; [|finish].
  destruct (kinto_get_records _ _ _) as [[recs|e2] w2]; simpl; [|finish].
  destruct (kinto_get_records_timestamp _ _ _) as [[ts|e3] w3]; simpl; [|finish].
  destruct (canonical_json recs ts) as [ser|e4] eqn:Hser; simpl; [|finish].
  destruct (compute_hash ser) as [h|e5] eqn:Hh; simpl; [|finish].
  destruct (getitem v "data") as [d|e6]; simpl; [|finish].
  destruct (getitem d "signature") as [sg|e7]; simpl; finish.
Qed.

(** ** One iteration *)

Lemma getitem_catchable v key e :
  getitem v key = Raise e -> exn_is_Exception e = true.
Proof. destruct v; simpl; repeat case_match; by intros [= <-]. Qed.

Lemma encode_catchable v e : encode v = Raise e -> exn_is_Exception e = true.
Proof. destruct v; simpl; by intros [= <-]. Qed.

Lemma verify_try_catchable (x : fetched) (st st1 : St) e :
  stages -> verifier_raises_Exception ->
  verify_try x st = (Raise e, st1) -> exn_is_Exception e = true.
Proof.
  intros Hstage Hver.
  unfold verify_try, named_temporary_file, call_world, file_write, file_close,
    signer_verify, call_pure, print.
  unfold_monad.
  destruct (Hstage (world st)) as (name & w & ->); simpl.
  destruct (getitem _ _) as [key|e1] eqn:Hkey; simpl.
  2:{ intros [= <- <-]. eauto using getitem_catchable. }
  destruct (encode key) as [data|e2] eqn:Hdata; simpl.
  2:{ intros [= <- <-]. eauto using encode_catchable. }
  destruct (ecdsa_verify _ _ _) as [[]|e3] eqn:Hv; simpl; [done|].
  intros [= <- <-]. eauto.
Qed.

Lemma validate_collection_raise s c (st st1 : St) e :
  validate_fetch s c st = (Raise e, st1) ->
  validate_collection s c st = (Raise e, st1).
Proof. intros Hf. unfold validate_collection. unfold_monad. by rewrite Hf. Qed.

(** An iteration whose fetches succeed runs to its end, whatever the
    verification does, and leaves a pass or a fail entry. *)
Lemma validate_collection_iteration s c (st st1 : St) x :
  stages -> verifier_raises_Exception ->
  validate_fetch s c st = (Ok x, st1) ->
  exists r st2 st3,
    verify_try x st1 = (r, st2) /\
    validate_collection s c st = (Ok tt, st3) /\
    messages st3 = messages st ++ looking_at s c ::
      match r with Ok _ => ["Signature OK"] | Raise _ => failure_message x end /\
    exception st3 = match r with Ok _ => exception st | Raise e => Some e end /\
    exists tr, trace st3 = trace st ++ fetch_trace (make_client s c None) x ++ tr.
Proof.
  intros Hstage Hver Hfetch.
  destruct (verify_try x st1) as [r st2] eqn:Htry. exists r, st2.
  destruct (Hstage (world st1)) as (name & w & Hname).
  pose proof (validate_verify_staged _ _ _ _ _ _ Hname Htry) as Hrun.
  destruct (validate_fetch_inv _ _ _ _ _ Hfetch)
    as (_ & _ & Hexc & Hmsg & _ & Htr).
  destruct (Htr x eq_refl) as (Htr1 & _).
  destruct (verify_try_inv _ _ _ _ Htry) as (Hexc2 & Hmsg2 & (tr & Htr2) & _).
  unfold validate_collection. unfold_monad. rewrite Hfetch, Hrun.
  destruct r as [[]|e].
  - eexists; split; [done|]; split; [done|]; simpl.
    rewrite Hmsg2, Hmsg, Hexc2, Hexc, Htr2, Htr1, <- !(assoc_L (++)). eauto.
  - rewrite (verify_try_catchable _ _ _ _ Hstage Hver Htry).
    eexists; split; [done|]; split; [done|]; simpl.
    rewrite Hmsg2, Hmsg, Htr2, Htr1, app_nil_r, <- !(assoc_L (++)). eauto.
Qed.

(** ** Strings *)

Lemma append_assoc (a b c : string) : (a +:+ b) +:+ c = a +:+ b +:+ c.
Proof. induction a as [|x a IH]; [done|]. change (String x ((a +:+ b) +:+ c) = String x (a +:+ b +:+ c)). by rewrite IH. Qed.

Lemma append_nil_r (a : string) : a +:+ "" = a.
Proof. induction a as [|x a IH]; [done|]. change (String x (a +:+ "") = String x a). by rewrite IH. Qed.

Lemma length_append (a b : string) :
  String.length (a +:+ b) = (String.length a + String.length b)%nat.
Proof. induction a as [|x a IH]; [done|]. change (S (String.length (a +:+ b)) = S (String.length a + String.length b)). by rewrite IH. Qed.

Lemma substring_refl s : substring s s.
Proof. exists "", "". by rewrite append_nil_r. Qed.

Lemma substring_append_l s t a : substring s t -> substring s (a +:+ t).
Proof. intros (b & c & ->). exists (a +:+ b), c. by rewrite append_assoc. Qed.

Lemma substring_append_r s t a : substring s t -> substring s (t +:+ a).
Proof. intros (b & c & ->). exists b, (c +:+ a). by rewrite !append_assoc. Qed.

Lemma substring_trans s t u : substring s t -> substring t u -> substring s u.
Proof.
  intros Hst (b & c & ->). by apply substring_append_l, substring_append_r.
Qed.

(** A line of a list occurs in the list joined by any separator. *)
Lemma substring_concat sep x (l : list string) :
  x ∈ l -> substring x (String.concat sep l).
Proof.
  induction l as [|y l IH]; [by intros ?%elem_of_nil|].
  intros [->|Hin]%elem_of_cons; destruct l as [|z l]; simpl.
  - apply substring_refl.
  - apply substring_append_r, substring_refl.
  - by apply elem_of_nil in Hin.
  - by apply substring_append_l, substring_append_l, IH.
Qed.

(** ** The whole loop *)

Lemma occurs_app_l {A} (evs tr tr' : list A) : occurs evs tr -> occurs evs (tr ++ tr').
Proof. intros (b & a & ->). exists b, (a ++ tr'). by rewrite <- !(assoc_L (++)). Qed.

Lemma occurs_app_r {A} (evs tr tr' : list A) : occurs evs tr -> occurs evs (tr' ++ tr).
Proof. intros (b & a & ->). exists (tr' ++ b), a. by rewrite <- !(assoc_L (++)). Qed.

(** When every fetch succeeds and a file can always be created, the loop
    reaches its end: each collection is queried and leaves its entry. *)
Lemma validate_loop_runs s cs :
  stages -> verifier_raises_Exception -> Forall (fetches s) cs ->
  forall st : St, exists st' tr ms,
    for_each cs (validate_collection s) st = (Ok tt, st') /\
    trace st' = trace st ++ tr /\
    messages st' = messages st ++ ms /\
    (is_Some (exception st) -> is_Some (exception st')) /\
    (forall c, c ∈ cs ->
       looking_at s c ∈ ms /\
       exists r, (GetCollection (make_client s c None), r) ∈ tr) /\
    (forall c e, c ∈ cs -> rejects s c e ->
       is_Some (exception st') /\
       exists x, occurs (fetch_trace (make_client s c None) x) tr /\
                 failure_message x ⊆ ms).
Proof.
  intros Hstage Hver. induction 1 as [|c cs Hc _ IH]; intros st.
  { exists st, [], []. rewrite !app_nil_r. do 4 (split; [done|]).
    split; [intros c Hc|intros c e Hc]; by apply elem_of_nil in Hc. }
  destruct (Hc st) as (x & st1 & Hfetch).
  destruct (validate_collection_iteration _ _ _ _ _ Hstage Hver Hfetch)
    as (r & st2 & st3 & Htry & Hrun & Hmsg & Hexc & tr0 & Htr).
  destruct (IH st3) as (st' & tr & ms & Hloop & Htr' & Hmsg' & Hexc' & Hall & Hrej).
  exists st', ((fetch_trace (make_client s c None) x ++ tr0) ++ tr),
    ((looking_at s c ::
        match r with Ok _ => ["Signature OK"] | Raise _ => failure_message x end) ++ ms).
  split; [by rewrite (for_each_cons_ok _ _ _ _ _ Hrun)|].
  split; [by rewrite Htr', Htr, <- !(assoc_L (++))|].
  split; [by rewrite Hmsg', Hmsg, <- !(assoc_L (++))|].
  split; [|split].
  - intros Hsome. apply Hexc'. rewrite Hexc. by destruct r.
  - intros c' [->|Hin]%elem_of_cons.
    + split; [set_solver|]. exists (Ok (dest_col x)). set_solver.
    + destruct (Hall c' Hin) as (? & r' & ?). split; [set_solver|].
      exists r'. set_solver.
  - intros c' e [->|Hin]%elem_of_cons Hreject.
    + destruct (Hreject _ _ _ Hfetch) as (st2' & Htry').
      rewrite Htry in Htry'. injection Htry' as -> _.
      split; [apply Hexc'; by rewrite Hexc|].
      exists x. split; [|set_solver].
      apply occurs_app_l, occurs_app_l. exists [], []. by rewrite app_nil_r.
    + destruct (Hrej c' e Hin Hreject) as (? & x' & ? & ?).
      split; [done|]. exists x'. split; [by apply occurs_app_r|set_solver].
Qed.

Lemma validate_signature_unfold (ev : event) s (st0 : St) :
  event_server ev = Ok s ->
  validate_signature ev st0 =
  match for_each (default DEFAULT_COLLECTIONS (ev_collections ev))
                 (validate_collection s) (validate_start st0) with
  | (Ok _, st') => validate_report st'
  | (Raise e, st') => (Raise e, st')
  end.
Proof.
  intros Hs. unfold validate_signature, validate_start. unfold_monad.
  by rewrite Hs.
Qed.

Lemma validate_report_spec (st : St) :
  validate_report st =
  match exception st with
  | Some e =>
      (Raise (ValidationError
                (exn_str e +:+ ":" +:+ nl +:+ String.concat nl (messages st))), st)
  | None => (Ok tt, st)
  end.
Proof. unfold validate_report. unfold_monad. by destruct (exception st). Qed.

(** C2, as the code has it: in a run whose only failures are failures of
    the verification (the steps before the [try] succeed for every
    collection, a key file can be created, and what the verifier raises
    derives from [Exception]), when at least one collection's
    verification fails the run queries every collection of the list and
    raises a [ValidationError] whose message contains, for every collection
    whose verification fails, the digest and the timestamp computed in that
    collection's iteration.  When one of the steps before the [try] raises
    for a collection, the run ends with that exception instead: the
    collections after it are not looked at, and what failed before it
    stays pending and is not reported. *)
Theorem validate_signature_reports_every_failure (ev : event) s (st0 : St) :
  event_server ev = Ok s ->
  (stages -> verifier_raises_Exception ->
   Forall (fetches s) (default DEFAULT_COLLECTIONS (ev_collections ev)) ->
   (exists c e, c ∈ default DEFAULT_COLLECTIONS (ev_collections ev) /\ rejects s c e) ->
   exists msg st' tr,
     validate_signature ev st0 = (Raise (ValidationError msg), st') /\
     trace st' = trace st0 ++ tr /\
     (forall c, c ∈ default DEFAULT_COLLECTIONS (ev_collections ev) ->
        exists r, (GetCollection (make_client s c None), r) ∈ tr) /\
     (forall c e, c ∈ default DEFAULT_COLLECTIONS (ev_collections ev) ->
        rejects s c e ->
        exists x, occurs (fetch_trace (make_client s c None) x) tr /\
                  substring (computed_hash x) msg /\
                  substring (str (timestamp x)) msg)) /\
  (forall cs1 c cs2 (st1 st2 : St) e,
     default DEFAULT_COLLECTIONS (ev_collections ev) = cs1 ++ c :: cs2 ->
     for_each cs1 (validate_collection s) (validate_start st0) = (Ok tt, st1) ->
     validate_fetch s c st1 = (Raise e, st2) ->
     validate_signature ev st0 = (Raise e, st2) /\
     exception st2 = exception st1 /\
     messages st2 = messages st1 ++ [looking_at s c]).
Proof.
  intros Hs. split.
  - intros Hstage Hver Hfetch (c0 & e0 & Hin0 & Hrej0).
    destruct (validate_loop_runs s _ Hstage Hver Hfetch (validate_start st0))
      as (st' & tr & ms & Hloop & Htr & Hmsg & _ & Hall & Hrej).
    destruct (Hrej c0 e0 Hin0 Hrej0) as ([e He] & _).
    rewrite (validate_signature_unfold _ _ _ Hs), Hloop, validate_report_spec, He.
    simpl in Hmsg. eexists _, st', tr. split; [done|]. split; [done|]. split.
    + intros c Hc. by destruct (Hall c Hc) as (_ & ?).
    + intros c e' Hc Hreject.
      destruct (Hrej c e' Hc Hreject) as (_ & x & Hocc & Hlines).
      exists x. split; [done|]. rewrite Hmsg.
      split; do 3 apply substring_append_l.
      * apply substring_trans with (" - Computed hash: `" +:+ computed_hash x +:+ "`").
        { apply substring_append_l, substring_append_r, substring_refl. }
        apply substring_concat, Hlines. set_solver.
      * apply substring_trans
          with (" - Collection timestamp: `" +:+ str (timestamp x) +:+ "`").
        { apply substring_append_l, substring_append_r, substring_refl. }
        apply substring_concat, Hlines. set_solver.
  - intros cs1 c cs2 st1 st2 e Hcs Hbefore Hfetch.
    destruct (validate_fetch_inv _ _ _ _ _ Hfetch) as (_ & _ & Hexc & Hmsg & _).
    split; [|done].
    rewrite (validate_signature_unfold _ _ _ Hs), Hcs, for_each_app, Hbefore.
    by rewrite (for_each_cons_raise _ _ _ _ _ _ (validate_collection_raise _ _ _ _ _ Hfetch)).
Qed.

(** Collections whose signature verifies leave the pending exception as
    it was. *)
Lemma validate_loop_verifies s cs :
  stages -> verifier_raises_Exception ->
  Forall (fetches s) cs -> Forall (verifies s) cs ->
  forall st : St, exists st',
    for_each cs (validate_collection s) st = (Ok tt, st') /\
    exception st' = exception st.
Proof.
  intros Hstage Hver Hfetch. induction Hfetch as [|c cs Hc _ IH]; intros Hok st.
  { by exists st. }
  apply Forall_cons in Hok as [Hcok Hok].
  destruct (Hc st) as (x & st1 & Hfetch).
  destruct (validate_collection_iteration _ _ _ _ _ Hstage Hver Hfetch)
    as (r & st2 & st3 & Htry & Hrun & _ & Hexc & _).
  destruct (Hcok _ _ _ Hfetch) as (st2' & Htry').
  rewrite Htry in Htry'. injection Htry' as -> _.
  destruct (IH Hok st3) as (st' & Hloop & Hexc').
  exists st'. rewrite (for_each_cons_ok _ _ _ _ _ Hrun). split; [done|].
  by rewrite Hexc'.
Qed.

(** C9: the message of the [ValidationError] starts with the rendering of
    the exception caught last, that of the last collection whose
    verification fails, whatever was caught before it; then come a colon,
    a newline, and all the messages accumulated during the run, joined by
    newlines, in which the earlier failures appear as their recorded
    lines. *)
Theorem validate_signature_message_prefix (ev : event) s (st0 : St) cs1 c cs2 e :
  event_server ev = Ok s ->
  default DEFAULT_COLLECTIONS (ev_collections ev) = cs1 ++ c :: cs2 ->
  stages -> verifier_raises_Exception ->
  Forall (fetches s) (cs1 ++ c :: cs2) ->
  rejects s c e ->
  Forall (verifies s) cs2 ->
  exists st' tr,
    validate_signature ev st0 =
      (Raise (ValidationError
                (exn_str e +:+ ":" +:+ nl +:+ String.concat nl (messages st'))),
       st') /\
    trace st' = trace st0 ++ tr /\
    (forall c', c' ∈ cs1 ++ c :: cs2 -> looking_at s c' ∈ messages st') /\
    (forall c' e', c' ∈ cs1 ++ c :: cs2 -> rejects s c' e' ->
       exists x, occurs (fetch_trace (make_client s c' None) x) tr /\
                 failure_message x ⊆ messages st').
Proof.
  intros Hs Hcs Hstage Hver Hfetch Hrej Hok.
  destruct (validate_loop_runs s _ Hstage Hver Hfetch (validate_start st0))
    as (st' & tr & ms & Hloop & Htr & Hmsg & _ & Hall & Hrejs).
  simpl in Hmsg.
  assert (exception st' = Some e) as Hlast.
  { apply Forall_app in Hfetch as [Hfetch1 [Hc Hfetch2]%Forall_cons].
    rewrite for_each_app in Hloop.
    destruct (validate_loop_runs s _ Hstage Hver Hfetch1 (validate_start st0))
      as (st1 & _ & _ & Hloop1 & _).
    rewrite Hloop1 in Hloop.
    destruct (Hc st1) as (x & st1' & Hfx).
    destruct (validate_collection_iteration _ _ _ _ _ Hstage Hver Hfx)
      as (r & st2 & st3 & Htry & Hrun & _ & Hexc & _).
    destruct (Hrej _ _ _ Hfx) as (st2' & Htry').
    rewrite Htry in Htry'. injection Htry' as -> _.
    rewrite (for_each_cons_ok _ _ _ _ _ Hrun) in Hloop.
    destruct (validate_loop_verifies s _ Hstage Hver Hfetch2 Hok st3)
      as (st'' & Hloop2 & Hexc2).
    rewrite Hloop2 in Hloop. injection Hloop as ->. by rewrite Hexc2. }
  exists st', tr.
  rewrite (validate_signature_unfold _ _ _ Hs), Hcs, Hloop, validate_report_spec, Hlast.
  split; [done|]. split; [done|]. rewrite Hmsg. split.
  - intros c' Hc'. by destruct (Hall c' Hc') as (? & _).
  - intros c' e' Hc' Hrej'. destruct (Hrejs c' e' Hc' Hrej') as (_ & x & ? & ?).
    by exists x.
Qed.

(** ** The calls of one iteration *)

Lemma validate_fetch_calls s c (st st1 : St) (r : Result fetched) :
  validate_fetch s c st = (r, st1) ->
  exists tr, trace st1 = trace st ++ tr /\
    (forall recs ts res, (CanonicalJson recs ts, res) ∈ tr ->
       (GetRecords (make_client s c None) (Some "-last_modified"), Ok (PList recs)) ∈ tr /\
       (GetRecordsTimestamp (make_client s c None) None, Ok ts) ∈ tr) /\
    (forall c' sort res, (GetRecords c' sort, res) ∈ tr -> sort = Some "-last_modified") /\
    (forall key ser sg res, (Verify key ser sg, res) ∉ tr) /\
    (forall x, r = Ok x ->
       (CanonicalJson (records x) (timestamp x), Ok (PStr (serialized x))) ∈ tr).
Proof.
  unfold validate_fetch, get_collection, get_records, get_records_timestamp,
    call_world, call_pure, print.
  unfold_monad. simpl.
  destruct (kinto_get_collection _ _) as [[v|e1] w1]; simpl; [|trace_done].
  destruct (kinto_get_records _ _ _) as [[recs|e2] w2]; simpl; [|trace_done].
  destruct (kinto_get_records_timestamp _ _ _) as [[ts|e3] w3]; simpl; [|trace_done].
  destruct (canonical_json recs ts) as [ser|e4] eqn:Hser; simpl; [|trace_done].
  destruct (compute_hash ser) as [h|e5] eqn:Hh; simpl; [|trace_done].
  destruct (getitem v "data") as [d|e6]; simpl; [|trace_done].
  destruct (getitem d "signature") as [sg|e7]; simpl; trace_done.
Qed.

Lemma verify_try_calls (x : fetched) (st st1 : St) (r : Result unit) :
  verify_try x st = (r, st1) ->
  exists tr, trace st1 = trace st ++ tr /\
    forall call res, (call, res) ∈ tr ->
      call = NamedTemporaryFile \/
      exists name, call = Verify name (serialized x) (signature x).
Proof.
  unfold verify_try, named_temporary_file, call_world, file_write, file_close,
    signer_verify, call_pure, print.
  unfold_monad.
  destruct (tempfile_name (world st)) as [[name|e] w]; simpl;
    repeat case_match; trace_done.
Qed.

Lemma validate_verify_trace (x : fetched) (st : St) :
  trace (validate_verify x st).2 = trace (verify_try x st).2.
Proof.
  unfold validate_verify, try_except_finally.
  destruct (verify_try x st) as [[[]|e] st1]; [|destruct (exn_is_Exception e)];
    rewrite ?verify_except_spec, verify_finally_spec; simpl;
    repeat case_match; by simplify_eq/=.
Qed.

(** The calls of the steps before the [try], once the three reads have
    succeeded. *)
Lemma validate_fetch_canonical s c (st st1 : St) (r : Result fetched)
    dest_col w1 recs w2 ts w3 :
  let client := make_client s c None in
  kinto_get_collection client (world st) = (Ok dest_col, w1) ->
  kinto_get_records client (Some "-last_modified") w1 = (Ok recs, w2) ->
  kinto_get_records_timestamp client None w2 = (Ok ts, w3) ->
  validate_fetch s c st = (r, st1) ->
  exists rest,
    trace st1 = trace st ++
      [ (GetCollection client, Ok dest_col);
        (GetRecords client (Some "-last_modified"), Ok (PList recs));
        (GetRecordsTimestamp client None, Ok ts);
        (CanonicalJson recs ts, result_map PStr (canonical_json recs ts)) ] ++ rest /\
    (forall recs' ts' res, (CanonicalJson recs' ts', res) ∉ rest) /\
    (forall x, r = Ok x -> canonical_json recs ts = Ok (serialized x)).
Proof.
  intros client Hcol Hrecs Hts.
  unfold validate_fetch, get_collection, get_records, get_records_timestamp,
    call_world, call_pure, print.
  unfold_monad. simpl. fold client. rewrite Hcol; simpl. rewrite Hrecs; simpl.
  rewrite Hts; simpl.
  destruct (canonical_json recs ts) as [ser|e4]; simpl.
  2:{ intros [= <- <-]. exists []. simpl. rewrite <- !(assoc_L (++)).
      split; [done|]. split; [set_solver|done]. }
  destruct (compute_hash ser) as [h|e5]; simpl.
  2:{ intros [= <- <-]. eexists [_]. simpl. rewrite <- !(assoc_L (++)).
      split; [done|]. split; [set_solver|done]. }
  destruct (getitem dest_col "data") as [d|e6]; simpl.
  2:{ intros [= <- <-]. eexists [_]. simpl. rewrite <- !(assoc_L (++)).
      split; [done|]. split; [set_solver|done]. }
  destruct (getitem d "signature") as [sg|e7]; simpl.
  2:{ intros [= <- <-]. eexists [_]. simpl. rewrite <- !(assoc_L (++)).
      split; [done|]. split; [set_solver|done]. }
  intros [= <- <-]. eexists [_]. simpl. rewrite <- !(assoc_L (++)).
  split; [done|]. split; [set_solver|]. by intros x [= <-].
Qed.

(** C8: in every iteration the canonicalizer is given the records that
    the listing sorted by ["-last_modified"] returned and the timestamp
    that the separate timestamp call returned; records are listed under
    no other order, and the bytes handed to the verifier are what the
    canonicalizer produced.  Once the metadata, the records and the
    timestamp have been read, the canonicalizer is called, once, with
    exactly those records and that timestamp. *)
Theorem validate_collection_canonical_inputs s c (st : St) :
  let client := make_client s c None in
  exists tr, trace (validate_collection s c st).2 = trace st ++ tr /\
    (forall recs ts res, (CanonicalJson recs ts, res) ∈ tr ->
       (GetRecords client (Some "-last_modified"), Ok (PList recs)) ∈ tr /\
       (GetRecordsTimestamp client None, Ok ts) ∈ tr) /\
    (forall c' sort res, (GetRecords c' sort, res) ∈ tr -> sort = Some "-last_modified") /\
    (forall key ser sg res, (Verify key ser sg, res) ∈ tr ->
       exists recs ts, (CanonicalJson recs ts, Ok (PStr ser)) ∈ tr) /\
    (forall dest_col w1 recs w2 ts w3,
       kinto_get_collection client (world st) = (Ok dest_col, w1) ->
       kinto_get_records client (Some "-last_modified") w1 = (Ok recs, w2) ->
       kinto_get_records_timestamp client None w2 = (Ok ts, w3) ->
       exists rest,
         tr = [ (GetCollection client, Ok dest_col);
                (GetRecords client (Some "-last_modified"), Ok (PList recs));
                (GetRecordsTimestamp client None, Ok ts);
                (CanonicalJson recs ts, result_map PStr (canonical_json recs ts)) ]
              ++ rest /\
         (forall recs' ts' res, (CanonicalJson recs' ts', res) ∉ rest) /\
         (forall key ser sg res, (Verify key ser sg, res) ∈ rest ->
            canonical_json recs ts = Ok ser)).
Proof.
  intros client. unfold validate_collection. unfold_monad.
  destruct (validate_fetch s c st) as [[x|e] st1] eqn:Hfetch.
  - destruct (validate_fetch_calls _ _ _ _ _ Hfetch)
      as (tr1 & Htr1 & Hcanon & Hsort & Hnover & Hx).
    destruct (verify_try x st1) as [r st2] eqn:Htry.
    destruct (verify_try_calls _ _ _ _ Htry) as (tr2 & Htr2 & Hcalls).
    exists (tr1 ++ tr2). rewrite validate_verify_trace, Htry; simpl.
    split; [by rewrite Htr2, Htr1, <- (assoc_L (++))|].
    split; [|split; [|split]].
    + intros recs ts res [Hin|Hin]%elem_of_app.
      * destruct (Hcanon _ _ _ Hin). set_solver.
      * by destruct (Hcalls _ _ Hin) as [?|[? ?]].
    + intros c' sort res [Hin|Hin]%elem_of_app; [eauto|].
      by destruct (Hcalls _ _ Hin) as [?|[? ?]].
    + intros key ser sg res [Hin|Hin]%elem_of_app; [by apply Hnover in Hin|].
      destruct (Hcalls _ _ Hin) as [?|[name [= -> -> ->]]]; [done|].
      exists (records x), (timestamp x). specialize (Hx x eq_refl). set_solver.
    + intros dest_col w1 recs w2 ts w3 Hcol Hrecs Hts.
      destruct (validate_fetch_canonical _ _ _ _ _ _ _ _ _ _ _ Hcol Hrecs Hts Hfetch)
        as (rest & Htr & Honce & Hser).
      rewrite Htr1 in Htr. apply (inj (app (trace st))) in Htr as ->.
      exists (rest ++ tr2). split; [by rewrite <- !(assoc_L (++))|]. split.
      * intros recs' ts' res [Hin|Hin]%elem_of_app; [by apply Honce in Hin|].
        by destruct (Hcalls _ _ Hin) as [?|[? ?]].
      * intros key ser sg res [Hin|Hin]%elem_of_app.
        -- exfalso. apply (Hnover key ser sg res). set_solver.
        -- destruct (Hcalls _ _ Hin) as [?|[name [= -> -> ->]]]; [done|].
           by apply Hser.
  - destruct (validate_fetch_calls _ _ _ _ _ Hfetch)
      as (tr1 & Htr1 & Hcanon & Hsort & Hnover & _).
    exists tr1. simpl. split; [done|]. split; [done|]. split; [done|].
    split; [intros key ser sg res Hin; by apply Hnover in Hin|].
    intros dest_col w1 recs w2 ts w3 Hcol Hrecs Hts.
    destruct (validate_fetch_canonical _ _ _ _ _ _ _ _ _ _ _ Hcol Hrecs Hts Hfetch)
      as (rest & Htr & Honce & _).
    rewrite Htr1 in Htr. apply (inj (app (trace st))) in Htr as ->.
    exists rest. split; [done|]. split; [done|].
    intros key ser sg res Hin. exfalso. apply (Hnover key ser sg res). set_solver.
Qed.

(** ** The key file, the fail entry, and what is not caught *)

Lemma validate_collection_fs s c (st : St) :
  dom (fs (validate_collection s c st).2) ⊆ dom (fs st).
Proof.
  unfold validate_collection. unfold_monad.
  destruct (validate_fetch s c st) as [[x|e] st1] eqn:Hfetch;
    destruct (validate_fetch_inv _ _ _ _ _ Hfetch) as (Hfs & _).
  - rewrite <- Hfs. apply validate_verify_fs.
  - simpl. by rewrite Hfs.
Qed.

Lemma validate_loop_fs s cs (st : St) :
  dom (fs (for_each cs (validate_collection s) st).2) ⊆ dom (fs st).
Proof.
  revert st. induction cs as [|c cs IH]; intros st; [done|].
  pose proof (validate_collection_fs s c st) as Hc.
  simpl. unfold_monad.
  destruct (validate_collection s c st) as [[[]|e] st1]; [|done].
  etrans; [apply IH|done].
Qed.

(** C6: whatever way the [try] statement is left (the signature verified,
    an exception was caught and recorded, or an exception goes on to the
    caller), the file created for the public key no longer exists, and no
    file has been added to the temporary directory; the same holds at the
    end of a whole run. *)
Theorem public_key_file_deleted (x : fetched) (st : St) :
  (forall name w, tempfile_name (world st) = (Ok name, w) ->
     fs (validate_verify x st).2 !! name = None) /\
  dom (fs (validate_verify x st).2) ⊆ dom (fs st) /\
  (forall ev, dom (fs (validate_signature ev st).2) ⊆ dom (fs st)).
Proof.
  split; [|split; [apply validate_verify_fs|]].
  - intros name w Hname.
    destruct (verify_try x st) as [r st1] eqn:Htry.
    rewrite (validate_verify_staged _ _ _ _ _ _ Hname Htry).
    destruct r as [[]|e]; [|destruct (exn_is_Exception e)]; simpl;
      apply lookup_delete_eq.
  - intros ev. unfold validate_signature. unfold_monad. simpl.
    destruct (event_server ev) as [s|e]; [|done]. simpl.
    pose proof (validate_loop_fs s (default DEFAULT_COLLECTIONS (ev_collections ev))
                  (validate_start st)) as Hloop.
    unfold validate_start in Hloop.
    destruct (for_each _ _ _) as [[[]|e] st1]; [|done].
    rewrite validate_report_spec. by destruct (exception st1).
Qed.

(** An exception of the verification step, once the key file exists, is
    caught: the iteration ends normally with the fail entry recorded. *)
Lemma validate_collection_caught s c (st st1 st2 : St) x name w e :
  validate_fetch s c st = (Ok x, st1) ->
  tempfile_name (world st1) = (Ok name, w) ->
  verify_try x st1 = (Raise e, st2) ->
  exn_is_Exception e = true ->
  exists st3,
    validate_collection s c st = (Ok tt, st3) /\
    exception st3 = Some e /\
    messages st3 = messages st ++ looking_at s c :: failure_message x /\
    fs st3 !! name = None.
Proof.
  intros Hfetch Hname Htry He.
  pose proof (validate_verify_staged _ _ _ _ _ _ Hname Htry) as Hrun.
  simpl in Hrun. rewrite He in Hrun.
  destruct (validate_fetch_inv _ _ _ _ _ Hfetch) as (_ & _ & _ & Hmsg & _).
  destruct (verify_try_inv _ _ _ _ Htry) as (_ & Hmsg2 & _).
  eexists. unfold validate_collection. unfold_monad. rewrite Hfetch, Hrun.
  split; [done|]. simpl. split; [done|].
  rewrite Hmsg2, Hmsg, app_nil_r, <- (assoc_L (++)). split; [done|].
  apply lookup_delete_eq.
Qed.

(** C1, as the code has it: an exception raised by one of the steps before
    the [try] (fetching the metadata, the records or the timestamp,
    serializing, hashing, reading the signature) is not caught.  Whichever
    step is the first to raise, the loop ends there with its exception:
    the failed call is the last call of the run, no fail entry is
    recorded, and the remaining collections are not processed.
    An [Exception] raised in the verification step after the key file was
    created is recorded as the collection's fail entry, and the loop goes
    on with the next collection.  An exception that ends the loop is what
    [validate_signature] raises: no [ValidationError] is made of it. *)
Theorem validate_collection_failures s c cs (st : St) :
  (let client := make_client s c None in
   let order := Some "-last_modified" in
   match kinto_get_collection client (world st) with
   | (Raise e, _) => ends_unrecorded s c cs st e [(GetCollection client, Raise e)]
   | (Ok dest_col, w1) =>
   match kinto_get_records client order w1 with
   | (Raise e, _) =>
       ends_unrecorded s c cs st e
         [ (GetCollection client, Ok dest_col);
           (GetRecords client order, Raise e) ]
   | (Ok records, w2) =>
   match kinto_get_records_timestamp client None w2 with
   | (Raise e, _) =>
       ends_unrecorded s c cs st e
         [ (GetCollection client, Ok dest_col);
           (GetRecords client order, Ok (PList records));
           (GetRecordsTimestamp client None, Raise e) ]
   | (Ok timestamp, _) =>
   match canonical_json records timestamp with
   | Raise e =>
       ends_unrecorded s c cs st e
         [ (GetCollection client, Ok dest_col);
           (GetRecords client order, Ok (PList records));
           (GetRecordsTimestamp client None, Ok timestamp);
           (CanonicalJson records timestamp, Raise e) ]
   | Ok serialized =>
   match compute_hash serialized with
   | Raise e =>
       ends_unrecorded s c cs st e
         [ (GetCollection client, Ok dest_col);
           (GetRecords client order, Ok (PList records));
           (GetRecordsTimestamp client None, Ok timestamp);
           (CanonicalJson records timestamp, Ok (PStr serialized));
           (ComputeHash serialized, Raise e) ]
   | Ok computed_hash =>
       forall e,
         (getitem dest_col "data" = Raise e \/
          exists data, getitem dest_col "data" = Ok data /\
                       getitem data "signature" = Raise e) ->
         ends_unrecorded s c cs st e
           [ (GetCollection client, Ok dest_col);
             (GetRecords client order, Ok (PList records));
             (GetRecordsTimestamp client None, Ok timestamp);
             (CanonicalJson records timestamp, Ok (PStr serialized));
             (ComputeHash serialized, Ok (PStr computed_hash)) ]
   end end end end end) /\
  (forall x st1 name w e st2,
     validate_fetch s c st = (Ok x, st1) ->
     tempfile_name (world st1) = (Ok name, w) ->
     verify_try x st1 = (Raise e, st2) ->
     exn_is_Exception e = true ->
     exists st3,
       validate_collection s c st = (Ok tt, st3) /\
       exception st3 = Some e /\
       messages st3 = messages st ++ looking_at s c :: failure_message x /\
       for_each (c :: cs) (validate_collection s) st =
       for_each cs (validate_collection s) st3) /\
  (forall ev (st0 : St) cs1 e st',
     event_server ev = Ok s ->
     default DEFAULT_COLLECTIONS (ev_collections ev) = cs1 ++ c :: cs ->
     for_each cs1 (validate_collection s) (validate_start st0) = (Ok tt, st) ->
     for_each (c :: cs) (validate_collection s) st = (Raise e, st') ->
     validate_signature ev st0 = (Raise e, st')).
Proof.
  split; [|split].
  - assert (forall e tr st1,
              validate_fetch s c st = (Raise e, st1) ->
              trace st1 = trace st ++ tr ->
              ends_unrecorded s c cs st e tr) as Hends.
    { intros e tr st1 Hfetch Htr.
      destruct (validate_fetch_inv _ _ _ _ _ Hfetch) as (_ & _ & Hexc & Hmsg & _).
      exists st1. split; [|done].
      apply for_each_cons_raise, validate_collection_raise, Hfetch. }
    revert Hends.
    unfold validate_fetch, get_collection, get_records, get_records_timestamp,
      call_world, call_pure, print.
    unfold_monad. simpl. intros Hends.
    destruct (kinto_get_collection _ _) as [[v|e1] w1]; simpl in *.
    2:{ eapply Hends; [done|]. simpl. by rewrite <- ?(assoc_L (++)). }
    destruct (kinto_get_records _ _ _) as [[recs|e2] w2]; simpl in *.
    2:{ eapply Hends; [done|]. simpl. by rewrite <- ?(assoc_L (++)). }
    destruct (kinto_get_records_timestamp _ _ _) as [[ts|e3] w3]; simpl in *.
    2:{ eapply Hends; [done|]. simpl. by rewrite <- ?(assoc_L (++)). }
    destruct (canonical_json recs ts) as [ser|e4]; simpl in *.
    2:{ eapply Hends; [done|]. simpl. by rewrite <- ?(assoc_L (++)). }
    destruct (compute_hash ser) as [h|e5]; simpl in *.
    2:{ eapply Hends; [done|]. simpl. by rewrite <- ?(assoc_L (++)). }
    intros e [Hdata|(d & Hdata & Hsig)]; rewrite Hdata in Hends; simpl in Hends.
    + eapply Hends; [done|]. simpl. by rewrite <- ?(assoc_L (++)).
    + rewrite Hsig in Hends. simpl in Hends.
      eapply Hends; [done|]. simpl. by rewrite <- ?(assoc_L (++)).
  - intros x st1 name w e st2 Hfetch Hname Htry He.
    destruct (validate_collection_caught _ _ _ _ _ _ _ _ _ Hfetch Hname Htry He)
      as (st3 & Hrun & Hexc & Hmsg & _).
    exists st3. repeat split; try done. by apply for_each_cons_ok.
  - intros ev st0 cs1 e st' Hs Hcs Hbefore Hloop.
    by rewrite (validate_signature_unfold _ _ _ Hs), Hcs, for_each_app, Hbefore, Hloop.
Qed.

(** C7, as the code has it: the last line of a fail entry holds the whole
    serialized content between two backquotes, so it is 25 characters
    longer than the serialization. *)
Theorem fail_entry_holds_whole_serialization s c (st st1 st2 : St) x name w e :
  validate_fetch s c st = (Ok x, st1) ->
  tempfile_name (world st1) = (Ok name, w) ->
  verify_try x st1 = (Raise e, st2) ->
  exn_is_Exception e = true ->
  exists st3 line,
    validate_collection s c st = (Ok tt, st3) /\
    last (messages st3) = Some line /\
    line = " - Serialized content: `" +:+ serialized x +:+ "`" /\
    canonical_json (records x) (timestamp x) = Ok (serialized x) /\
    String.length line = (String.length (serialized x) + 25)%nat.
Proof.
  intros Hfetch Hname Htry He.
  destruct (validate_collection_caught _ _ _ _ _ _ _ _ _ Hfetch Hname Htry He)
    as (st3 & Hrun & _ & Hmsg & _).
  destruct (validate_fetch_inv _ _ _ _ _ Hfetch) as (_ & _ & _ & _ & _ & Hok).
  destruct (Hok x eq_refl) as (_ & Hser & _).
  exists st3, (" - Serialized content: `" +:+ serialized x +:+ "`").
  split; [done|]. split.
  { rewrite Hmsg. unfold failure_message. by rewrite last_app. }
  split; [done|]. split; [done|].
  rewrite !length_append. simpl. lia.
Qed.

(** ** [refresh_signature] *)

Lemma eq_str_true v s : eq_str v s = true <-> v = PStr s.
Proof.
  destruct v; simpl; try (split; [done|by intros [=]]).
  rewrite String.eqb_eq. split; [by intros ->|by intros [= ->]].
Qed.

Lemma refresh_collection_signed s credentials c (st : St)
    response meta lm w1 new new_data lm' w2 date :
  let client := make_client s c (Some credentials) in
  kinto_get_collection client (world st) = (Ok response, w1) ->
  getitem response "data" = Ok meta ->
  getitem meta "last_modified" = Ok lm ->
  getitem meta "status" = Ok (PStr "signed") ->
  kinto_patch_collection client (PDict [("status", PStr "to-sign")]) w1 = (Ok new, w2) ->
  getitem new "data" = Ok new_data ->
  getitem new_data "last_modified" = Ok lm' ->
  timestamp_to_date lm' = Ok date ->
  exists st',
    refresh_collection s credentials c st = (Ok tt, st') /\
    trace st' = trace st ++
      [ (GetCollection client, Ok response);
        (PatchCollection client (PDict [("status", PStr "to-sign")]), Ok new) ] /\
    stdout st' = stdout st ++
      [ "Looking at " +:+ get_endpoint client "collection" +:+ ": ";
        "Trigger new signature: ";
        status_line (PStr "signed") date lm' ].
Proof.
  intros client Hget Hdata Hlm Hstatus Hpatch Hnew Hlm' Hdate.
  unfold refresh_collection, get_collection, patch_collection, call_world, print.
  unfold_monad. simpl. fold client.
  rewrite Hget; simpl. rewrite Hdata; simpl. rewrite Hlm; simpl.
  rewrite Hstatus; simpl. rewrite Hpatch; simpl. rewrite Hnew; simpl.
  rewrite Hlm'; simpl. rewrite Hdate; simpl.
  eexists. split; [done|]. simpl. rewrite <- !(assoc_L (++)). split; [done|].
  unfold status_line. by rewrite !append_assoc.
Qed.

Lemma refresh_collection_other s credentials c (st : St)
    response meta lm status w1 date :
  let client := make_client s c (Some credentials) in
  kinto_get_collection client (world st) = (Ok response, w1) ->
  getitem response "data" = Ok meta ->
  getitem meta "last_modified" = Ok lm ->
  getitem meta "status" = Ok status ->
  status <> PStr "signed" ->
  timestamp_to_date lm = Ok date ->
  exists st',
    refresh_collection s credentials c st = (Ok tt, st') /\
    trace st' = trace st ++ [ (GetCollection client, Ok response) ] /\
    stdout st' = stdout st ++
      [ "Looking at " +:+ get_endpoint client "collection" +:+ ": ";
        status_line status date lm ].
Proof.
  intros client Hget Hdata Hlm Hstatus Hother Hdate.
  assert (eq_str status "signed" = false) as Heq.
  { destruct (eq_str status "signed") eqn:Heq; [|done].
    by apply eq_str_true in Heq. }
  unfold refresh_collection, get_collection, patch_collection, call_world, print.
  unfold_monad. simpl. fold client.
  rewrite Hget; simpl. rewrite Hdata; simpl. rewrite Hlm; simpl.
  rewrite Hstatus; simpl. rewrite Heq; simpl. rewrite Hdate; simpl.
  eexists. split; [done|]. simpl. rewrite <- !(assoc_L (++)). split; [done|].
  unfold status_line. by rewrite !append_assoc.
Qed.

(** C4: when the fetched status is ["signed"], the iteration issues one
    [patch_collection] call with [{status: "to-sign"}] and reports the
    [last_modified] of the response to the patch; for any other status it
    issues no patch and reports the [last_modified] it fetched. *)
Theorem refresh_collection_patch_and_timestamp s credentials c (st : St)
    response meta lm status w1 :
  let client := make_client s c (Some credentials) in
  kinto_get_collection client (world st) = (Ok response, w1) ->
  getitem response "data" = Ok meta ->
  getitem meta "last_modified" = Ok lm ->
  getitem meta "status" = Ok status ->
  (status = PStr "signed" ->
   forall new new_data lm' w2 date,
     kinto_patch_collection client (PDict [("status", PStr "to-sign")]) w1 = (Ok new, w2) ->
     getitem new "data" = Ok new_data ->
     getitem new_data "last_modified" = Ok lm' ->
     timestamp_to_date lm' = Ok date ->
     exists st',
       refresh_collection s credentials c st = (Ok tt, st') /\
       trace st' = trace st ++
         [ (GetCollection client, Ok response);
           (PatchCollection client (PDict [("status", PStr "to-sign")]), Ok new) ] /\
       last (stdout st') = Some (status_line status date lm')) /\
  (status <> PStr "signed" ->
   forall date,
     timestamp_to_date lm = Ok date ->
     exists st',
       refresh_collection s credentials c st = (Ok tt, st') /\
       trace st' = trace st ++ [ (GetCollection client, Ok response) ] /\
       last (stdout st') = Some (status_line status date lm)).
Proof.
  intros client Hget Hdata Hlm Hstatus. split.
  - intros -> new new_data lm' w2 date Hpatch Hnew Hlm' Hdate.
    destruct (refresh_collection_signed _ _ _ _ _ _ _ _ _ _ _ _ _
                Hget Hdata Hlm Hstatus Hpatch Hnew Hlm' Hdate)
      as (st' & Hrun & Htr & Hout).
    exists st'. split; [done|]. split; [done|]. by rewrite Hout, last_app.
  - intros Hother date Hdate.
    destruct (refresh_collection_other _ _ _ _ _ _ _ _ _ _
                Hget Hdata Hlm Hstatus Hother Hdate)
      as (st' & Hrun & Htr & Hout).
    exists st'. split; [done|]. split; [done|]. by rewrite Hout, last_app.
Qed.

(** C3, as the code has it: after the patch, the status the iteration
    prints is the one it fetched before the patch, ["signed"]; the response
    to the patch supplies the timestamp only, and the status it carries is
    not read. *)
Theorem refresh_collection_prints_fetched_status s credentials c (st : St)
    response meta lm w1 new new_data lm' w2 date :
  let client := make_client s c (Some credentials) in
  kinto_get_collection client (world st) = (Ok response, w1) ->
  getitem response "data" = Ok meta ->
  getitem meta "last_modified" = Ok lm ->
  getitem meta "status" = Ok (PStr "signed") ->
  kinto_patch_collection client (PDict [("status", PStr "to-sign")]) w1 = (Ok new, w2) ->
  getitem new "data" = Ok new_data ->
  getitem new_data "last_modified" = Ok lm' ->
  timestamp_to_date lm' = Ok date ->
  exists st',
    refresh_collection s credentials c st = (Ok tt, st') /\
    last (stdout st') =
      Some ("signed at " +:+ date +:+ " ( " +:+ str lm' +:+ " )" +:+ nl).
Proof.
  intros client Hget Hdata Hlm Hstatus Hpatch Hnew Hlm' Hdate.
  destruct (refresh_collection_signed _ _ _ _ _ _ _ _ _ _ _ _ _
              Hget Hdata Hlm Hstatus Hpatch Hnew Hlm' Hdate)
    as (st' & Hrun & _ & Hout).
  exists st'. split; [done|]. by rewrite Hout, last_app.
Qed.

(** ** Credentials *)

Lemma partition_found sep user rest :
  has_char sep user = false ->
  partition sep (user +:+ String sep rest) = Some (user, rest).
Proof.
  induction user as [|a user IH]; simpl.
  - intros _. change (partition sep (String sep rest) = Some ("", rest)).
    simpl. by rewrite Ascii.eqb_refl.
  - intros [Ha Hu]%orb_false_elim.
    change (partition sep (String a (user +:+ String sep rest))
            = Some (String a user, rest)).
    simpl. by rewrite Ha, (IH Hu).
Qed.

Lemma partition_missing sep s : has_char sep s = false -> partition sep s = None.
Proof.
  induction s as [|a s IH]; simpl; [done|].
  intros [Ha Hs]%orb_false_elim. by rewrite Ha, (IH Hs).
Qed.

(** C10: the credentials are split at the first colon only: what follows
    it is the secret, further colons included; a string without a colon
    gives a one-element tuple.  The result is what every client of the
    run is built with. *)
Theorem refresh_signature_credentials :
  (forall user secret,
     has_char ":" user = false ->
     str_split ":" 1 (user +:+ ":" +:+ secret) = [user; secret]) /\
  (forall s, has_char ":" s = false -> str_split ":" 1 s = [s]) /\
  (forall (ev : event) (st : St) s credentials,
     event_server ev = Ok s ->
     getenv "REFRESH_SIGNATURE_AUTH" (world st) = Some credentials ->
     refresh_signature ev st =
     for_each (default DEFAULT_COLLECTIONS (ev_collections ev))
              (refresh_collection s (str_split ":" 1 credentials)) st).
Proof.
  split; [|split].
  - intros user secret Huser. simpl.
    change (":" +:+ secret) with (String ":" secret).
    by rewrite (partition_found _ _ _ Huser).
  - intros s Hs. simpl. by rewrite (partition_missing _ _ Hs).
  - intros ev st s credentials Hs Henv.
    unfold refresh_signature. unfold_monad. by rewrite Hs, Henv.
Qed.

(** ** [validate_changes_collection] *)

Lemma field_getitem entry key v : getitem entry key = Ok v -> field entry key = v.
Proof. unfold field. by intros ->. Qed.

Lemma validate_entry_spec client entry (st : St) etag w :
  well_formed_entry entry ->
  kinto_get_records_timestamp client
    (Some (field entry "bucket", field entry "collection")) (world st) = (Ok etag, w) ->
  exists st',
    validate_entry client entry st = (Ok tt, st') /\
    trace st' = trace st ++ [entry_check client entry etag] /\
    everything_ok st' =
      everything_ok st && String.eqb (str etag) (str (field entry "last_modified")).
Proof.
  intros Hwf Hts.
  destruct (Hwf "bucket") as (bid & Hbid); [set_solver|].
  destruct (Hwf "collection") as (cid & Hcid); [set_solver|].
  destruct (Hwf "last_modified") as (lm & Hlm); [set_solver|].
  rewrite (field_getitem _ _ _ Hbid), (field_getitem _ _ _ Hcid) in Hts.
  unfold entry_check.
  rewrite (field_getitem _ _ _ Hbid), (field_getitem _ _ _ Hcid),
    (field_getitem _ _ _ Hlm).
  unfold validate_entry, get_records_timestamp, call_world, print.
  unfold_monad. rewrite Hbid, Hcid, Hlm; simpl. rewrite Hts; simpl.
  destruct (String.eqb (str etag) (str lm)); simpl; eexists;
    (split; [done|]); simpl; by rewrite ?andb_true_r, ?andb_false_r.
Qed.

Lemma validate_entries_run client entries :
  Forall well_formed_entry entries ->
  (forall target (w : W), exists etag w',
     kinto_get_records_timestamp client target w = (Ok etag, w')) ->
  forall st : St, exists etags st',
    for_each entries (validate_entry client) st = (Ok tt, st') /\
    length etags = length entries /\
    trace st' = trace st ++ zip_with (entry_check client) entries etags /\
    everything_ok st' =
      everything_ok st &&
      forallb (fun p => String.eqb (str p.2) (str (field p.1 "last_modified")))
              (zip entries etags).
Proof.
  intros Hwf Hlive. induction Hwf as [|entry entries Hentry _ IH]; intros st.
  { exists [], st. by rewrite app_nil_r, andb_true_r. }
  destruct (Hlive (Some (field entry "bucket", field entry "collection")) (world st))
    as (etag & w & Hts).
  destruct (validate_entry_spec _ _ _ _ _ Hentry Hts) as (st1 & Hrun & Htr & Hok).
  destruct (IH st1) as (etags & st' & Hloop & Hlen & Htr' & Hok').
  exists (etag :: etags), st'.
  rewrite (for_each_cons_ok _ _ _ _ _ Hrun). split; [done|]. simpl.
  split; [by rewrite Hlen|].
  split; [by rewrite Htr', Htr, <- (assoc_L (++))|].
  by rewrite Hok', Hok, andb_assoc.
Qed.

Lemma renderings_differ_forallb (l : list (pyval * pyval)) :
  forallb (fun p => String.eqb (str p.2) (str (field p.1 "last_modified"))) l = false
  <-> Exists renderings_differ l.
Proof.
  induction l as [|p l IH]; simpl.
  - split; [done|]. by intros ?%Exists_nil.
  - rewrite Exists_cons, andb_false_iff, IH. unfold renderings_differ.
    by rewrite String.eqb_neq.
Qed.

(** C5: every entry of the registry is checked, in order: the live
    timestamp of the collection it references is fetched, and its string
    rendering compared with that of the entry's [last_modified].  Once all
    entries have been checked, the run raises the same [ValueError],
    which names no entry, exactly when some pair of renderings differs,
    and it returns normally otherwise. *)
Theorem validate_changes_collection_verdict (ev : event) s (st : St) entries w :
  event_server ev = Ok s ->
  let client := MkClient s (default "monitor" (ev_bucket ev))
                           (default "changes" (ev_collection ev)) None in
  kinto_get_records client None (world st) = (Ok entries, w) ->
  Forall well_formed_entry entries ->
  (forall target (w : W), exists etag w',
     kinto_get_records_timestamp client target w = (Ok etag, w')) ->
  exists etags r st',
    validate_changes_collection ev st = (r, st') /\
    length etags = length entries /\
    trace st' = trace st ++
      (GetRecords client None, Ok (PList entries)) ::
      zip_with (entry_check client) entries etags /\
    (r = Raise (ValueError "One of the collection did not validate.")
     <-> Exists renderings_differ (zip entries etags)) /\
    (r = Ok tt <-> ~ Exists renderings_differ (zip entries etags)).
Proof.
  intros Hs client Hrecords Hwf Hlive.
  unfold validate_changes_collection, get_records, call_world, print.
  unfold_monad. rewrite Hs; simpl. fold client. rewrite Hrecords; simpl.
  match goal with |- context [for_each entries _ ?st1] =>
    destruct (validate_entries_run client entries Hwf Hlive st1)
      as (etags & st' & Hloop & Hlen & Htr & Hok) end.
  rewrite Hloop. simpl in Htr, Hok. rewrite Hok.
  pose proof (renderings_differ_forallb (zip entries etags)) as Hdiff.
  destruct (forallb _ _) eqn:Hall; simpl.
  - exists etags, (Ok tt), st'. split; [done|]. split; [done|].
    split; [by rewrite Htr, <- (assoc_L (++))|].
    split; [split; [done|]|split; [|done]].
    + intros Hex. by apply Hdiff in Hex.
    + intros _ Hex. by apply Hdiff in Hex.
  - exists etags,
      (Raise (ValueError "One of the collection did not validate.")), st'.
    split; [done|]. split; [done|].
    split; [by rewrite Htr, <- (assoc_L (++))|].
    split; [split; [intros _; by apply Hdiff|done]|split; [done|]].
    intros Hno. destruct Hno. by apply Hdiff.
Qed.

End Theory.

(** * Runs against the small server *)

Section Runs.
#[local] Existing Instance Toy.server.

Lemma toy_stages : stages.
Proof. intros w. by eexists _, _. Qed.

Lemma toy_verifier : verifier_raises_Exception.
Proof.
  intros key ser sg e. simpl. unfold Toy.check_signature.
  repeat case_match; by intros [= <-].
Qed.

Ltac toy_fetches := intros st; by apply run_succeeds; eexists.

Lemma toy_rejects_addons :
  rejects Toy.url (Toy.blocklist "addons") (Toy.BadSignatureError "forged-addons").
Proof. intros st x st1 [= <-]%(f_equal fst). by apply run_raises. Qed.

Lemma toy_rejects_gfx :
  rejects Toy.url (Toy.blocklist "gfx") (Toy.BadSignatureError "forged-gfx").
Proof. intros st x st1 [= <-]%(f_equal fst). by apply run_raises. Qed.

Lemma toy_verifies_certificates :
  verifies Toy.url (Toy.blocklist "certificates").
Proof. intros st x st1 [= <-]%(f_equal fst). by apply run_returns. Qed.

(** ** Small runs *)

Example split_twice : str_split ":" 2 "a:b:c:d" = ["a"; "b"; "c:d"].
Proof. reflexivity. Qed.

Example split_empty : str_split ":" 1 "" = [""].
Proof. reflexivity. Qed.

(** A timestamp that comes as a string and one that comes as an integer
    render alike. *)
Example str_of_etag : str (PStr "100") = str (PInt 100).
Proof. reflexivity. Qed.

Example getitem_missing : getitem (PDict [("data", PNone)]) "signature"
                          = Raise (KeyError "signature").
Proof. reflexivity. Qed.

Example date_of_milliseconds : timestamp_to_date (PInt 1500) = Ok "1 s after the epoch".
Proof. reflexivity. Qed.

Example date_before_epoch : timestamp_to_date (PInt (-1500)) = Ok "-2 s after the epoch".
Proof. reflexivity. Qed.

(** Three collections, the first and the third with a forged signature:
    the error carries the last exception, then every line of the run. *)
Example report_of_three :
  (validate_signature (Toy.on ["addons"; "plugins"; "gfx"]) Toy.start).1
  = Raise (ValidationError (String.concat nl
      [ "Signature verification failed: forged-gfx:";
        "Looking at /buckets/blocklists/collections/addons: ";
        "Signature KO.";
        " - Computed hash: `sha384:rr@1006`";
        " - Collection timestamp: `1006`";
        " - Serialized content: `rr@1006`";
        "Looking at /buckets/blocklists/collections/plugins: ";
        "Signature OK";
        "Looking at /buckets/blocklists/collections/gfx: ";
        "Signature KO.";
        " - Computed hash: `sha384:rr@1003`";
        " - Collection timestamp: `1003`";
        " - Serialized content: `rr@1003`" ])).
Proof. vm_compute. reflexivity. Qed.

Example all_verify :
  (validate_signature (Toy.on ["certificates"; "plugins"]) Toy.start).1 = Ok tt.
Proof. vm_compute. reflexivity. Qed.

(** ** The statements at work *)

(** The run with three collections: the first and third collections fail,
    the second passes. *)
Lemma validate_signature_reports_every_failure_witness :
  (exists msg st' tr,
     validate_signature (Toy.on ["addons"; "plugins"; "gfx"]) Toy.start
       = (Raise (ValidationError msg), st') /\
     trace st' = trace Toy.start ++ tr /\
     (forall c, c ∈ Toy.blocklist <$> ["addons"; "plugins"; "gfx"] ->
        exists r, (GetCollection (make_client Toy.url c None), r) ∈ tr) /\
     (forall c e, c ∈ Toy.blocklist <$> ["addons"; "plugins"; "gfx"] ->
        rejects Toy.url c e ->
        exists x, occurs (fetch_trace (make_client Toy.url c None) x) tr /\
                  substring (computed_hash x) msg /\
                  substring (str (timestamp x)) msg)) /\
  (exists st2,
     validate_signature (Toy.on ["addons"; "pins"; "gfx"]) Toy.start
       = (Raise Toy.ServerError, st2) /\
     exception st2 = Some (Toy.BadSignatureError "forged-addons") /\
     messages st2 =
       [ "Looking at /buckets/blocklists/collections/addons: ";
         "Signature KO.";
         " - Computed hash: `sha384:rr@1006`";
         " - Collection timestamp: `1006`";
         " - Serialized content: `rr@1006`";
         "Looking at /buckets/blocklists/collections/pins: " ]).
Proof.
  split.
  - refine (proj1 (validate_signature_reports_every_failure
                     (Toy.on ["addons"; "plugins"; "gfx"]) Toy.url Toy.start _) _ _ _ _).
    + reflexivity.
    + exact toy_stages.
    + exact toy_verifier.
    + repeat constructor; toy_fetches.
    + exists (Toy.blocklist "addons"), (Toy.BadSignatureError "forged-addons").
      split; [apply list_elem_of_here | exact toy_rejects_addons].
  - pose (loop := for_each [Toy.blocklist "addons"] (validate_collection Toy.url)).
    pose (st1 := (loop (validate_start Toy.start)).2).
    pose (fetch := validate_fetch Toy.url (Toy.blocklist "pins")).
    destruct (proj2 (validate_signature_reports_every_failure
                       (Toy.on ["addons"; "pins"; "gfx"]) Toy.url Toy.start eq_refl)
                [Toy.blocklist "addons"] (Toy.blocklist "pins") [Toy.blocklist "gfx"]
                st1 (fetch st1).2 Toy.ServerError eq_refl
                (run_result loop (validate_start Toy.start) (Ok tt)
                   ltac:(vm_compute; reflexivity))
                (run_result fetch st1 (Raise Toy.ServerError)
                   ltac:(vm_compute; reflexivity)))
      as (Hrun & Hexc & Hmsg).
    exists (fetch st1).2. split; [exact Hrun|]. rewrite Hexc, Hmsg.
    split; vm_compute; reflexivity.
Defined.

(** Two failures, [addons] with one exception and [gfx] with another,
    then a collection that verifies: the message starts with the
    exception of [gfx]. *)
Lemma validate_signature_message_prefix_witness :
  exists st' tr,
    validate_signature (Toy.on ["addons"; "plugins"; "gfx"; "certificates"]) Toy.start =
      (Raise (ValidationError
                ("Signature verification failed: forged-gfx" +:+ ":" +:+ nl +:+
                 String.concat nl (messages st'))),
       st') /\
    trace st' = trace Toy.start ++ tr /\
    (forall c', c' ∈ Toy.blocklist <$> ["addons"; "plugins"; "gfx"; "certificates"] ->
       looking_at Toy.url c' ∈ messages st') /\
    (forall c' e', c' ∈ Toy.blocklist <$> ["addons"; "plugins"; "gfx"; "certificates"] ->
       rejects Toy.url c' e' ->
       exists x, occurs (fetch_trace (make_client Toy.url c' None) x) tr /\
                 failure_message x ⊆ messages st').
Proof.
  refine (validate_signature_message_prefix
            (Toy.on ["addons"; "plugins"; "gfx"; "certificates"]) Toy.url Toy.start
            (Toy.blocklist <$> ["addons"; "plugins"]) (Toy.blocklist "gfx")
            (Toy.blocklist <$> ["certificates"])
            (Toy.BadSignatureError "forged-gfx") _ _ _ _ _ _ _).
  - reflexivity.
  - reflexivity.
  - exact toy_stages.
  - exact toy_verifier.
  - repeat constructor; toy_fetches.
  - exact toy_rejects_gfx.
  - repeat constructor. exact toy_verifies_certificates.
Defined.

(** C1 fails on the code: the records of [pins] cannot be listed, and the
    run ends there with the server's exception: no fail entry is recorded
    for [pins], and [addons], next in the list, is never queried. *)
Lemma fetch_exception_ends_the_run :
  let run := validate_signature (Toy.on ["pins"; "addons"]) Toy.start in
  run.1 = Raise Toy.ServerError /\
  messages run.2 = ["Looking at /buckets/blocklists/collections/pins: "] /\
  trace run.2 =
    [ (GetCollection (make_client Toy.url (Toy.blocklist "pins") None),
       Ok (Toy.metadata "pins"));
      (GetRecords (make_client Toy.url (Toy.blocklist "pins") None)
                  (Some "-last_modified"),
       Raise Toy.ServerError) ].
Proof. vm_compute. done. Qed.

(** C2 fails on the code: the verification of [addons] fails, then the
    records of [pins] cannot be listed.  The run ends with the server's
    exception and not with a [ValidationError]: the failure of [addons]
    is pending and is never reported, and [gfx], last in the list, is
    never queried. *)
Lemma pending_failure_unreported :
  let run := validate_signature (Toy.on ["addons"; "pins"; "gfx"]) Toy.start in
  run.1 = Raise Toy.ServerError /\
  exn_class Toy.ServerError = "KintoException" /\
  exception run.2 = Some (Toy.BadSignatureError "forged-addons") /\
  omap (fun call => match call.1 with
                    | GetCollection client => Some (client_collection client)
                    | _ => None
                    end) (trace run.2) = ["addons"; "pins"].
Proof. vm_compute. done. Qed.

(** The two halves of C1 at work: [pins] ends the loop at its listing,
    and the forged signature of [addons] is recorded. *)
Lemma validate_collection_failures_witness :
  let pins := make_client Toy.url (Toy.blocklist "pins") None in
  ends_unrecorded Toy.url (Toy.blocklist "pins") [Toy.blocklist "addons"] Toy.start
    Toy.ServerError
    [ (GetCollection pins, Ok (Toy.metadata "pins"));
      (GetRecords pins (Some "-last_modified"), Raise Toy.ServerError) ] /\
  (exists st3,
     validate_collection Toy.url (Toy.blocklist "addons") Toy.start = (Ok tt, st3) /\
     exception st3 = Some (Toy.BadSignatureError "forged-addons") /\
     messages st3 =
       messages Toy.start ++
       looking_at Toy.url (Toy.blocklist "addons") ::
       failure_message Toy.fetched_addons /\
     for_each [Toy.blocklist "addons"; Toy.blocklist "plugins"]
              (validate_collection Toy.url) Toy.start =
     for_each [Toy.blocklist "plugins"] (validate_collection Toy.url) st3) /\
  (exists st',
     validate_signature (Toy.on ["pins"; "addons"]) Toy.start
       = (Raise Toy.ServerError, st')).
Proof.
  intros pins. split; [|split].
  - exact (proj1 (validate_collection_failures Toy.url (Toy.blocklist "pins")
                    [Toy.blocklist "addons"] Toy.start)).
  - eapply (proj1 (proj2 (validate_collection_failures Toy.url (Toy.blocklist "addons")
                       [Toy.blocklist "plugins"] Toy.start))).
    all: reflexivity.
  - destruct (run_raises
                (for_each [Toy.blocklist "pins"; Toy.blocklist "addons"]
                   (validate_collection Toy.url))
                (validate_start Toy.start) Toy.ServerError) as [st' Hloop];
      [reflexivity|].
    exists st'.
    exact (proj2 (proj2 (validate_collection_failures Toy.url (Toy.blocklist "pins")
                           [Toy.blocklist "addons"] (validate_start Toy.start)))
             (Toy.on ["pins"; "addons"]) Toy.start [] Toy.ServerError st'
             eq_refl eq_refl eq_refl Hloop).
Defined.

(** The iteration of [addons]: the two records of the sorted listing
    and the timestamp ["1006"] of the timestamp call are what is
    serialized, and [rr@1006] is what is verified. *)
Lemma validate_collection_canonical_inputs_witness :
  let client := make_client Toy.url (Toy.blocklist "addons") None in
  let recs := replicate 2 (PDict [("id", PStr "r"); ("last_modified", PInt 42)]) in
  exists tr rest,
    trace (validate_collection Toy.url (Toy.blocklist "addons") Toy.start).2
      = trace Toy.start ++ tr /\
    tr = [ (GetCollection client, Ok (Toy.metadata "addons"));
           (GetRecords client (Some "-last_modified"), Ok (PList recs));
           (GetRecordsTimestamp client None, Ok (PStr "1006"));
           (CanonicalJson recs (PStr "1006"), Ok (PStr "rr@1006")) ] ++ rest /\
    (forall recs' ts' res, (CanonicalJson recs' ts', res) ∉ rest) /\
    (forall key ser sg res, (Verify key ser sg, res) ∈ rest -> Ok "rr@1006" = Ok ser).
Proof.
  intros client recs.
  destruct (validate_collection_canonical_inputs Toy.url (Toy.blocklist "addons") Toy.start)
    as (tr & Htr & _ & _ & _ & Hcalled).
  destruct (Hcalled (Toy.metadata "addons") 0%nat recs 0%nat (PStr "1006") 0%nat
              eq_refl eq_refl eq_refl) as (rest & Hrest & Honce & Hser).
  by exists tr, rest.
Defined.

(** The key file of the first iteration is ["/tmp/tmp0"]; it is gone when
    the [try] statement is left, here through the handler. *)
Lemma public_key_file_deleted_witness :
  fs (validate_verify Toy.fetched_addons
        (validate_fetch Toy.url (Toy.blocklist "addons") Toy.start).2).2
    !! "/tmp/tmp0" = None.
Proof.
  apply (proj1 (public_key_file_deleted Toy.fetched_addons
                  (validate_fetch Toy.url (Toy.blocklist "addons") Toy.start).2)
               "/tmp/tmp0" 1%nat).
  reflexivity.
Defined.

Lemma fail_entry_holds_whole_serialization_witness :
  exists st3 line,
    validate_collection Toy.url (Toy.blocklist "addons") Toy.start = (Ok tt, st3) /\
    last (messages st3) = Some line /\
    line = " - Serialized content: `" +:+ "rr@1006" +:+ "`" /\
    canonical_json (replicate 2 (PDict [("id", PStr "r"); ("last_modified", PInt 42)]))
                   (PStr "1006") = Ok "rr@1006" /\
    String.length line = (String.length "rr@1006" + 25)%nat.
Proof.
  eapply (fail_entry_holds_whole_serialization Toy.url (Toy.blocklist "addons")
            Toy.start _ _
            Toy.fetched_addons);
    reflexivity.
Defined.

Lemma length_string_of_list_ascii (l : list ascii) :
  String.length (String.string_of_list_ascii l) = length l.
Proof. induction l as [|a l IH]; simpl; [done|]. by rewrite IH. Qed.

Lemma toy_fail_entry (size : nat) :
  last (messages (validate_signature (collab := Toy.collaborators size)
                    (Toy.on ["addons"]) Toy.start).2)
  = Some (" - Serialized content: `" +:+
          Toy.serialize
            (replicate size (PDict [("id", PStr "r"); ("last_modified", PInt 42)]))
            (PStr "1006") +:+ "`").
Proof. reflexivity. Qed.

(** C7 fails on the code: the last line of a fail entry is not an
    excerpt.  On the server with 200 records per collection the
    serialization of [addons] takes 205 bytes and the line holds all of
    them; and no constant bounds the line, as the server with more
    records than the constant shows. *)
Lemma fail_entry_not_bounded :
  (exists content,
     canonical_json (Collaborators := Toy.collaborators 200)
       (replicate 200 (PDict [("id", PStr "r"); ("last_modified", PInt 42)]))
       (PStr "1006") = Ok content /\
     String.length content = 205%nat /\
     last (messages (validate_signature (collab := Toy.collaborators 200)
                       (Toy.on ["addons"]) Toy.start).2)
     = Some (" - Serialized content: `" +:+ content +:+ "`")) /\
  ~ exists bound : nat, forall (size : nat) (line : string),
      last (messages (validate_signature (collab := Toy.collaborators size)
                        (Toy.on ["addons"]) Toy.start).2) = Some line ->
      (String.length line <= bound)%nat.
Proof.
  split.
  - eexists. split; [reflexivity|]. split; [|apply toy_fail_entry].
    vm_compute. reflexivity.
  - intros [bound Hbound].
    specialize (Hbound bound _ (toy_fail_entry bound)).
    rewrite !length_append in Hbound. simpl in Hbound.
    rewrite !length_append, length_string_of_list_ascii, !length_replicate in Hbound.
    lia.
Qed.

(** C3 fails on the code: [certificates] is ["signed"]; the run patches
    it, the response says ["to-sign"], and the line printed says
    ["signed"]. *)
Lemma refresh_prints_signed_after_patch :
  let st' := (refresh_signature (Toy.on ["certificates"]) Toy.start).2 in
  trace st' !! 1%nat =
    Some (PatchCollection
            (make_client Toy.url (Toy.blocklist "certificates")
                         (Some ["user"; "sec:ret"]))
            (PDict [("status", PStr "to-sign")]),
          Ok (PDict [("data", PDict [("id", PStr "certificates");
                                     ("last_modified", PInt 600);
                                     ("status", PStr "to-sign")])])) /\
  last (stdout st') = Some ("signed at 0 s after the epoch ( 600 )" +:+ nl).
Proof. vm_compute. done. Qed.

Lemma refresh_collection_prints_fetched_status_witness :
  exists st',
    refresh_collection Toy.url ["user"; "sec:ret"] (Toy.blocklist "certificates")
                       Toy.start = (Ok tt, st') /\
    last (stdout st') =
      Some ("signed at " +:+ "0 s after the epoch" +:+ " ( " +:+ str (PInt 600) +:+ " )" +:+ nl).
Proof.
  eapply (refresh_collection_prints_fetched_status Toy.url ["user"; "sec:ret"]
            (Toy.blocklist "certificates") Toy.start);
    reflexivity.
Defined.

(** [certificates] is ["signed"]: one patch, and the timestamp of its
    response, 600; [plugins] is ["to-sign"]: no patch, and the timestamp
    fetched, 500. *)
Lemma refresh_collection_patch_and_timestamp_witness :
  (exists st' new,
     refresh_collection Toy.url ["user"; "sec:ret"] (Toy.blocklist "certificates")
                        Toy.start = (Ok tt, st') /\
     trace st' = trace Toy.start ++
       [ (GetCollection (make_client Toy.url (Toy.blocklist "certificates")
                                     (Some ["user"; "sec:ret"])),
          Ok (Toy.metadata "certificates"));
         (PatchCollection (make_client Toy.url (Toy.blocklist "certificates")
                                       (Some ["user"; "sec:ret"]))
                          (PDict [("status", PStr "to-sign")]),
          Ok new) ] /\
     last (stdout st') =
       Some (status_line (PStr "signed") "0 s after the epoch" (PInt 600))) /\
  (exists st',
     refresh_collection Toy.url ["user"; "sec:ret"] (Toy.blocklist "plugins")
                        Toy.start = (Ok tt, st') /\
     trace st' = trace Toy.start ++
       [ (GetCollection (make_client Toy.url (Toy.blocklist "plugins")
                                     (Some ["user"; "sec:ret"])),
          Ok (Toy.metadata "plugins")) ] /\
     last (stdout st') =
       Some (status_line (PStr "to-sign") "0 s after the epoch" (PInt 500))).
Proof.
  split.
  - edestruct (refresh_collection_patch_and_timestamp (collab := Toy.server)
                 Toy.url ["user"; "sec:ret"] (Toy.blocklist "certificates") Toy.start
                 (Toy.metadata "certificates") (Toy.data "certificates")
                 (PInt 500) (PStr "signed") 0%nat)
      as [Hsigned _]; [reflexivity..|].
    edestruct (Hsigned eq_refl) as (st' & Hrun & Htr & Hout); [reflexivity..|].
    eexists st', _. split; [exact Hrun|]. split; [exact Htr|exact Hout].
  - edestruct (refresh_collection_patch_and_timestamp (collab := Toy.server)
                 Toy.url ["user"; "sec:ret"] (Toy.blocklist "plugins") Toy.start
                 (Toy.metadata "plugins") (Toy.data "plugins")
                 (PInt 500) (PStr "to-sign") 0%nat)
      as [_ Hother]; [reflexivity..|].
    apply Hother; [by intros [=]|reflexivity].
Defined.

Lemma refresh_signature_credentials_witness :
  str_split ":" 1 "user:sec:ret" = ["user"; "sec:ret"] /\
  str_split ":" 1 "token" = ["token"].
Proof.
  pose proof (refresh_signature_credentials (collab := Toy.server)) as (Hpair & Hone & _).
  split.
  - exact (Hpair "user" "sec:ret" eq_refl).
  - exact (Hone "token" eq_refl).
Defined.

(** The registry [monitor/changes] of the small server is stale for
    [addons]: live 101, recorded 100. *)
Example changes_stale :
  (validate_changes_collection (Event (Some Toy.url) None None None) Toy.start).1
  = Raise (ValueError "One of the collection did not validate.").
Proof. reflexivity. Qed.

Example changes_up_to_date :
  (validate_changes_collection
     (Event (Some Toy.url) None None (Some "changes-preview")) Toy.start).1
  = Ok tt.
Proof. reflexivity. Qed.

Lemma validate_changes_collection_verdict_witness :
  let client := MkClient Toy.url "monitor" "changes" None in
  exists etags r st',
    validate_changes_collection (Event (Some Toy.url) None None None) Toy.start = (r, st') /\
    length etags = length (Toy.registry "changes") /\
    trace st' = trace Toy.start ++
      (GetRecords client None, Ok (PList (Toy.registry "changes"))) ::
      zip_with (entry_check client) (Toy.registry "changes") etags /\
    (r = Raise (ValueError "One of the collection did not validate.")
     <-> Exists renderings_differ (zip (Toy.registry "changes") etags)) /\
    (r = Ok tt <-> ~ Exists renderings_differ (zip (Toy.registry "changes") etags)).
Proof.
  intros client.
  refine (validate_changes_collection_verdict
            (Event (Some Toy.url) None None None) Toy.url Toy.start
            (Toy.registry "changes") 0%nat _ _ _ _).
  - reflexivity.
  - reflexivity.
  - repeat constructor; intros key Hkey;
      repeat (apply elem_of_cons in Hkey as [->|Hkey]; [by eexists|]);
      by apply elem_of_nil in Hkey.
  - intros target w. by eexists _, _.
Defined.

End Runs.

(** * Further properties of the three lambdas *)

Section Further.
Context {W : Type} {collab : Collaborators W}.

#[local] Abbreviation St := (State W).

Ltac unfold_monad :=
  unfold mbind, M_bind, mret, M_ret, bind, ret, raise, lift, modify, gets in *.

(** Closes a goal about a run whose new calls have been listed. *)
Ltac calls_done :=
  intros [= <- <-]; simpl; rewrite <- ?(assoc_L (++)); simpl;
  first [ exists []; split; [by rewrite app_nil_r|constructor]
        | eexists; (split; [done|]); repeat constructor ].

(** ** A run in which every signature verifies *)

Lemma validate_collection_passes s c (st st1 st2 : St) x :
  validate_fetch s c st = (Ok x, st1) ->
  verify_try x st1 = (Ok tt, st2) ->
  exists st3,
    validate_collection s c st = (Ok tt, st3) /\
    exception st3 = exception st /\
    messages st3 = messages st ++ [looking_at s c; "Signature OK"].
Proof.
  intros Hfetch Htry.
  destruct (validate_fetch_inv _ _ _ _ _ Hfetch) as (_ & _ & Hexc & Hmsg & _).
  destruct (verify_try_inv _ _ _ _ Htry) as (Hexc2 & Hmsg2 & _ & Hfile).
  destruct (tempfile_name (world st1)) as [[name|e] w] eqn:Hname;
    [|by destruct Hfile as (_ & _ & ?)].
  pose proof (validate_verify_staged _ _ _ _ _ _ Hname Htry) as Hrun.
  eexists. unfold validate_collection. unfold_monad. rewrite Hfetch, Hrun.
  split; [done|]. simpl. rewrite Hexc2, Hexc, Hmsg2, Hmsg, <- (assoc_L (++)).
  done.
Qed.

Lemma validate_loop_passes s cs :
  Forall (fetches s) cs -> Forall (verifies s) cs ->
  forall st : St, exists st',
    for_each cs (validate_collection s) st = (Ok tt, st') /\
    exception st' = exception st /\
    messages st' = messages st ++ (cs ≫= fun c => [looking_at s c; "Signature OK"]).
Proof.
  induction 1 as [|c cs Hc _ IH]; intros Hok st.
  { exists st. by rewrite app_nil_r. }
  apply Forall_cons in Hok as [Hcok Hok].
  destruct (Hc st) as (x & st1 & Hfetch).
  destruct (Hcok _ _ _ Hfetch) as (st2 & Htry).
  destruct (validate_collection_passes _ _ _ _ _ _ Hfetch Htry)
    as (st3 & Hrun & Hexc & Hmsg).
  destruct (IH Hok st3) as (st' & Hloop & Hexc' & Hmsg').
  exists st'. rewrite (for_each_cons_ok _ _ _ _ _ Hrun).
  split; [done|]. split; [by rewrite Hexc'|].
  rewrite Hmsg', Hmsg, <- (assoc_L (++)). done.
Qed.

(** X1: when the steps of every collection succeed and every signature
    verifies, [validate_signature] returns normally: no exception is
    pending, and the messages are, for each collection in turn, its
    [Looking at] line and [Signature OK]. *)
Theorem validate_signature_all_verify (ev : event) s (st0 : St) :
  event_server ev = Ok s ->
  Forall (fetches s) (default DEFAULT_COLLECTIONS (ev_collections ev)) ->
  Forall (verifies s) (default DEFAULT_COLLECTIONS (ev_collections ev)) ->
  exists st',
    validate_signature ev st0 = (Ok tt, st') /\
    exception st' = None /\
    messages st' =
      default DEFAULT_COLLECTIONS (ev_collections ev)
        ≫= fun c => [looking_at s c; "Signature OK"].
Proof.
  intros Hs Hfetch Hok.
  destruct (validate_loop_passes s _ Hfetch Hok (validate_start st0))
    as (st' & Hloop & Hexc & Hmsg).
  exists st'.
  rewrite (validate_signature_unfold _ _ _ Hs), Hloop, validate_report_spec, Hexc.
  done.
Qed.

(** ** What the lambdas ask of the server *)

(** A property of the calls of one iteration is a property of the calls
    of the loop. *)
Lemma for_each_calls {A} (Q : Call * Result pyval -> Prop)
    (body : A -> M W unit) (l : list A) :
  (forall x, x ∈ l -> forall st : St, exists tr,
     trace (body x st).2 = trace st ++ tr /\ Forall Q tr) ->
  forall st : St, exists tr,
    trace (for_each l body st).2 = trace st ++ tr /\ Forall Q tr.
Proof.
  induction l as [|x l IH]; intros Hbody st.
  { exists []. by rewrite app_nil_r. }
  destruct (Hbody x (list_elem_of_here _ _) st) as (tr1 & Htr1 & HQ1).
  simpl. unfold_monad.
  destruct (body x st) as [[[]|e] st1]; simpl in *; [|by exists tr1].
  destruct (IH (fun y Hy => Hbody y (list_elem_of_further _ _ _ Hy)) st1)
    as (tr2 & Htr2 & HQ2).
  exists (tr1 ++ tr2). rewrite Htr2, Htr1, <- (assoc_L (++)).
  split; [done|]. by apply Forall_app.
Qed.

Lemma validate_fetch_reads s c (st : St) :
  exists tr, trace (validate_fetch s c st).2 = trace st ++ tr /\
             Forall (fun ev => is_write ev.1 = false) tr.
Proof.
  destruct (validate_fetch s c st) as [r st1] eqn:Hrun. revert Hrun.
  unfold validate_fetch, get_collection, get_records, get_records_timestamp,
    call_world, call_pure, print.
  unfold_monad. simpl.
  destruct (kinto_get_collection _ _) as [[v|e1] w1]; simpl; [|calls_done].
  destruct (kinto_get_records _ _ _) as [[recs|e2] w2]; simpl; [|calls_done].
  destruct (kinto_get_records_timestamp _ _ _) as [[ts|e3] w3]; simpl; [|calls_done].
  destruct (canonical_json recs ts) as [ser|e4]; simpl; [|calls_done].
  destruct (compute_hash ser) as [h|e5]; simpl; [|calls_done].
  destruct (getitem v "data") as [d|e6]; simpl; [|calls_done].
  destruct (getitem d "signature") as [sg|e7]; simpl; calls_done.
Qed.

Lemma validate_collection_reads s c (st : St) :
  exists tr, trace (validate_collection s c st).2 = trace st ++ tr /\
             Forall (fun ev => is_write ev.1 = false) tr.
Proof.
  destruct (validate_fetch_reads s c st) as (tr1 & Htr1 & Hread1).
  unfold validate_collection. unfold_monad.
  destruct (validate_fetch s c st) as [[x|e] st1]; simpl in *; [|by exists tr1].
  destruct (verify_try x st1) as [r st2] eqn:Htry.
  destruct (verify_try_calls _ _ _ _ Htry) as (tr2 & Htr2 & Hcalls).
  exists (tr1 ++ tr2). rewrite validate_verify_trace, Htry; simpl.
  rewrite Htr2, Htr1, <- (assoc_L (++)). split; [done|].
  apply Forall_app. split; [done|].
  apply Forall_forall. intros [call res] Hin.
  by destruct (Hcalls _ _ Hin) as [->|[name ->]].
Qed.

Lemma validate_entry_reads client entry (st : St) :
  exists tr, trace (validate_entry client entry st).2 = trace st ++ tr /\
             Forall (fun ev => is_write ev.1 = false) tr.
Proof.
  destruct (validate_entry client entry st) as [r st1] eqn:Hrun. revert Hrun.
  unfold validate_entry, get_records_timestamp, call_world, print.
  unfold_monad.
  destruct (getitem entry "bucket") as [bid|e1]; simpl; [|calls_done].
  destruct (getitem entry "collection") as [cid|e2]; simpl; [|calls_done].
  destruct (getitem entry "last_modified") as [lm|e3]; simpl; [|calls_done].
  destruct (kinto_get_records_timestamp _ _ _) as [[etag|e4] w]; simpl; [|calls_done].
  destruct (String.eqb _ _); simpl; calls_done.
Qed.

(** X2: the two validators are read-only.  Whatever the server answers
    and however the run ends, none of the calls that [validate_signature]
    or [validate_changes_collection] makes is a [patch_collection]. *)
Theorem validators_never_write (ev : event) (st : St) :
  (exists tr, trace (validate_signature ev st).2 = trace st ++ tr /\
              Forall (fun ev => is_write ev.1 = false) tr) /\
  (exists tr, trace (validate_changes_collection ev st).2 = trace st ++ tr /\
              Forall (fun ev => is_write ev.1 = false) tr).
Proof.
  split.
  - unfold validate_signature. unfold_monad. simpl.
    destruct (event_server ev) as [s|e]; simpl;
      [|exists []; by rewrite app_nil_r].
    destruct (for_each_calls (fun ev => is_write ev.1 = false)
                (validate_collection s)
                (default DEFAULT_COLLECTIONS (ev_collections ev))
                (fun c _ => validate_collection_reads s c)
                (set_messages [] (set_exception None (set_f None st))))
      as (tr & Htr & Hread).
    exists tr.
    destruct (for_each _ _ _) as [[[]|e] st1]; simpl in *; [|done].
    rewrite validate_report_spec. by destruct (exception st1).
  - unfold validate_changes_collection, get_records, call_world, print.
    unfold_monad.
    destruct (event_server ev) as [s|e]; simpl;
      [|exists []; by rewrite app_nil_r].
    destruct (kinto_get_records _ _ _) as [[entries|e] w]; simpl.
    2:{ eexists. split; [done|]. by repeat constructor. }
    match goal with |- context [for_each entries ?body ?st1] =>
      destruct (for_each_calls (fun ev => is_write ev.1 = false) body entries
                  (fun entry _ => validate_entry_reads _ entry) st1)
        as (tr & Htr & Hread);
      destruct (for_each entries body st1) as [[[]|e] st2] end; simpl in *.
    + eexists (_ :: tr). split;
        [destruct (everything_ok st2); simpl; by rewrite Htr, <- (assoc_L (++))
        |by constructor].
    + eexists (_ :: tr). split; [by rewrite Htr, <- (assoc_L (++))|by constructor].
Qed.

(** Every way an iteration of [refresh_signature] can go: the fetch alone,
    or the fetch and then one patch. *)
Lemma refresh_collection_calls s credentials c (st : St) :
  let client := make_client s c (Some credentials) in
  exists tr, trace (refresh_collection s credentials c st).2 = trace st ++ tr /\
    ((exists r, tr = [(GetCollection client, r)]) \/
     (exists response meta r,
        tr = [ (GetCollection client, Ok response);
               (PatchCollection client (PDict [("status", PStr "to-sign")]), r) ] /\
        getitem response "data" = Ok meta /\
        getitem meta "status" = Ok (PStr "signed"))).
Proof.
  intros client.
  destruct (refresh_collection s credentials c st) as [r st1] eqn:Hrun. revert Hrun.
  unfold refresh_collection, get_collection, patch_collection, call_world, print.
  unfold_monad. simpl. fold client.
  destruct (kinto_get_collection _ _) as [[response|e1] w1]; simpl.
  2:{ intros [= <- <-]; simpl. eexists. split; [done|]. left. by eexists. }
  destruct (getitem response "data") as [meta|e2] eqn:Hdata; simpl.
  2:{ intros [= <- <-]; simpl. eexists. split; [done|]. left. by eexists. }
  destruct (getitem meta "last_modified") as [lm|e3]; simpl.
  2:{ intros [= <- <-]; simpl. eexists. split; [done|]. left. by eexists. }
  destruct (getitem meta "status") as [status|e4] eqn:Hstatus; simpl.
  2:{ intros [= <- <-]; simpl. eexists. split; [done|]. left. by eexists. }
  destruct (eq_str status "signed") eqn:Hsigned; simpl.
  - apply eq_str_true in Hsigned as ->.
    destruct (kinto_patch_collection _ _ _) as [[new|e5] w2]; simpl.
    2:{ intros [= <- <-]; simpl. rewrite <- (assoc_L (++)).
        eexists. split; [done|]. right. by eexists _, _, _. }
    destruct (getitem new "data") as [new_data|e6]; simpl.
    2:{ intros [= <- <-]; simpl. rewrite <- (assoc_L (++)).
        eexists. split; [done|]. right. by eexists _, _, _. }
    destruct (getitem new_data "last_modified") as [lm'|e7]; simpl.
    2:{ intros [= <- <-]; simpl. rewrite <- (assoc_L (++)).
        eexists. split; [done|]. right. by eexists _, _, _. }
    destruct (timestamp_to_date lm') as [date|e8]; simpl;
      intros [= <- <-]; simpl; rewrite <- (assoc_L (++));
      (eexists; split; [done|]; right; by eexists _, _, _).
  - destruct (timestamp_to_date lm) as [date|e8]; simpl;
      intros [= <- <-]; simpl; (eexists; split; [done|]; left; by eexists).
Qed.

(** X3: what [refresh_signature] asks of the server, however the run
    ends.  An iteration fetches the metadata and then issues at most
    one patch: that patch is [{status: "to-sign"}], and it follows a fetch
    that answered with the status ["signed"].  Every call of the run is
    such a fetch or such a patch, through a client built for a
    collection of the list with the credentials of the environment. *)
Theorem refresh_signature_calls (ev : event) (st : St) :
  (forall s credentials c,
     let client := make_client s c (Some credentials) in
     exists tr, trace (refresh_collection s credentials c st).2 = trace st ++ tr /\
       ((exists r, tr = [(GetCollection client, r)]) \/
        (exists response meta r,
           tr = [ (GetCollection client, Ok response);
                  (PatchCollection client (PDict [("status", PStr "to-sign")]), r) ] /\
           getitem response "data" = Ok meta /\
           getitem meta "status" = Ok (PStr "signed")))) /\
  (exists tr, trace (refresh_signature ev st).2 = trace st ++ tr /\
     forall call res, (call, res) ∈ tr ->
       exists s secret c,
         event_server ev = Ok s /\
         getenv "REFRESH_SIGNATURE_AUTH" (world st) = Some secret /\
         c ∈ default DEFAULT_COLLECTIONS (ev_collections ev) /\
         let client := make_client s c (Some (str_split ":" 1 secret)) in
         call = GetCollection client \/
         call = PatchCollection client (PDict [("status", PStr "to-sign")])).
Proof.
  split; [intros s credentials c; apply refresh_collection_calls|].
  unfold refresh_signature. unfold_monad.
  destruct (event_server ev) as [s|e] eqn:Hs; simpl.
  2:{ exists []. rewrite app_nil_r. split; [done|]. by intros ?? ?%elem_of_nil. }
  destruct (getenv "REFRESH_SIGNATURE_AUTH" (world st)) as [secret|] eqn:Henv; simpl.
  2:{ exists []. rewrite app_nil_r. split; [done|]. by intros ?? ?%elem_of_nil. }
  set (cs := default DEFAULT_COLLECTIONS (ev_collections ev)).
  destruct (for_each_calls
              (fun ev => exists c, c ∈ cs /\
                 let client := make_client s c (Some (str_split ":" 1 secret)) in
                 ev.1 = GetCollection client \/
                 ev.1 = PatchCollection client (PDict [("status", PStr "to-sign")]))
              (refresh_collection s (str_split ":" 1 secret)) cs) with (st := st)
    as (tr & Htr & Hcalls).
  { intros c Hc st1.
    destruct (refresh_collection_calls s (str_split ":" 1 secret) c st1)
      as (tr & Htr & [(r & ->)|(response & meta & r & -> & _)]);
      (eexists; split; [exact Htr|]); repeat constructor; exists c; simpl; auto. }
  exists tr. split; [done|]. intros call res Hin.
  rewrite Forall_forall in Hcalls. destruct (Hcalls _ Hin) as (c & Hc & Hcall).
  by exists s, secret, c.
Qed.

(** X4: the patch comes before the report.  When the response to the
    patch cannot be reported (it has no [data] or no [last_modified], or
    its [last_modified] cannot be rendered as a date), the iteration ends
    with that exception after the patch has been issued: the collection
    has been asked to be signed, and no status line is printed for it. *)
Theorem refresh_collection_patched_unreported s credentials c (st : St)
    response meta lm w1 new w2 e :
  let client := make_client s c (Some credentials) in
  kinto_get_collection client (world st) = (Ok response, w1) ->
  getitem response "data" = Ok meta ->
  getitem meta "last_modified" = Ok lm ->
  getitem meta "status" = Ok (PStr "signed") ->
  kinto_patch_collection client (PDict [("status", PStr "to-sign")]) w1 = (Ok new, w2) ->
  patch_report new = Raise e ->
  exists st',
    refresh_collection s credentials c st = (Raise e, st') /\
    trace st' = trace st ++
      [ (GetCollection client, Ok response);
        (PatchCollection client (PDict [("status", PStr "to-sign")]), Ok new) ] /\
    stdout st' = stdout st ++
      [ "Looking at " +:+ get_endpoint client "collection" +:+ ": ";
        "Trigger new signature: " ].
Proof.
  intros client Hget Hdata Hlm Hstatus Hpatch Hreport.
  unfold refresh_collection, get_collection, patch_collection, call_world, print.
  unfold_monad. simpl. fold client.
  rewrite Hget; simpl. rewrite Hdata; simpl. rewrite Hlm; simpl.
  rewrite Hstatus; simpl. rewrite Hpatch; simpl.
  unfold patch_report in Hreport.
  destruct (getitem new "data") as [new_data|e1]; simpl.
  2:{ injection Hreport as ->. eexists. split; [done|]. simpl.
      rewrite <- !(assoc_L (++)). split; [done|]. by rewrite !append_assoc. }
  destruct (getitem new_data "last_modified") as [lm'|e2]; simpl.
  2:{ injection Hreport as ->. eexists. split; [done|]. simpl.
      rewrite <- !(assoc_L (++)). split; [done|]. by rewrite !append_assoc. }
  rewrite Hreport; simpl.
  eexists. split; [done|]. simpl.
  rewrite <- !(assoc_L (++)). split; [done|]. by rewrite !append_assoc.
Qed.

(** X5: [timestamp_to_date] renders whole seconds: the milliseconds of an
    integer timestamp are dropped, rounding down, before the epoch too. *)
Theorem timestamp_to_date_whole_seconds (seconds milliseconds : Z) :
  0 <= milliseconds < 1000 ->
  timestamp_to_date (PInt (1000 * seconds + milliseconds))
  = utc_strftime seconds "%Y-%m-%d %H:%M:%S UTC".
Proof.
  intros Hms. unfold timestamp_to_date. simpl.
  replace ((1000 * seconds + milliseconds) `div` 1000) with seconds; [done|].
  apply Z.div_unique with milliseconds; lia.
Qed.

(** ** When the key file cannot be created *)

(** The [finally] clause reads [f], which the failed call has not bound
    anew. *)
Lemma validate_collection_unstaged s c (st st1 : St) x e0 w :
  validate_fetch s c st = (Ok x, st1) ->
  tempfile_name (world st1) = (Raise e0, w) ->
  (validate_collection s c st).1 =
  match f st with
  | None => Raise (UnboundLocalError "f")
  | Some old =>
      match fs st !! old with
      | None => Raise (FileNotFoundError old)
      | Some _ => if exn_is_Exception e0 then Ok tt else Raise e0
      end
  end.
Proof.
  intros Hfetch Hname.
  destruct (validate_fetch_inv _ _ _ _ _ Hfetch) as (Hfs & Hf & _).
  destruct (verify_try x st1) as [r st2] eqn:Htry.
  destruct (verify_try_inv _ _ _ _ Htry) as (_ & _ & _ & Hfile).
  rewrite Hname in Hfile. destruct Hfile as (Hf2 & Hfs2 & ->).
  unfold validate_collection. unfold_monad. rewrite Hfetch.
  unfold validate_verify, try_except_finally. rewrite Htry.
  destruct (exn_is_Exception e0);
    rewrite ?verify_except_spec, verify_finally_spec; simpl;
    rewrite Hf2, Hfs2, Hf, Hfs;
    (destruct (f st) as [old|]; [destruct (fs st !! old)|]); done.
Qed.

Lemma validate_collection_keeps_gone s c (st st' : St) :
  key_file_gone st ->
  validate_collection s c st = (Ok tt, st') ->
  key_file_gone st' /\ is_Some (f st').
Proof.
  intros Hgone Hrun.
  destruct (validate_fetch s c st) as [[x|e] st1] eqn:Hfetch.
  2:{ by rewrite (validate_collection_raise _ _ _ _ _ Hfetch) in Hrun. }
  destruct (tempfile_name (world st1)) as [[name|e0] w] eqn:Hname.
  - destruct (verify_try x st1) as [r st2] eqn:Htry.
    destruct (verify_try_inv _ _ _ _ Htry) as (_ & _ & _ & Hfile).
    rewrite Hname in Hfile. destruct Hfile as (Hf2 & _).
    pose proof (validate_verify_staged _ _ _ _ _ _ Hname Htry) as Hstaged.
    unfold validate_collection in Hrun. unfold_monad.
    rewrite Hfetch, Hstaged in Hrun. unfold key_file_gone.
    destruct r as [[]|e]; [|destruct (exn_is_Exception e); [|done]];
      injection Hrun as <-; simpl; rewrite Hf2;
      (split; [apply lookup_delete_eq|by eexists]).
  - pose proof (validate_collection_unstaged _ _ _ _ _ _ _ Hfetch Hname) as Hres.
    rewrite Hrun in Hres. unfold key_file_gone in Hgone. simpl in Hres.
    destruct (f st) as [old|]; [|done]. by rewrite Hgone in Hres.
Qed.

Lemma validate_loop_keeps_gone s cs (st st' : St) :
  key_file_gone st ->
  for_each cs (validate_collection s) st = (Ok tt, st') ->
  key_file_gone st' /\ (cs <> [] -> is_Some (f st')).
Proof.
  revert st. induction cs as [|c cs IH]; intros st Hgone Hloop.
  { injection Hloop as <-. done. }
  simpl in Hloop. unfold_monad.
  destruct (validate_collection s c st) as [[[]|e] st1] eqn:Hrun; [|done].
  destruct (validate_collection_keeps_gone _ _ _ _ Hgone Hrun) as (Hgone1 & Hf1).
  destruct (IH _ Hgone1 Hloop) as (Hgone' & Hf').
  split; [done|]. intros _. destruct cs as [|c' cs]; [|by apply Hf'].
  by injection Hloop as <-.
Qed.

(** X6: a failure to create the key file is never reported as such.
    When [NamedTemporaryFile] raises in some iteration of
    [validate_signature], the [finally] clause raises in its turn and the
    run ends there: with [UnboundLocalError] for [f] in the first
    iteration, and in a later one with [FileNotFoundError] for the key
    file of the iteration before, which is already deleted.  No
    [ValidationError] is raised, whatever failed before. *)
Theorem key_file_creation_failure (ev : event) s (st0 st1 st2 : St) cs1 c cs2 x e0 w :
  event_server ev = Ok s ->
  default DEFAULT_COLLECTIONS (ev_collections ev) = cs1 ++ c :: cs2 ->
  for_each cs1 (validate_collection s) (validate_start st0) = (Ok tt, st1) ->
  validate_fetch s c st1 = (Ok x, st2) ->
  tempfile_name (world st2) = (Raise e0, w) ->
  exists err st',
    validate_signature ev st0 = (Raise err, st') /\
    (cs1 = [] /\ err = UnboundLocalError "f" \/
     cs1 <> [] /\ exists name, err = FileNotFoundError name /\ fs st1 !! name = None).
Proof.
  intros Hs Hcs Hloop Hfetch Hname.
  assert (key_file_gone (validate_start st0)) as Hstart by done.
  destruct (validate_loop_keeps_gone _ _ _ _ Hstart Hloop) as (Hgone & Hbound).
  pose proof (validate_collection_unstaged _ _ _ _ _ _ _ Hfetch Hname) as Hres.
  rewrite (validate_signature_unfold _ _ _ Hs), Hcs, for_each_app, Hloop.
  simpl. unfold_monad.
  destruct (validate_collection s c st1) as [r st'] eqn:Hrun. simpl in Hres.
  exists (match f st1 with
          | None => UnboundLocalError "f"
          | Some old => FileNotFoundError old
          end), st'.
  unfold key_file_gone in Hgone.
  destruct cs1 as [|c1 cs1].
  - injection Hloop as <-. simpl in *. subst r. split; [done|]. by left.
  - destruct (Hbound ltac:(done)) as [old Hold]. rewrite Hold in *.
    rewrite Hgone in Hres. subst r. split; [done|]. right.
    split; [done|]. by exists old.
Qed.

(** ** The registry check at its edges *)

Lemma validate_entry_malformed client entry (st : St) e :
  entry_error entry = Some e ->
  validate_entry client entry st = (Raise e, st).
Proof.
  unfold entry_error, validate_entry. unfold_monad.
  destruct (getitem entry "bucket") as [bid|e1]; simpl; [|by intros [= ->]].
  destruct (getitem entry "collection") as [cid|e2]; simpl; [|by intros [= ->]].
  destruct (getitem entry "last_modified") as [lm|e3]; simpl; [done|].
  by intros [= ->].
Qed.

Lemma validate_entry_unreachable client entry (st : St) e w :
  well_formed_entry entry ->
  kinto_get_records_timestamp client
    (Some (field entry "bucket", field entry "collection")) (world st) = (Raise e, w) ->
  exists st',
    validate_entry client entry st = (Raise e, st') /\
    trace st' = trace st ++
      [(GetRecordsTimestamp client
          (Some (field entry "bucket", field entry "collection")), Raise e)] /\
    stdout st' = stdout st.
Proof.
  intros Hwf Hts.
  destruct (Hwf "bucket") as (bid & Hbid); [set_solver|].
  destruct (Hwf "collection") as (cid & Hcid); [set_solver|].
  destruct (Hwf "last_modified") as (lm & Hlm); [set_solver|].
  rewrite (field_getitem _ _ _ Hbid), (field_getitem _ _ _ Hcid) in Hts |- *.
  unfold validate_entry, get_records_timestamp, call_world, print.
  unfold_monad. rewrite Hbid, Hcid, Hlm; simpl. rewrite Hts; simpl.
  by eexists.
Qed.

(** The entries checked before the one that stops the run. *)
Lemma validate_entries_checked client entries :
  Forall well_formed_entry entries ->
  Forall (timestamp_readable client) entries ->
  forall st : St, exists etags st',
    for_each entries (validate_entry client) st = (Ok tt, st') /\
    length etags = length entries /\
    trace st' = trace st ++ zip_with (entry_check client) entries etags.
Proof.
  intros Hwf. induction Hwf as [|entry entries Hentry _ IH]; intros Hlive st.
  { exists [], st. by rewrite app_nil_r. }
  apply Forall_cons in Hlive as [Hread Hlive].
  destruct (Hread (world st)) as (etag & w & Hts).
  destruct (validate_entry_spec _ _ _ _ _ Hentry Hts) as (st1 & Hrun & Htr & _).
  destruct (IH Hlive st1) as (etags & st' & Hloop & Hlen & Htr').
  exists (etag :: etags), st'.
  rewrite (for_each_cons_ok _ _ _ _ _ Hrun). split; [done|]. simpl.
  split; [by rewrite Hlen|]. by rewrite Htr', Htr, <- (assoc_L (++)).
Qed.

(** X7: [validate_changes_collection] does not recover from an error on
    an entry.  Once the entries before it have been checked, and whatever
    they showed, an entry that lacks one of its three keys ends the run
    with the [KeyError] of the first key missing, its own timestamp not
    being fetched; and an entry whose timestamp cannot be read ends the
    run with the client's exception, that reading being the last call.
    Either way the entries after it are not checked, and the [ValueError]
    for a mismatch found earlier is not raised. *)
Theorem validate_changes_collection_stops (ev : event) s (st : St)
    before entry after w e failed :
  event_server ev = Ok s ->
  let client := MkClient s (default "monitor" (ev_bucket ev))
                           (default "changes" (ev_collection ev)) None in
  kinto_get_records client None (world st) = (Ok (before ++ entry :: after), w) ->
  Forall well_formed_entry before ->
  Forall (timestamp_readable client) before ->
  entry_stops client entry e failed ->
  exists etags st',
    validate_changes_collection ev st = (Raise e, st') /\
    length etags = length before /\
    trace st' = trace st ++
      (GetRecords client None, Ok (PList (before ++ entry :: after))) ::
      zip_with (entry_check client) before etags ++ failed.
Proof.
  intros Hs client Hrecords Hwf Hlive Hstop.
  unfold validate_changes_collection, get_records, call_world, print.
  unfold_monad. rewrite Hs; simpl. fold client. rewrite Hrecords; simpl.
  rewrite for_each_app.
  match goal with |- context [for_each before _ ?st1] =>
    destruct (validate_entries_checked client before Hwf Hlive st1)
      as (etags & st' & Hloop & Hlen & Htr) end.
  rewrite Hloop. simpl in Htr.
  destruct Hstop as [[Herr ->]|(Hgood & -> & Hraise)].
  - rewrite (for_each_cons_raise _ _ _ _ _ _ (validate_entry_malformed _ _ st' _ Herr)).
    exists etags, st'. split; [done|]. split; [done|].
    by rewrite Htr, app_nil_r, <- (assoc_L (++)).
  - destruct (Hraise (world st')) as (w' & Hts).
    destruct (validate_entry_unreachable _ _ _ _ _ Hgood Hts) as (st'' & Hrun & Htr' & _).
    rewrite (for_each_cons_raise _ _ _ _ _ _ Hrun).
    exists etags, st''. split; [done|]. split; [done|].
    by rewrite Htr', Htr, <- !(assoc_L (++)).
Qed.

(** X8: the comparison is one of renderings.  Against an integer
    [last_modified] a timestamp that comes as a string passes exactly
    when it is the decimal rendering of that integer (so ["0100"] does
    not match [100]), and one that comes as an integer passes exactly
    when it is that integer. *)
Theorem validate_entry_renderings client entry (st : St) etag z w :
  well_formed_entry entry ->
  field entry "last_modified" = PInt z ->
  kinto_get_records_timestamp client
    (Some (field entry "bucket", field entry "collection")) (world st) = (Ok etag, w) ->
  exists st',
    validate_entry client entry st = (Ok tt, st') /\
    (forall text, etag = PStr text ->
       everything_ok st' = everything_ok st && bool_decide (text = pretty z)) /\
    (forall n, etag = PInt n ->
       everything_ok st' = everything_ok st && bool_decide (n = z)).
Proof.
  intros Hwf Hlm Hts.
  destruct (validate_entry_spec _ _ _ _ _ Hwf Hts) as (st' & Hrun & _ & Hok).
  exists st'. split; [done|]. rewrite Hok, Hlm. simpl. split.
  - intros text ->. simpl. f_equal.
    destruct (String.eqb_spec text (pretty z)) as [->|Hne].
    + by rewrite bool_decide_eq_true_2.
    + by rewrite bool_decide_eq_false_2.
  - intros n ->. simpl. f_equal.
    destruct (String.eqb_spec (pretty n) (pretty z)) as [Heq|Hne].
    + apply (inj pretty) in Heq as ->. by rewrite bool_decide_eq_true_2.
    + rewrite bool_decide_eq_false_2; [done|]. by intros ->.
Qed.

(** ** The order of the queries *)

Lemma queried_app (tr1 tr2 : list (Call * Result pyval)) :
  queried (tr1 ++ tr2) = queried tr1 ++ queried tr2.
Proof. apply omap_app. Qed.

Lemma validate_collection_queried s c (st st1 : St) x :
  stages -> verifier_raises_Exception ->
  validate_fetch s c st = (Ok x, st1) ->
  exists st3 tr,
    validate_collection s c st = (Ok tt, st3) /\
    trace st3 = trace st ++ tr /\
    queried tr = [make_client s c None].
Proof.
  intros Hstage Hver Hfetch.
  destruct (validate_collection_iteration _ _ _ _ _ Hstage Hver Hfetch)
    as (r & st2 & st3 & Htry & Hrun & _ & _ & tr0 & Htr).
  destruct (verify_try_calls _ _ _ _ Htry) as (tr2 & Htr2 & Hcalls).
  destruct (validate_fetch_inv _ _ _ _ _ Hfetch) as (_ & _ & _ & _ & _ & Hok).
  destruct (Hok x eq_refl) as (Htr1 & _).
  assert (trace st3 = trace st2) as Hsame.
  { pose proof (validate_verify_trace x st1) as Hv. rewrite Htry in Hv.
    unfold validate_collection in Hrun. unfold_monad. rewrite Hfetch in Hrun.
    by rewrite Hrun in Hv. }
  exists st3, (fetch_trace (make_client s c None) x ++ tr2).
  split; [done|]. split; [by rewrite Hsame, Htr2, Htr1, <- (assoc_L (++))|].
  rewrite queried_app. simpl.
  assert (queried tr2 = []) as ->; [|done].
  clear Htr2. induction tr2 as [|[call res] tr2 IH]; [done|].
  unfold queried in *. simpl.
  destruct (Hcalls call res (list_elem_of_here _ _)) as [->|[name ->]]; simpl;
    apply IH; intros call' res' Hin; apply (Hcalls call' res');
    by apply list_elem_of_further.
Qed.

(** X9: in a run whose fetches succeed, [validate_signature] fetches the
    metadata of each collection of the list once, in the order of the
    list; an event without [collections] gives the five default
    collections. *)
Theorem validate_signature_queries_in_order (ev : event) s (st0 : St) :
  event_server ev = Ok s ->
  stages -> verifier_raises_Exception ->
  Forall (fetches s) (default DEFAULT_COLLECTIONS (ev_collections ev)) ->
  exists tr,
    trace (validate_signature ev st0).2 = trace st0 ++ tr /\
    queried tr =
      (fun c => make_client s c None) <$> default DEFAULT_COLLECTIONS (ev_collections ev).
Proof.
  intros Hs Hstage Hver Hfetch.
  rewrite (validate_signature_unfold _ _ _ Hs).
  assert (forall st : St, exists st' tr,
            for_each (default DEFAULT_COLLECTIONS (ev_collections ev))
                     (validate_collection s) st = (Ok tt, st') /\
            trace st' = trace st ++ tr /\
            queried tr = (fun c => make_client s c None)
                           <$> default DEFAULT_COLLECTIONS (ev_collections ev))
    as Hloop.
  { induction Hfetch as [|c cs Hc _ IH]; intros st.
    { exists st, []. by rewrite app_nil_r. }
    destruct (Hc st) as (x & st1 & Hfx).
    destruct (validate_collection_queried _ _ _ _ _ Hstage Hver Hfx)
      as (st3 & tr1 & Hrun & Htr1 & Hq1).
    destruct (IH st3) as (st' & tr2 & Hloop & Htr2 & Hq2).
    exists st', (tr1 ++ tr2). rewrite (for_each_cons_ok _ _ _ _ _ Hrun).
    split; [done|]. split; [by rewrite Htr2, Htr1, <- (assoc_L (++))|].
    by rewrite queried_app, Hq1, Hq2. }
  destruct (Hloop (validate_start st0)) as (st' & tr & -> & Htr & Hq).
  exists tr. rewrite validate_report_spec. split; [|done].
  by destruct (exception st').
Qed.

(** ** Splitting and joining *)

Lemma partition_spec sep s before after :
  partition sep s = Some (before, after) ->
  s = before +:+ String sep after /\ has_char sep before = false.
Proof.
  revert before. induction s as [|a s IH]; intros before; simpl; [done|].
  destruct (Ascii.eqb a sep) eqn:Ha.
  - apply Ascii.eqb_eq in Ha as ->. by intros [= <- <-].
  - destruct (partition sep s) as [[b1 a1]|]; [|done].
    intros [= <- <-]. destruct (IH b1 eq_refl) as (-> & Hb1).
    split; [done|]. simpl. by rewrite Ha.
Qed.

(** X10: the credentials are not altered by the split.  Joining the parts
    of [s.split(sep, maxsplit)] with the separator gives [s] back; there
    are between one and [maxsplit + 1] parts, and when there are more
    than one, the first holds no separator. *)
Theorem str_split_join sep maxsplit s :
  String.concat (String sep "") (str_split sep maxsplit s) = s /\
  (1 <= length (str_split sep maxsplit s) <= maxsplit + 1)%nat /\
  (forall first rest, str_split sep maxsplit s = first :: rest -> rest <> [] ->
     has_char sep first = false).
Proof.
  revert s. induction maxsplit as [|n IH]; intros s; simpl.
  { repeat split; [lia..|]. by intros first rest [= <- <-]. }
  destruct (partition sep s) as [[before after]|] eqn:Hpart.
  - destruct (partition_spec _ _ _ _ Hpart) as (-> & Hbefore).
    destruct (IH after) as (Hjoin & Hlen & _).
    split; [|split; [simpl; lia|by intros first rest [= <- <-] _]].
    simpl. destruct (str_split sep n after) as [|x rest] eqn:Hsplit.
    + simpl in Hlen. lia.
    + by rewrite Hjoin.
  - repeat split; [simpl; lia..|]. by intros first rest [= <- <-].
Qed.

End Further.

(** * [schema_updater] *)

Section SchemaTheory.
Context {W : Type} {collab : Collaborators W} {lib : SchemaLibrary W}.

#[local] Abbreviation St := (State W).

Ltac unfold_monad :=
  unfold mbind, M_bind, mret, M_ret, bind, ret, raise, lift, modify, gets in *.

(** The library reaches the server through the function it was handed,
    and prints nothing. *)
Lemma run_library_calls client (l : Library W) (st : St) :
  stdout (run_library client l st).2 = stdout st /\
  exists tr, trace (run_library client l st).2 = trace st ++ tr /\
    Forall (fun ev => exists data, ev.1 = PatchCollection client data) tr.
Proof.
  revert st. induction l as [r w|w data k IH]; intros st; simpl.
  { split; [done|]. exists []. by rewrite app_nil_r. }
  unfold patch_collection, call_world. simpl.
  destruct (kinto_patch_collection client data w) as [r w'].
  match goal with |- context [run_library client _ ?st1] =>
    destruct (IH r w' st1) as (Hout & tr & Htr & Hcalls) end.
  simpl in *. split; [done|].
  exists ((PatchCollection client data, result_map id r) :: tr).
  rewrite Htr, <- (assoc_L (++)). split; [done|].
  constructor; [by exists data|done].
Qed.

Lemma schema_collection_spec s credentials schemas c (st : St) :
  let client := make_client s c (Some credentials) in
  let run := schema_collection s credentials schemas c st in
  stdout run.2 = stdout st ++
    ("Checking at " +:+ get_endpoint client "collection" +:+ ": ") ::
    match run.1 with Ok _ => ["OK" +:+ nl] | Raise _ => [] end /\
  exists r patches,
    trace run.2 = trace st ++ (GetCollection client, r) :: patches /\
    Forall (fun ev => exists data, ev.1 = PatchCollection client data) patches /\
    (patches <> [] -> exists config, collection_config schemas c = Ok config).
Proof.
  intros client run. subst run.
  unfold schema_collection, get_collection, call_world, print, collection_config.
  unfold_monad. simpl. fold client.
  assert (forall a : string, a +:+ "" = a) as Hnil.
  { intros a. induction a as [|x a IH]; [done|].
    change (String x (a +:+ "") = String x a). by rewrite IH. }
  destruct (kinto_get_collection _ _) as [[dest_col|e1] w1]; simpl.
  2:{ rewrite Hnil. split; [done|]. by eexists _, []. }
  destruct (getitem schemas (collection_of c)) as [entry|e2]; simpl.
  2:{ rewrite Hnil. split; [done|]. by eexists _, []. }
  destruct (getitem entry "config") as [config|e3]; simpl.
  2:{ rewrite Hnil. split; [done|]. by eexists _, []. }
  match goal with |- context [run_library client ?l ?st1] =>
    destruct (run_library_calls client l st1) as (Hout & tr & Htr & Hcalls);
    destruct (run_library client l st1) as [[[]|e] st2] end; simpl in *.
  - rewrite Hout, Hnil, <- (assoc_L (++)). split; [done|].
    eexists _, tr. rewrite Htr, <- (assoc_L (++)). split; [done|].
    split; [done|]. by eexists.
  - rewrite Hout, Hnil. split; [done|].
    eexists _, tr. rewrite Htr, <- (assoc_L (++)). split; [done|].
    split; [done|]. by eexists.
Qed.

(** X11: an iteration of [schema_updater] prints [OK] for its collection
    exactly when it returns, that is when the fetch, the lookup of the
    configuration and the library call have all succeeded.  It fetches
    the collection first; the library patches it, if at all, after that
    and only when [schemas.json] has a configuration for the collection. *)
Theorem schema_collection_report s credentials schemas c (st : St) :
  let client := make_client s c (Some credentials) in
  let run := schema_collection s credentials schemas c st in
  stdout run.2 = stdout st ++
    ("Checking at " +:+ get_endpoint client "collection" +:+ ": ") ::
    match run.1 with Ok _ => ["OK" +:+ nl] | Raise _ => [] end /\
  exists r patches,
    trace run.2 = trace st ++ (GetCollection client, r) :: patches /\
    Forall (fun ev => exists data, ev.1 = PatchCollection client data) patches /\
    (patches <> [] -> exists config, collection_config schemas c = Ok config).
Proof. apply schema_collection_spec. Qed.

(** X12: a collection for which [schemas.json] has no configuration ends
    the run of [schema_updater]: once the collection has been fetched, the
    lookup raises (a [KeyError] for a missing name); nothing is patched
    for it, [OK] is not printed, and the collections after it are not
    processed. *)
Theorem schema_updater_unknown_collection s credentials schemas c rest (st : St)
    dest_col w e :
  let client := make_client s c (Some credentials) in
  kinto_get_collection client (world st) = (Ok dest_col, w) ->
  collection_config schemas c = Raise e ->
  exists st',
    for_each (c :: rest) (schema_collection s credentials schemas) st = (Raise e, st') /\
    trace st' = trace st ++ [(GetCollection client, Ok dest_col)] /\
    stdout st' = stdout st ++ ["Checking at " +:+ get_endpoint client "collection" +:+ ": "].
Proof.
  intros client Hget Hconfig.
  assert (exists st',
            schema_collection s credentials schemas c st = (Raise e, st') /\
            trace st' = trace st ++ [(GetCollection client, Ok dest_col)] /\
            stdout st' = stdout st ++
              ["Checking at " +:+ get_endpoint client "collection" +:+ ": "])
    as (st' & Hrun & Htr & Hout).
  { unfold schema_collection, get_collection, call_world, print.
    unfold collection_config in Hconfig.
    unfold_monad. simpl. fold client. rewrite Hget; simpl.
    destruct (getitem schemas (collection_of c)) as [entry|e2]; simpl.
    - rewrite Hconfig; simpl. eexists. split; [done|]. split; [done|]. simpl.
      by rewrite append_nil_r.
    - injection Hconfig as ->. eexists. split; [done|]. split; [done|]. simpl.
      by rewrite append_nil_r. }
  exists st'. split; [|done]. simpl. unfold_monad. by rewrite Hrun.
Qed.

(** X13: every call that [schema_updater] makes to the server, however
    the run ends, is a fetch or a patch through a client built for a
    collection of the list with the credentials of [AUTH]. *)
Theorem schema_updater_calls (ev : event) (st : St) :
  exists tr, trace (schema_updater ev st).2 = trace st ++ tr /\
    forall call res, (call, res) ∈ tr ->
      exists s secret c,
        event_server ev = Ok s /\
        getenv "AUTH" (world st) = Some secret /\
        c ∈ default SCHEMA_COLLECTIONS (ev_collections ev) /\
        let client := make_client s c (Some (str_split ":" 1 secret)) in
        call = GetCollection client \/ exists data, call = PatchCollection client data.
Proof.
  unfold schema_updater. unfold_monad.
  destruct (event_server ev) as [s|e] eqn:Hs; simpl.
  2:{ exists []. rewrite app_nil_r. split; [done|]. by intros ?? ?%elem_of_nil. }
  destruct (getenv "AUTH" (world st)) as [secret|] eqn:Henv; simpl.
  2:{ exists []. rewrite app_nil_r. split; [done|]. by intros ?? ?%elem_of_nil. }
  destruct (json_load_file "schemas.json" (world st)) as [[document|e] w]; simpl.
  2:{ exists []. rewrite app_nil_r. split; [done|]. by intros ?? ?%elem_of_nil. }
  destruct (getitem document "collections") as [schemas|e]; simpl.
  2:{ exists []. rewrite app_nil_r. split; [done|]. by intros ?? ?%elem_of_nil. }
  set (cs := default SCHEMA_COLLECTIONS (ev_collections ev)).
  destruct (for_each_calls
              (fun ev => exists c, c ∈ cs /\
                 let client := make_client s c (Some (str_split ":" 1 secret)) in
                 ev.1 = GetCollection client \/
                 exists data, ev.1 = PatchCollection client data)
              (schema_collection s (str_split ":" 1 secret) schemas) cs)
    with (st := set_world w st) as (tr & Htr & Hcalls).
  { intros c Hc st1.
    destruct (schema_collection_spec s (str_split ":" 1 secret) schemas c st1)
      as (_ & r & patches & Htr & Hpatches & _).
    eexists. split; [exact Htr|]. constructor.
    - exists c. split; [done|]. by left.
    - eapply Forall_impl; [exact Hpatches|]. intros ev' [data Hdata].
      exists c. split; [done|]. right. by exists data. }
  exists tr. split; [done|]. intros call res Hin.
  rewrite Forall_forall in Hcalls. destruct (Hcalls _ Hin) as (c & Hc & Hcall).
  by exists s, secret, c.
Qed.

(** X14: a configuration error stops a lambda before it calls anything.
    Without [server] in the event, each of the four lambdas that talk to
    the Kinto server raises [KeyError] for ['server']; with it but without
    their environment variable, [refresh_signature] and [schema_updater]
    raise [AttributeError]: in every case no call has been made, not even
    to open [schemas.json], and nothing has been printed. *)
Theorem configuration_errors (ev : event) (st : St) :
  (ev_server ev = None ->
     validate_signature ev st = (Raise (KeyError "server"), set_f None st) /\
     validate_changes_collection ev st = (Raise (KeyError "server"), st) /\
     refresh_signature ev st = (Raise (KeyError "server"), st) /\
     schema_updater ev st = (Raise (KeyError "server"), st)) /\
  (forall s, ev_server ev = Some s ->
     (getenv "REFRESH_SIGNATURE_AUTH" (world st) = None ->
        refresh_signature ev st =
        (Raise (AttributeError "'NoneType' object has no attribute 'split'"), st)) /\
     (getenv "AUTH" (world st) = None ->
        schema_updater ev st =
        (Raise (AttributeError "'NoneType' object has no attribute 'split'"), st))).
Proof.
  split.
  - intros Hnone.
    unfold validate_signature, validate_changes_collection, refresh_signature,
      schema_updater, event_server.
    unfold_monad. by rewrite Hnone.
  - intros s Hs. unfold refresh_signature, schema_updater, event_server.
    unfold_monad. rewrite Hs. simpl. split; by intros ->.
Qed.

End SchemaTheory.

(** * The publication lambdas *)

Section PublicationTheory.
Context {W : Type} {collab : Collaborators W} {pub : Publishing W}.

#[local] Abbreviation St := (State (Outside W)).

Ltac unfold_monad :=
  unfold mbind, M_bind, mret, M_ret, bind, ret, raise, lift, modify, gets in *.

(** ** The arguments of the generator *)

Lemma last_cons_from_option {A} (x : A) (l : list A) (o : option A) :
  from_option Some (Some x) (last l) = from_option Some o (last (x :: l)).
Proof. rewrite last_cons. by destruct (last l). Qed.

Lemma blockpages_items pairs args kwargs :
  let acc := foldl blockpages_item (args, kwargs) pairs in
  acc.1 = args ++ generator_options pairs /\
  (forall name, name ∈ ["aws_region"; "bucket_name"] ->
     acc.2 !! name = from_option Some (kwargs !! name) (keyword name pairs)) /\
  dom acc.2 ⊆ dom kwargs ∪ ({["aws_region"; "bucket_name"]} : gset string).
Proof.
  revert args kwargs. induction pairs as [|[key value] pairs IH]; intros args kwargs.
  { simpl. rewrite app_nil_r. split; [done|]. split; [done|]. set_solver. }
  simpl. unfold generator_options, keyword. simpl.
  fold (generator_options pairs).
  destruct (bool_decide (key ∈ BLOCKPAGES_ARGS)) eqn:Hkey; simpl.
  - destruct (IH (args ++ [PStr ("--" +:+ key); value]) kwargs) as (Hargs & Hkw & Hdom).
    rewrite Hargs, <- (assoc_L (++)). split; [done|]. split; [|done].
    intros name Hname. by rewrite (Hkw name Hname).
  - destruct (bool_decide (lower key ∈ ["aws_region"; "bucket_name"])) eqn:Hlow; simpl.
    + apply bool_decide_eq_true in Hlow.
      destruct (IH args (<[lower key := value]> kwargs)) as (Hargs & Hkw & Hdom).
      split; [done|]. split.
      * intros name Hname. rewrite (Hkw name Hname). unfold keyword.
        destruct (bool_decide (lower key = name)) eqn:Hn; simpl.
        -- apply bool_decide_eq_true in Hn as <-. rewrite lookup_insert_eq.
           apply last_cons_from_option.
        -- apply bool_decide_eq_false in Hn. by rewrite (lookup_insert_ne kwargs _ _ _ Hn).
      * rewrite dom_insert in Hdom. set_solver.
    + apply bool_decide_eq_false in Hlow.
      destruct (IH args kwargs) as (Hargs & Hkw & Hdom).
      split; [done|]. split; [|done].
      intros name Hname. rewrite (Hkw name Hname). unfold keyword.
      rewrite bool_decide_eq_false_2; [done|]. intros Heq. apply Hlow. by rewrite Heq.
Qed.

(** The arguments and the keywords that the loop over the event leaves. *)
Lemma blockpages_kwargs pairs dir :
  let acc := foldl blockpages_item ([], ∅) pairs in
  acc.1 = generator_options pairs /\
  sync_to_s3_kwargs dir acc.2 =
    sync_to_s3 dir (default (PStr AWS_REGION) (keyword "aws_region" pairs))
                   (default (PStr BUCKET_NAME) (keyword "bucket_name" pairs)).
Proof.
  destruct (blockpages_items pairs [] ∅) as (Hargs & Hkw & Hdom).
  split; [done|]. unfold sync_to_s3_kwargs.
  rewrite bool_decide_eq_true_2 by set_solver.
  rewrite !Hkw by set_solver. rewrite !lookup_empty.
  by destruct (keyword "aws_region" pairs), (keyword "bucket_name" pairs).
Qed.

(** X15: the generator is given the options of the event, in the order of
    the event, then the temporary directory; keys that are no option of
    the generator are left out.  When the generator fails, the lambda
    ends with its exception: the second line is not printed and nothing
    is asked of S3. *)
Theorem blockpages_generator_failure pairs (st : St) dir w1 e w2 :
  let args := generator_options pairs ++ [PStr "--target-dir"; PStr dir] in
  mkdtemp (outside (world st)) = (Ok dir, w1) ->
  generator_main args w1 = (Raise e, w2) ->
  exists st',
    blockpages_generator (PDict pairs) st = (Raise e, st') /\
    ops (world st') = ops (world st) ++
      [(Mkdtemp, Ok (PStr dir)); (GeneratorMain args, Raise e)] /\
    stdout st' = stdout st ++
      ["Blocked pages generator args " +:+ str (PList args) +:+ nl].
Proof.
  intros args Hdir Hgen. unfold blockpages_generator, lift. unfold_monad. simpl.
  destruct (blockpages_kwargs pairs dir) as [Hargs _].
  destruct (foldl blockpages_item ([], ∅) pairs) as [args0 kwargs].
  simpl in Hargs. subst args0 args.
  set (options := generator_options pairs) in *. clearbody options.
  unfold op, print. unfold_monad. simpl. rewrite Hdir. simpl. rewrite Hgen. simpl.
  eexists. split; [done|]. simpl. by rewrite <- (assoc_L (++)).
Qed.

(** X16: when the generator succeeds, its directory is what is sent to
    S3.  The region and the bucket are the values the event gives under
    a key whose lower case is [aws_region] or [bucket_name] (the last
    such key, when there are several), and the defaults otherwise; the
    keywords are never refused. *)
Theorem blockpages_generator_sync pairs (st : St) dir w1 w2 :
  let args := generator_options pairs ++ [PStr "--target-dir"; PStr dir] in
  mkdtemp (outside (world st)) = (Ok dir, w1) ->
  generator_main args w1 = (Ok tt, w2) ->
  exists st2,
    blockpages_generator (PDict pairs) st =
      sync_to_s3 dir (default (PStr AWS_REGION) (keyword "aws_region" pairs))
                     (default (PStr BUCKET_NAME) (keyword "bucket_name" pairs)) st2 /\
    outside (world st2) = w2 /\
    ops (world st2) = ops (world st) ++
      [(Mkdtemp, Ok (PStr dir)); (GeneratorMain args, Ok PNone)] /\
    stdout st2 = stdout st ++
      [ "Blocked pages generator args " +:+ str (PList args) +:+ nl;
        "Send results to s3 " +:+ str (PList args) +:+ nl ].
Proof.
  intros args Hdir Hgen. unfold blockpages_generator, lift. unfold_monad. simpl.
  destruct (blockpages_kwargs pairs dir) as [Hargs Hsync].
  destruct (foldl blockpages_item ([], ∅) pairs) as [args0 kwargs].
  simpl in Hargs, Hsync. subst args0 args.
  set (options := generator_options pairs) in *. clearbody options.
  unfold op, print. unfold_monad. simpl. rewrite Hdir. simpl. rewrite Hgen. simpl.
  rewrite Hsync. eexists. split; [done|]. simpl.
  by rewrite <- !(assoc_L (++)).
Qed.

(** ** [sync_to_s3] *)

(** X17: without the directory, nothing is asked of S3: the only call is
    the test of the directory, and the [ValueError] names it. *)
Theorem sync_to_s3_missing_directory dir region bucket (st : St) :
  isdir dir (outside (world st)) = false ->
  exists st',
    sync_to_s3 dir region bucket st =
      (Raise (ValueError ("target_dir " +:+ repr dir +:+ " not found.")), st') /\
    ops (world st') = ops (world st) ++ [(IsDir dir, Ok (PBool false))] /\
    outside (world st') = outside (world st) /\
    stdout st' = stdout st.
Proof.
  intros Hdir. unfold sync_to_s3, op. unfold_monad. simpl. rewrite Hdir. simpl.
  eexists. by split.
Qed.

(** X18: an error of the creation of the bucket.  A [ClientError] is
    dropped, whatever it says: the files are uploaded from the state the
    failed call left.  Any other exception ends [sync_to_s3] before the
    directory is listed. *)
Theorem sync_to_s3_create_bucket_error dir region bucket (st : St) w1 e w2 :
  isdir dir (outside (world st)) = true ->
  boto3_resource region (outside (world st)) = (Ok tt, w1) ->
  create_bucket bucket region w1 = (Raise e, w2) ->
  exists st2,
    outside (world st2) = w2 /\
    ops (world st2) = ops (world st) ++
      [ (IsDir dir, Ok (PBool true)); (S3Resource region, Ok PNone);
        (CreateBucket bucket region, Raise e) ] /\
    stdout st2 = stdout st /\
    sync_to_s3 dir region bucket st =
      if is_ClientError e then upload_files dir region bucket st2 else (Raise e, st2).
Proof.
  intros Hdir Hs3 Hbucket. unfold sync_to_s3, try_except, op. unfold_monad. simpl.
  rewrite Hdir. simpl. rewrite Hs3. simpl. rewrite Hbucket. simpl.
  eexists. split; [|split; [|split]].
  4:{ destruct (is_ClientError e); reflexivity. }
  - done.
  - simpl. by rewrite <- !(assoc_L (++)).
  - done.
Qed.

(** One turn of the loop. *)
Lemma upload_spec dir region bucket filename (st : St) :
  let line := "Uploading " +:+ filename +:+ " to Amazon S3 bucket " +:+ str bucket +:+ nl in
  let path := path_join dir filename in
  let run := upload dir region bucket filename st in
  match run.1 with
  | Ok _ =>
      exists body,
        ops (world run.2) = ops (world st) ++ upload_ops dir bucket filename body /\
        stdout run.2 = stdout st ++ upload_lines region bucket filename
  | Raise e =>
      stdout run.2 = stdout st ++ [line] /\
      exists failure,
        ops (world run.2) = ops (world st) ++ failure /\
        (failure = [(OpenFile path, Raise e)] \/
         exists body,
           failure = [ (OpenFile path, Ok (PStr body));
                       (PutObject bucket filename body "text/html", Raise e) ])
  end.
Proof.
  intros line path run. subst run line. unfold upload, upload_lines, op, print.
  unfold_monad. simpl. fold path. rewrite !append_assoc.
  destruct (open_rb path (outside (world st))) as [[body|e] w1]; simpl.
  2:{ split; [done|]. eexists. split; [done|]. by left. }
  destruct (put_object bucket filename body "text/html" w1) as [[[]|e] w2]; simpl.
  - exists body. split; by rewrite <- !(assoc_L (++)).
  - split; [done|]. eexists. split; [by rewrite <- !(assoc_L (++))|].
    right. by exists body.
Qed.

(** X19: the loop of [sync_to_s3], however it ends.  The files are taken
    in the order of the listing; each file done was opened, then put under
    its own name with the content type [text/html], and has its two
    lines.  The first failure ends the loop: the file that failed has its
    first line only, the failed call is the last one, and the files after
    it are not touched. *)
Theorem upload_loop dir region bucket filenames (st : St) :
  let run := for_each filenames (upload dir region bucket) st in
  exists (done : list (string * string)) pending failure,
    filenames = done.*1 ++ pending /\
    ops (world run.2) = ops (world st) ++
      concat ((fun p => upload_ops dir bucket p.1 p.2) <$> done) ++ failure /\
    match run.1 with
    | Ok _ =>
        pending = [] /\ failure = [] /\
        stdout run.2 = stdout st ++ concat (upload_lines region bucket <$> done.*1)
    | Raise e =>
        exists filename rest,
          pending = filename :: rest /\
          stdout run.2 = stdout st ++
            concat (upload_lines region bucket <$> done.*1) ++
            take 1 (upload_lines region bucket filename) /\
          (failure = [(OpenFile (path_join dir filename), Raise e)] \/
           exists body,
             failure = [ (OpenFile (path_join dir filename), Ok (PStr body));
                         (PutObject bucket filename body "text/html", Raise e) ])
    end.
Proof.
  revert st. induction filenames as [|filename filenames IH]; intros st run.
  { exists [], [], []. subst run. simpl. rewrite !app_nil_r. by repeat split. }
  pose proof (upload_spec dir region bucket filename st) as Hturn. simpl in Hturn.
  destruct (upload dir region bucket filename st) as [[[]|e] st1] eqn:Hrun;
    simpl in Hturn.
  - destruct Hturn as (body & Hops & Hout).
    destruct (IH st1) as (done & pending & failure & Hsplit & Hops' & Hend).
    subst run. rewrite (for_each_cons_ok _ _ _ _ _ Hrun).
    exists ((filename, body) :: done), pending, failure.
    split; [simpl; by rewrite Hsplit|].
    split; [rewrite Hops', Hops; simpl; by rewrite <- !(assoc_L (++))|].
    destruct (for_each filenames (upload dir region bucket) st1).1 as [[]|e'].
    + destruct Hend as (-> & -> & Hout'). repeat split; [].
      rewrite Hout', Hout. simpl. by rewrite <- !(assoc_L (++)).
    + destruct Hend as (f' & rest & -> & Hout' & Hfail).
      exists f', rest. split; [done|]. split; [|done].
      rewrite Hout', Hout. simpl. by rewrite <- !(assoc_L (++)).
  - destruct Hturn as (Hout & failure & Hops & Hfail).
    subst run. rewrite (for_each_cons_raise _ _ _ _ _ _ Hrun).
    exists [], (filename :: filenames), failure. simpl.
    split; [done|]. split; [done|].
    exists filename, filenames. by rewrite Hout.
Qed.

(** The calls of the loop. *)
Lemma upload_loop_calls dir region bucket files filenames (st : St) :
  filenames ⊆ files ->
  exists tr,
    ops (world (for_each filenames (upload dir region bucket) st).2) =
      ops (world st) ++ tr /\
    Forall (fun o => sync_op dir region bucket files o.1) tr.
Proof.
  revert st. induction filenames as [|filename filenames IH]; intros st Hsub.
  { exists []. by rewrite app_nil_r. }
  assert (filename ∈ files) as Hin by set_solver.
  assert (filenames ⊆ files) as Hrest by set_solver.
  pose proof (upload_spec dir region bucket filename st) as Hturn. simpl in Hturn.
  destruct (upload dir region bucket filename st) as [[[]|e] st1] eqn:Hrun;
    simpl in Hturn.
  - destruct Hturn as (body & Hops & _).
    destruct (IH st1 Hrest) as (tr & Htr & Hcalls).
    rewrite (for_each_cons_ok _ _ _ _ _ Hrun).
    exists (upload_ops dir bucket filename body ++ tr).
    split; [by rewrite Htr, Hops, <- (assoc_L (++))|].
    apply Forall_app. split; [|done].
    repeat constructor; simpl; [by exists filename|done].
  - destruct Hturn as (_ & failure & Hops & Hfail).
    rewrite (for_each_cons_raise _ _ _ _ _ _ Hrun).
    exists failure. split; [done|].
    destruct Hfail as [->|(body & ->)]; repeat constructor; simpl;
      try done; by exists filename.
Qed.

Lemma upload_files_calls dir region bucket (st : St) :
  exists tr files,
    ops (world (upload_files dir region bucket st).2) = ops (world st) ++ tr /\
    Forall (fun o => sync_op dir region bucket files o.1) tr /\
    (files <> [] -> (ListDir dir, Ok (PList (PStr <$> files))) ∈ tr).
Proof.
  unfold upload_files, op. unfold_monad. simpl.
  destruct (listdir dir (outside (world st))) as [[files|e] w]; simpl.
  2:{ exists [(ListDir dir, Raise e)], []. by repeat constructor. }
  match goal with |- context [for_each files _ ?st1] =>
    destruct (upload_loop_calls dir region bucket files files st1)
      as (tr & Htr & Hcalls); [done|] end.
  exists ((ListDir dir, Ok (PList (PStr <$> files))) :: tr), files.
  rewrite Htr. simpl. rewrite <- (assoc_L (++)). split; [done|].
  split; [by constructor|]. intros _. apply list_elem_of_here.
Qed.

(** X20: what [sync_to_s3] asks for, however the run ends.  Every call
    concerns the directory, the region and the bucket it was given: a
    file is opened only if the listing of the directory names it, and an
    object is put only in that bucket, under a name of the listing, as
    [text/html]. *)
Theorem sync_to_s3_calls dir region bucket (st : St) :
  exists tr files,
    ops (world (sync_to_s3 dir region bucket st).2) = ops (world st) ++ tr /\
    Forall (fun o => sync_op dir region bucket files o.1) tr /\
    (files <> [] -> (ListDir dir, Ok (PList (PStr <$> files))) ∈ tr).
Proof.
  unfold sync_to_s3, try_except, op. unfold_monad. simpl.
  destruct (isdir dir (outside (world st))); simpl.
  2:{ exists [(IsDir dir, Ok (PBool false))], []. by repeat constructor. }
  destruct (boto3_resource region (outside (world st))) as [[[]|e] w1]; simpl.
  2:{ eexists _, []. rewrite <- (assoc_L (++)). split; [done|].
      by repeat constructor. }
  assert (forall st2 : St,
            ops (world st2) = ops (world st) ++
              [(IsDir dir, Ok (PBool true)); (S3Resource region, Ok PNone);
               (CreateBucket bucket region,
                result_map (fun _ => PNone) (create_bucket bucket region w1).1)] ->
            exists tr files,
              ops (world (upload_files dir region bucket st2).2) = ops (world st) ++ tr /\
              Forall (fun o => sync_op dir region bucket files o.1) tr /\
              (files <> [] -> (ListDir dir, Ok (PList (PStr <$> files))) ∈ tr))
    as Hfiles.
  { intros st2 Hst2.
    destruct (upload_files_calls dir region bucket st2) as (tr & files & Htr & Hcalls & Hlist).
    eexists (_ :: _ :: _ :: tr), files. rewrite Htr, Hst2. simpl.
    rewrite <- !(assoc_L (++)). split; [done|].
    split; [by repeat constructor|]. intros Hne.
    do 3 apply list_elem_of_further. by apply Hlist. }
  destruct (create_bucket bucket region w1) as [[[]|e] w2]; simpl in *.
  - apply Hfiles. simpl. by rewrite <- !(assoc_L (++)).
  - destruct (is_ClientError e); simpl.
    + apply Hfiles. simpl. by rewrite <- !(assoc_L (++)).
    + eexists _, []. rewrite <- !(assoc_L (++)). split; [done|].
      by repeat constructor.
Qed.

(** ** [invalidate_cache] *)

(** X21: an event without [distribution_id] ends [invalidate_cache]
    before any call.  Otherwise the clock is read first; when the
    client cannot be created, that is the end; and the one invalidation
    asked is that of the path [/v1/*] of the distribution of the event,
    under the reference made of that reading of the clock and of a UUID
    drawn after the client was created. *)
Theorem invalidate_cache_calls (ev : pyval) (st : St) :
  let run := invalidate_cache ev st in
  match getitem ev "distribution_id" with
  | Raise e => run = (Raise e, st)
  | Ok distribution_id =>
      let timestamp := (clock (outside (world st))).1 in
      let w1 := (clock (outside (world st))).2 in
      match boto3_cloudfront w1 with
      | (Raise e, _) =>
          run.1 = Raise e /\
          ops (world run.2) = ops (world st) ++
            [(Clock, Ok (PInt timestamp)); (CloudfrontClient, Raise e)]
      | (Ok _, w2) =>
          let reference := (uuid4 w2).1 in
          let batch := invalidation_batch timestamp reference in
          ops (world run.2) = ops (world st) ++
            [ (Clock, Ok (PInt timestamp)); (CloudfrontClient, Ok PNone);
              (Uuid4, Ok (PStr reference));
              (CreateInvalidation distribution_id batch,
               result_map (fun _ => PNone)
                 (create_invalidation distribution_id batch (uuid4 w2).2).1) ] /\
          run.1 = (create_invalidation distribution_id batch (uuid4 w2).2).1 /\
          getitem batch "Paths" =
            Ok (PDict [("Quantity", PInt 1); ("Items", PList [PStr "/v1/*"])])
      end
  end.
Proof.
  intros run. subst run. unfold invalidate_cache, op. unfold_monad. simpl.
  destruct (getitem ev "distribution_id") as [distribution_id|e]; simpl; [|done].
  destruct (clock (outside (world st))) as [timestamp w1]; simpl.
  destruct (boto3_cloudfront w1) as [[[]|e] w2]; simpl.
  2:{ split; [done|]. by rewrite <- !(assoc_L (++)). }
  destruct (uuid4 w2) as [reference w3]; simpl.
  fold (invalidation_batch timestamp reference).
  destruct (create_invalidation distribution_id
              (invalidation_batch timestamp reference) w3) as [r w4]; simpl.
  split; [by rewrite <- !(assoc_L (++))|]. by split.
Qed.

End PublicationTheory.

(** * The further properties at work *)

Section FurtherRuns.

Lemma toy_fetches_all cid :
  cid ∈ ["certificates"; "plugins"; "addons"; "gfx"] ->
  fetches (collab := Toy.server) Toy.url (Toy.blocklist cid).
Proof.
  intros Hcid st. apply run_succeeds.
  repeat (apply elem_of_cons in Hcid as [->|Hcid]; [by eexists|]).
  by apply elem_of_nil in Hcid.
Qed.

Lemma toy_verifies_plugins :
  verifies (collab := Toy.server) Toy.url (Toy.blocklist "plugins").
Proof. intros st x st1 [= <-]%(f_equal fst). by apply run_returns. Qed.

(** Two collections with a genuine signature. *)
Lemma validate_signature_all_verify_witness :
  exists st',
    validate_signature (collab := Toy.server)
      (Toy.on ["certificates"; "plugins"]) Toy.start = (Ok tt, st') /\
    exception st' = None /\
    messages st' =
      [ "Looking at /buckets/blocklists/collections/certificates: "; "Signature OK";
        "Looking at /buckets/blocklists/collections/plugins: "; "Signature OK" ].
Proof.
  refine (validate_signature_all_verify (collab := Toy.server)
            (Toy.on ["certificates"; "plugins"]) Toy.url Toy.start _ _ _).
  - reflexivity.
  - repeat constructor; apply toy_fetches_all; set_solver.
  - repeat constructor; [exact toy_verifies_certificates | exact toy_verifies_plugins].
Defined.

(** [certificates] is signed, and the response to the patch carries no
    timestamp that can be rendered. *)
Lemma refresh_collection_patched_unreported_witness :
  let client := make_client Toy.url (Toy.blocklist "certificates") (Some ["admin"; "s3cr3t"]) in
  exists e st',
    refresh_collection (collab := Depot.faulty 2 Depot.odd_response)
      Toy.url ["admin"; "s3cr3t"] (Toy.blocklist "certificates") Toy.start
      = (Raise e, st') /\
    trace st' = trace Toy.start ++
      [ (GetCollection client, Ok (Toy.metadata "certificates"));
        (PatchCollection client (PDict [("status", PStr "to-sign")]),
         Ok Depot.odd_response) ] /\
    stdout st' = stdout Toy.start ++
      [ "Looking at " +:+ Toy.endpoint client "collection" +:+ ": ";
        "Trigger new signature: " ].
Proof.
  intros client. eexists.
  refine (refresh_collection_patched_unreported (collab := Depot.faulty 2 Depot.odd_response)
            Toy.url ["admin"; "s3cr3t"] (Toy.blocklist "certificates") Toy.start
            (Toy.metadata "certificates") (Toy.data "certificates") (PInt 500)
            0%nat Depot.odd_response 0%nat _ _ _ _ _ _ _); reflexivity.
Defined.

(** Half a second before the second [-1]. *)
Lemma timestamp_to_date_whole_seconds_witness :
  timestamp_to_date (collab := Toy.server) (PInt (-1500)) = Ok "-2 s after the epoch".
Proof.
  exact (timestamp_to_date_whole_seconds (collab := Toy.server) (-2) 500
           ltac:(lia)).
Defined.

(** Room for one temporary file: the second collection finds none, and
    the run ends on the name of the first one's file. *)
Lemma key_file_creation_failure_witness :
  exists name st',
    validate_signature (collab := Depot.faulty 1 Depot.odd_response)
      (Toy.on ["certificates"; "plugins"]) Toy.start
      = (Raise (FileNotFoundError name), st').
Proof.
  pose (server := Depot.faulty 1 Depot.odd_response).
  pose (loop := for_each [Toy.blocklist "certificates"]
                  (validate_collection (collab := server) Toy.url)).
  pose (st1 := (loop (validate_start Toy.start)).2).
  pose (fetch := validate_fetch (collab := server) Toy.url (Toy.blocklist "plugins")).
  pose (x := Fetched (Toy.metadata "plugins")
               (replicate 2 (PDict [("id", PStr "r"); ("last_modified", PInt 42)]))
               (PStr "1007") "rr@1007" "sha384:rr@1007"
               (PDict [("signature", PStr "genuine"); ("public_key", PStr "PUBLIC KEY")])).
  destruct (key_file_creation_failure (collab := server)
              (Toy.on ["certificates"; "plugins"]) Toy.url Toy.start st1 (fetch st1).2
              [Toy.blocklist "certificates"] (Toy.blocklist "plugins") [] x
              (Exn "OSError" "[Errno 28] No space left on device" true) 1%nat
              eq_refl eq_refl
              (run_result loop (validate_start Toy.start) (Ok tt)
                 ltac:(vm_compute; reflexivity))
              (run_result fetch st1 (Ok x) ltac:(vm_compute; reflexivity))
              ltac:(vm_compute; reflexivity))
    as (err & st' & Hrun & Hcase).
  destruct Hcase as [[Hnil _]|[_ (name & Herr & _)]]; [done|].
  exists name, st'. by rewrite <- Herr.
Defined.

(** The registry whose second entry is damaged, and the one whose second
    entry names a collection that cannot be reached. *)
Lemma validate_changes_collection_stops_witness :
  let changes := MkClient Toy.url "monitor" "changes" None in
  let preview := MkClient Toy.url "monitor" "changes-preview" None in
  let gfx := Some (PStr "blocklists", PStr "gfx") in
  (exists etags st',
     validate_changes_collection (collab := Depot.damaged)
       (Event (Some Toy.url) None None None) Toy.start
       = (Raise (KeyError "last_modified"), st') /\
     length etags = 1%nat /\
     trace st' = trace Toy.start ++
       (GetRecords changes None, Ok (PList Depot.damaged_registry)) ::
       zip_with (entry_check changes) (take 1 Depot.damaged_registry) etags ++ []) /\
  (exists etags st',
     validate_changes_collection (collab := Depot.damaged)
       (Event (Some Toy.url) None None (Some "changes-preview")) Toy.start
       = (Raise Toy.ServerError, st') /\
     length etags = 1%nat /\
     trace st' = trace Toy.start ++
       (GetRecords preview None, Ok (PList Depot.unreachable_registry)) ::
       zip_with (entry_check preview) (take 1 Depot.unreachable_registry) etags ++
       [(GetRecordsTimestamp preview gfx, Raise Toy.ServerError)]).
Proof.
  intros changes preview gfx.
  assert (forall key : string, key ∈ ["bucket"; "collection"; "last_modified"] ->
            exists v, getitem (PDict [("bucket", PStr "blocklists");
                                      ("collection", PStr "certificates");
                                      ("last_modified", PInt 100)]) key = Ok v) as Hfirst.
  { intros key Hkey.
    repeat (apply elem_of_cons in Hkey as [->|Hkey]; [by eexists|]).
    by apply elem_of_nil in Hkey. }
  split.
  - refine (validate_changes_collection_stops (collab := Depot.damaged)
              (Event (Some Toy.url) None None None) Toy.url Toy.start
              (take 1 Depot.damaged_registry)
              (PDict [("bucket", PStr "blocklists"); ("collection", PStr "addons")])
              (drop 2 Depot.damaged_registry) 0%nat (KeyError "last_modified") []
              _ _ _ _ _).
    + reflexivity.
    + reflexivity.
    + repeat constructor. exact Hfirst.
    + repeat constructor. intros w. by eexists _, _.
    + left. by split.
  - refine (validate_changes_collection_stops (collab := Depot.damaged)
              (Event (Some Toy.url) None None (Some "changes-preview")) Toy.url Toy.start
              (take 1 Depot.unreachable_registry)
              (PDict [("bucket", PStr "blocklists"); ("collection", PStr "gfx");
                      ("last_modified", PInt 100)])
              (drop 2 Depot.unreachable_registry) 0%nat Toy.ServerError
              [(GetRecordsTimestamp preview gfx, Raise Toy.ServerError)]
              _ _ _ _ _).
    + reflexivity.
    + reflexivity.
    + repeat constructor. exact Hfirst.
    + repeat constructor. intros w. by eexists _, _.
    + right. split; [|split; [done|]].
      * intros key Hkey.
        repeat (apply elem_of_cons in Hkey as [->|Hkey]; [by eexists|]).
        by apply elem_of_nil in Hkey.
      * intros w. by eexists.
Defined.

(** The registry says [100] and the server answers ["101"]. *)
Lemma validate_entry_renderings_witness :
  let client := MkClient Toy.url "monitor" "changes" None in
  let entry := PDict [("bucket", PStr "blocklists"); ("collection", PStr "addons");
                      ("last_modified", PInt 100)] in
  exists st',
    validate_entry (collab := Toy.server) client entry Toy.start = (Ok tt, st') /\
    (forall text, PStr "101" = PStr text ->
       everything_ok st' = everything_ok Toy.start && bool_decide (text = pretty 100)) /\
    (forall n, PStr "101" = PInt n ->
       everything_ok st' = everything_ok Toy.start && bool_decide (n = 100)).
Proof.
  intros client entry.
  refine (validate_entry_renderings (collab := Toy.server) client entry Toy.start
            (PStr "101") 100 0%nat _ _ _).
  - intros key Hkey.
    repeat (apply elem_of_cons in Hkey as [->|Hkey]; [by eexists|]).
    by apply elem_of_nil in Hkey.
  - reflexivity.
  - reflexivity.
Defined.

(** Two collections, the first with a forged signature. *)
Lemma validate_signature_queries_in_order_witness :
  exists tr,
    trace (validate_signature (collab := Toy.server)
             (Toy.on ["addons"; "plugins"]) Toy.start).2 = trace Toy.start ++ tr /\
    queried tr =
      [ make_client Toy.url (Toy.blocklist "addons") None;
        make_client Toy.url (Toy.blocklist "plugins") None ].
Proof.
  refine (validate_signature_queries_in_order (collab := Toy.server)
            (Toy.on ["addons"; "plugins"]) Toy.url Toy.start _ _ _ _).
  - reflexivity.
  - exact toy_stages.
  - exact toy_verifier.
  - repeat constructor; apply toy_fetches_all; set_solver.
Defined.

(** [schemas.json] has nothing for [plugins]. *)
Lemma schema_updater_unknown_collection_witness :
  let client := make_client Toy.url (Depot.staging "plugins") (Some ["admin"; "s3cr3t"]) in
  exists st',
    for_each [Depot.staging "plugins"; Depot.staging "gfx"]
      (schema_collection (collab := Toy.server) (lib := Depot.schema_library)
         Toy.url ["admin"; "s3cr3t"] Depot.configurations) Toy.start
      = (Raise (KeyError "plugins"), st') /\
    trace st' = trace Toy.start ++ [(GetCollection client, Ok (Toy.metadata "plugins"))] /\
    stdout st' = stdout Toy.start ++
      ["Checking at " +:+ Toy.endpoint client "collection" +:+ ": "].
Proof.
  intros client.
  refine (schema_updater_unknown_collection (collab := Toy.server)
            (lib := Depot.schema_library) Toy.url ["admin"; "s3cr3t"]
            Depot.configurations (Depot.staging "plugins") [Depot.staging "gfx"]
            Toy.start (Toy.metadata "plugins") 0%nat (KeyError "plugins") _ _);
    reflexivity.
Defined.

(** The server of the pages is down. *)
Lemma blockpages_generator_failure_witness :
  let args := [PStr "--server"; PStr "down"; PStr "--target-dir"; PStr "/tmp/pages"] in
  exists st',
    blockpages_generator (collab := Toy.server) (pub := Depot.publishing)
      (PDict [("server", PStr "down"); ("aws_region", PStr "eu-west-1")]) Depot.start
      = (Raise Depot.GeneratorError, st') /\
    ops (world st') = ops (world Depot.start) ++
      [(Mkdtemp, Ok (PStr "/tmp/pages")); (GeneratorMain args, Raise Depot.GeneratorError)] /\
    stdout st' = stdout Depot.start ++
      ["Blocked pages generator args " +:+ str (collab := Toy.server) (PList args) +:+ nl].
Proof.
  intros args.
  refine (blockpages_generator_failure (collab := Toy.server) (pub := Depot.publishing)
            [("server", PStr "down"); ("aws_region", PStr "eu-west-1")] Depot.start
            "/tmp/pages" 0%nat Depot.GeneratorError 0%nat _ _); reflexivity.
Defined.

(** An event that names the region twice, in two spellings, and no
    bucket. *)
Lemma blockpages_generator_sync_witness :
  let pairs := [ ("AWS_Region", PStr "eu-west-1"); ("bucket", PStr "blocklists");
                 ("Server", PStr "ignored"); ("aws_region", PStr "mars-1") ] in
  let args := [PStr "--bucket"; PStr "blocklists"; PStr "--target-dir"; PStr "/tmp/pages"] in
  exists st2,
    blockpages_generator (collab := Toy.server) (pub := Depot.publishing)
      (PDict pairs) Depot.start =
      sync_to_s3 (collab := Toy.server) (pub := Depot.publishing)
        "/tmp/pages" (PStr "mars-1") (PStr "amo-blocked-pages") st2 /\
    outside (world st2) = 0%nat /\
    ops (world st2) = ops (world Depot.start) ++
      [(Mkdtemp, Ok (PStr "/tmp/pages")); (GeneratorMain args, Ok PNone)] /\
    stdout st2 = stdout Depot.start ++
      [ "Blocked pages generator args " +:+ str (collab := Toy.server) (PList args) +:+ nl;
        "Send results to s3 " +:+ str (collab := Toy.server) (PList args) +:+ nl ].
Proof.
  intros pairs args.
  refine (blockpages_generator_sync (collab := Toy.server) (pub := Depot.publishing)
            pairs Depot.start "/tmp/pages" 0%nat 0%nat _ _); reflexivity.
Defined.

(** A directory that is not there. *)
Lemma sync_to_s3_missing_directory_witness :
  exists st',
    sync_to_s3 (collab := Toy.server) (pub := Depot.publishing)
      "/tmp/lost" (PStr "eu-central-1") (PStr "amo-blocked-pages") Depot.start =
      (Raise (ValueError "target_dir '/tmp/lost' not found."), st') /\
    ops (world st') = ops (world Depot.start) ++ [(IsDir "/tmp/lost", Ok (PBool false))] /\
    outside (world st') = outside (world Depot.start) /\
    stdout st' = stdout Depot.start.
Proof.
  refine (sync_to_s3_missing_directory (collab := Toy.server) (pub := Depot.publishing)
            "/tmp/lost" (PStr "eu-central-1") (PStr "amo-blocked-pages") Depot.start _).
  reflexivity.
Defined.

(** The bucket exists already: the pages are uploaded all the same. *)
Lemma sync_to_s3_create_bucket_error_witness :
  exists st2,
    outside (world st2) = 0%nat /\
    ops (world st2) = ops (world Depot.start) ++
      [ (IsDir "/tmp/pages", Ok (PBool true));
        (S3Resource (PStr "eu-central-1"), Ok PNone);
        (CreateBucket (PStr "amo-blocked-pages") (PStr "eu-central-1"),
         Raise Depot.BucketAlreadyOwnedByYou) ] /\
    stdout st2 = stdout Depot.start /\
    sync_to_s3 (collab := Toy.server) (pub := Depot.publishing)
      "/tmp/pages" (PStr "eu-central-1") (PStr "amo-blocked-pages") Depot.start =
      upload_files (collab := Toy.server) (pub := Depot.publishing)
        "/tmp/pages" (PStr "eu-central-1") (PStr "amo-blocked-pages") st2.
Proof.
  refine (sync_to_s3_create_bucket_error (collab := Toy.server) (pub := Depot.publishing)
            "/tmp/pages" (PStr "eu-central-1") (PStr "amo-blocked-pages") Depot.start
            0%nat Depot.BucketAlreadyOwnedByYou 0%nat _ _ _); reflexivity.
Defined.

(** ** Small runs of the other lambdas *)

(** The pages are generated, the bucket exists, and the two pages are
    uploaded. *)
Example pages_published :
  let run := blockpages_generator (collab := Toy.server) (pub := Depot.publishing)
               (PDict [("server", PStr "https://kinto.example")]) Depot.start in
  run.1 = Ok tt /\
  ops (world run.2) =
    [ (Mkdtemp, Ok (PStr "/tmp/pages"));
      (GeneratorMain [PStr "--server"; PStr "https://kinto.example";
                      PStr "--target-dir"; PStr "/tmp/pages"], Ok PNone);
      (IsDir "/tmp/pages", Ok (PBool true));
      (S3Resource (PStr "eu-central-1"), Ok PNone);
      (CreateBucket (PStr "amo-blocked-pages") (PStr "eu-central-1"),
       Raise Depot.BucketAlreadyOwnedByYou);
      (ListDir "/tmp/pages", Ok (PList [PStr "addons.html"; PStr "plugins.html"]));
      (OpenFile "/tmp/pages/addons.html", Ok (PStr "/tmp/pages/addons.html"));
      (PutObject (PStr "amo-blocked-pages") "addons.html" "/tmp/pages/addons.html"
         "text/html", Ok PNone);
      (OpenFile "/tmp/pages/plugins.html", Ok (PStr "/tmp/pages/plugins.html"));
      (PutObject (PStr "amo-blocked-pages") "plugins.html" "/tmp/pages/plugins.html"
         "text/html", Ok PNone) ].
Proof. vm_compute. by split. Qed.

(** A region that cannot be reached: nothing is listed or uploaded. *)
Example region_unreachable :
  let run := blockpages_generator (collab := Toy.server) (pub := Depot.publishing)
               (PDict [("AWS_REGION", PStr "mars-1")]) Depot.start in
  run.1 = Raise Depot.EndpointConnectionError /\
  last (ops (world run.2)) =
    Some (CreateBucket (PStr "amo-blocked-pages") (PStr "mars-1"),
          Raise Depot.EndpointConnectionError) /\
  length (stdout run.2) = 2%nat.
Proof. vm_compute. by repeat split. Qed.

(** A bucket that takes no object: the first page is opened, and the
    second one is not. *)
Example bucket_read_only :
  let run := blockpages_generator (collab := Toy.server) (pub := Depot.publishing)
               (PDict [("bucket_name", PStr "read-only")]) Depot.start in
  exn_class <$> (match run.1 with Raise e => Some e | Ok _ => None end) = Some "ClientError" /\
  drop 6 (ops (world run.2)) =
    [ (OpenFile "/tmp/pages/addons.html", Ok (PStr "/tmp/pages/addons.html"));
      (PutObject (PStr "read-only") "addons.html" "/tmp/pages/addons.html" "text/html",
       Raise (Exn "ClientError" "An error occurred (AccessDenied)" true)) ].
Proof. vm_compute. by split. Qed.

Example distribution_invalidated :
  let run := invalidate_cache (pub := Depot.publishing)
               (PDict [("distribution_id", PStr "E2XYZ")]) Depot.start in
  run.1 = Ok tt /\
  last (ops (world run.2)) =
    Some (CreateInvalidation (PStr "E2XYZ")
            (PDict [("Paths", PDict [("Quantity", PInt 1);
                                     ("Items", PList [PStr "/v1/*"])]);
                    ("CallerReference", PStr "1500000000-uuid-0")]),
          Ok PNone).
Proof. vm_compute. by split. Qed.

Example schemas_updated :
  let run := schema_updater (collab := Depot.faulty 2 Depot.odd_response)
               (lib := Depot.schema_library)
               (Event (Some Toy.url) (Some [Depot.staging "certificates"]) None None)
               Toy.start in
  run.1 = Ok tt /\
  stdout run.2 = ["Checking at /buckets/staging/collections/certificates: "; "OK" +:+ nl] /\
  is_write <$> (trace run.2).*1 = [false; true].
Proof. vm_compute. by repeat split. Qed.

End FurtherRuns.
